(** * VCSim: the staging / commit / checkout core of [Vcs_oops.cpp]

    A shallow embedding of the classes [File]/[TextFile], [Commit],
    [Repository] and [VCS].  The program works on [File*] pointers that are
    shared between the working set, the staging vector and (through clones)
    the commits, so the embedding keeps an explicit store of [File] objects
    and passes it through every operation.

    Conventions.
    - A [File*] is a [positive]; the store is a [gmap positive File];
      [new] takes an address outside the store's domain.
    - Dereferencing a pointer that is not in the store, and incrementing an
      [int] beyond [INT_MAX], are undefined in C++; an exception of
      [std::filesystem], which nothing in the program catches, ends the
      process.  In each case the operation does not return: [None].
    - [std::map<string, _>] is a list of pairs kept in increasing key order.
    - [std::filesystem] and the file streams are library code.  The program
      knows the file system through the four calls it makes, and checks the
      outcome of none of them; the embedding takes these calls as the
      interface [FileSystem] and holds for every implementation of it.
      Every call that changes the file system is also appended to a trace,
      to speak about the order of the calls.
    - [cout] is the list of the chunks printed so far.
    - What the user types at a prompt, and what [ctime] answers, travel with
      the command that consumes them.  A command line is taken as
      [runCommand] has split it (prefix test, [substr], [stoi]); the
      specification leaves the parser out of the core. *)

From stdpp Require Import base option list sorting gmap strings pretty.
From Stdlib Require Import Ascii ZArith Lia OrdersEx.

Local Open Scope Z_scope.

(** ** Strings *)

Definition newline : ascii := ascii_of_nat 10.
Definition endl : string := String newline "".

(** [timestamp.pop_back()] when the last character is a line feed. *)
Fixpoint pop_back_newline (s : string) : string :=
  match s with
  | EmptyString => EmptyString
  | String c EmptyString => if decide (c = newline) then EmptyString else s
  | String c s' => String c (pop_back_newline s')
  end.

(** [while (getline(in, line)) content += line + "\n";] over a whole file:
    the characters are copied, and a last line without a line feed gets
    one. *)
Fixpoint getline_all (s : string) : string :=
  match s with
  | EmptyString => EmptyString
  | String c s' =>
      String c (match s' with
                | EmptyString => if decide (c = newline) then EmptyString else endl
                | _ => getline_all s'
                end)
  end.

(** ** Data *)

(** [class File] (with its only subclass [TextFile]). *)
Record File := mkFile {
  File_name : string;
  File_content : string;
  File_stagedContent : string;
  File_modified : bool
}.

(** [class Commit]; [Commit_files] holds the owning pointers to the clones. *)
Record Commit := mkCommit {
  Commit_id : Z;
  Commit_message : string;
  Commit_timestamp : string;
  Commit_files : list (string * positive)
}.

(** A call that changes the file system: [fs::create_directory(path)], or
    an [ofstream] opened on [path] that is sent [data] and closed. *)
Inductive FsOp :=
  | MkDir (path : string)
  | Write (path : string) (data : string).

(** ** The file system *)

(** What the program uses of the file system.  [FS] is the state of the
    file system as far as these calls can tell.
    - [fs_exists p d] is [fs::exists(p)]: [None] when it throws
      [filesystem_error] (the status of [p] cannot be read).
    - [fs_create_directory p d] is [fs::create_directory(p)]: the file
      system after the call, whether or not a directory was made, and
      [None] when it throws.
    - [fs_write p data d] is [ofstream out(p); out << data; out.close();]:
      the file system after these calls.  A stream that could not be
      opened reports nothing to the program and the data is dropped.
    - [fs_read p d] is what [ifstream in(p)] delivers to the [getline]
      loop before it fails: the empty text when the stream could not be
      opened or read. *)
Class FileSystem := {
  FS : Type;
  fs_exists : string → FS → option bool;
  fs_create_directory : string → FS → option FS;
  fs_write : string → string → FS → FS;
  fs_read : string → FS → string
}.

(** The whole program state, over the states [D] of a file system:
    [File] objects, file system, console, the [Repository] singleton and
    the [VCS] controller. *)
Record ProgramState (D : Type) := mkState {
  heap : gmap positive File;
  disk : D;
  fsops : list FsOp;
  cout : list string;
  commits : list Commit;
  stagedFiles : list positive;
  nextCommitId : Z;
  workingFiles : list positive
}.

Arguments mkState {D} _ _ _ _ _ _ _ _.
Arguments heap {D} _.
Arguments disk {D} _.
Arguments fsops {D} _.
Arguments cout {D} _.
Arguments commits {D} _.
Arguments stagedFiles {D} _.
Arguments nextCommitId {D} _.
Arguments workingFiles {D} _.

Section vcs.
Context {fsys : FileSystem}.

Definition State : Type := ProgramState FS.

Definition INT_MAX : Z := 2147483647.

Definition with_heap (h : gmap positive File) (s : State) : State :=
  mkState h (disk s) (fsops s) (cout s) (commits s) (stagedFiles s)
          (nextCommitId s) (workingFiles s).
Definition with_commits (cs : list Commit) (s : State) : State :=
  mkState (heap s) (disk s) (fsops s) (cout s) cs (stagedFiles s)
          (nextCommitId s) (workingFiles s).
Definition with_stagedFiles (l : list positive) (s : State) : State :=
  mkState (heap s) (disk s) (fsops s) (cout s) (commits s) l
          (nextCommitId s) (workingFiles s).
Definition with_nextCommitId (n : Z) (s : State) : State :=
  mkState (heap s) (disk s) (fsops s) (cout s) (commits s) (stagedFiles s)
          n (workingFiles s).
Definition with_workingFiles (l : list positive) (s : State) : State :=
  mkState (heap s) (disk s) (fsops s) (cout s) (commits s) (stagedFiles s)
          (nextCommitId s) l.

(** [cout << msg]. *)
Definition print (msg : string) (s : State) : State :=
  mkState (heap s) (disk s) (fsops s) (cout s ++ [msg]) (commits s)
          (stagedFiles s) (nextCommitId s) (workingFiles s).

(** [ofstream out(path); out << data; out.close();] *)
Definition ofstream_write (path data : string) (s : State) : State :=
  mkState (heap s) (fs_write path data (disk s)) (fsops s ++ [Write path data])
          (cout s) (commits s) (stagedFiles s) (nextCommitId s)
          (workingFiles s).

(** [fs::create_directory(path)]; [None] when it throws. *)
Definition create_directory (path : string) (s : State) : option State :=
  d ← fs_create_directory path (disk s);
  Some (mkState (heap s) d (fsops s ++ [MkDir path]) (cout s) (commits s)
                (stagedFiles s) (nextCommitId s) (workingFiles s)).

(** [new TextFile(...)]: the object is placed at an unused address. *)
Definition new_File (F : File) (s : State) : positive * State :=
  let p := fresh (dom (heap s)) in (p, with_heap (<[p := F]> (heap s)) s).

(** [delete p], run by a [unique_ptr] that is overwritten. *)
Definition delete_File (p : positive) (s : State) : State :=
  with_heap (delete p (heap s)) s.

(** ** [File] *)

(** [File(n, c)]: [content] and [stagedContent] both start as [c]. *)
Definition File_ctor (n c : string) : File := mkFile n c c false.

Definition File_updateContent (f : positive) (c : string) (s : State)
  : option State :=
  F ← heap s !! f;
  Some (with_heap
          (<[f := mkFile (File_name F) (File_content F) c true]> (heap s)) s).

Definition File_clearModified (f : positive) (s : State) : option State :=
  F ← heap s !! f;
  Some (with_heap
          (<[f := mkFile (File_name F) (File_stagedContent F)
                         (File_stagedContent F) false]> (heap s)) s).

Definition File_saveToDisk (f : positive) (s : State) : option State :=
  F ← heap s !! f;
  Some (ofstream_write (File_name F) (File_content F) s).

(** [TextFile::clone]: [new TextFile( *this )]. *)
Definition File_clone (f : positive) (s : State) : option (positive * State) :=
  F ← heap s !! f;
  Some (new_File F s).

Definition File_showContent (f : positive) (s : State) : option State :=
  F ← heap s !! f;
  Some (print ("[TextFile] " +:+ File_name F +:+ ": "
               +:+ File_stagedContent F +:+ endl) s).

(** [File::loadFromDisk]: the pointer it returns is [None] for the null
    pointer; the call itself does not return when [fs::exists] throws. *)
Definition File_loadFromDisk (fname : string) (s : State)
  : option (option positive * State) :=
  b ← fs_exists fname (disk s);
  if b : bool then
    let '(p, s') :=
      new_File (File_ctor fname (getline_all (fs_read fname (disk s)))) s in
    Some (Some p, s')
  else Some (None, s).

(** ** [std::map] *)

(** [m[k] = v]: the entry is put at its place in key order; when the key is
    there already its value is replaced, and the old value is returned. *)
Fixpoint map_assign (k : string) (v : positive) (m : list (string * positive))
  : list (string * positive) * option positive :=
  match m with
  | [] => ([(k, v)], None)
  | (k', v') :: m' =>
      match String_as_OT.compare k k' with
      | Lt => ((k, v) :: m, None)
      | Eq => ((k, v) :: m', Some v')
      | Gt => let '(r, old) := map_assign k v m' in ((k', v') :: r, old)
      end
  end.

(** ** [Commit] *)

(** The loop of the constructor:
    [files[f->getName()] = unique_ptr<File>(f->clone())].  The clone is made
    first; a clone already stored under the same name is destroyed by the
    assignment. *)
Fixpoint Commit_fill (staged : list positive) (files : list (string * positive))
    (s : State) : option (list (string * positive) * State) :=
  match staged with
  | [] => Some (files, s)
  | f :: rest =>
      F ← heap s !! f;
      '(p, s1) ← File_clone f s;
      let '(files', old) := map_assign (File_name F) p files in
      let s2 := match old with
                | Some q => delete_File q s1
                | None => s1
                end in
      Commit_fill rest files' s2
  end.

(** [Commit(i, msg, staged)]; [now] is what [ctime(&now)] returned. *)
Definition Commit_ctor (i : Z) (msg now : string) (staged : list positive)
    (s : State) : option (Commit * State) :=
  '(files, s') ← Commit_fill staged [] s;
  Some (mkCommit i msg (pop_back_newline now) files, s').

Fixpoint Commit_showFiles (files : list (string * positive)) (s : State)
  : option State :=
  match files with
  | [] => Some s
  | (_, p) :: rest => s' ← File_showContent p s; Commit_showFiles rest s'
  end.

Definition Commit_showDetails (c : Commit) (s : State) : option State :=
  Commit_showFiles (Commit_files c)
    (print ("Commit " +:+ pretty (Commit_id c) +:+ ": " +:+ Commit_message c
            +:+ " at " +:+ Commit_timestamp c +:+ endl) s).

(** The loop of [getSnapshot]: [snapshot[p.first] = p.second->clone()]. *)
Fixpoint Commit_cloneFiles (files : list (string * positive))
    (snapshot : list (string * positive)) (s : State)
  : option (list (string * positive) * State) :=
  match files with
  | [] => Some (snapshot, s)
  | (k, p) :: rest =>
      '(q, s1) ← File_clone p s;
      Commit_cloneFiles rest (map_assign k q snapshot).1 s1
  end.

Definition Commit_getSnapshot (c : Commit) (s : State)
  : option (list (string * positive) * State) :=
  Commit_cloneFiles (Commit_files c) [] s.

(** ** [Repository] *)

(** [Repository()] and [VCS()] on the file system [d]: the state they
    leave, or [None] when [fs::create_directory(".vcs")] throws. *)
Definition Repository_init (d : FS) : option State :=
  d1 ← fs_create_directory ".vcs" d;
  Some (mkState ∅ d1 [MkDir ".vcs"] [] [] [] 1 []).

Definition Repository_addFile (f : positive) (s : State) : option State :=
  if decide (f ∈ stagedFiles s) then Some s
  else
    F ← heap s !! f;
    Some (print ("Added file to staging: " +:+ File_name F +:+ endl)
            (with_stagedFiles (stagedFiles s ++ [f]) s)).

(** First loop of [commit]: the staged files with [isModified()]. *)
Fixpoint commit_select (staged : list positive) (s : State)
  : option (list positive) :=
  match staged with
  | [] => Some []
  | f :: rest =>
      F ← heap s !! f;
      r ← commit_select rest s;
      Some (if File_modified F then f :: r else r)
  end.

(** Second loop of [commit]: archive write, [clearModified], [saveToDisk]. *)
Fixpoint commit_write (commitPath : string) (editableFiles : list positive)
    (s : State) : option State :=
  match editableFiles with
  | [] => Some s
  | f :: rest =>
      F ← heap s !! f;
      let s1 := ofstream_write (commitPath +:+ "/" +:+ File_name F)
                               (File_stagedContent F) s in
      s2 ← File_clearModified f s1;
      s3 ← File_saveToDisk f s2;
      commit_write commitPath rest s3
  end.

(** [v.erase(remove(v.begin(), v.end(), f), v.end())]. *)
Definition vector_remove (f : positive) (v : list positive) : list positive :=
  filter (λ x, x ≠ f) v.

(** Third loop of [commit]. *)
Definition commit_unstage (editableFiles : list positive)
    (staged : list positive) : list positive :=
  foldl (λ v f, vector_remove f v) staged editableFiles.

Definition Repository_commit (msg now : string) (s : State) : option State :=
  editableFiles ← commit_select (stagedFiles s) s;
  match editableFiles with
  | [] => Some (print ("No edited files to commit! Edit files first." +:+ endl) s)
  | _ =>
      let commitPath := ".vcs/commit_" +:+ pretty (nextCommitId s) in
      s1 ← create_directory commitPath s;
      s2 ← commit_write commitPath editableFiles s1;
      let i := nextCommitId s2 in
      if decide (i < INT_MAX) then
        '(c, s3) ← Commit_ctor i msg now editableFiles
                     (with_nextCommitId (i + 1) s2);
        let s4 := with_commits (commits s3 ++ [c]) s3 in
        let s5 := with_stagedFiles
                    (commit_unstage editableFiles (stagedFiles s4)) s4 in
        Some (print ("Commit done! Changes saved to .vcs and original files updated."
                     +:+ endl) s5)
      else None
  end.

Fixpoint log_loop (cs : list Commit) (s : State) : option State :=
  match cs with
  | [] => Some s
  | c :: rest =>
      s' ← Commit_showDetails c s;
      log_loop rest (print ("--------------------" +:+ endl) s')
  end.

Definition Repository_log (s : State) : option State :=
  match commits s with
  | [] => Some (print ("No commits yet." +:+ endl) s)
  | cs => log_loop cs s
  end.

(** Inner loop of [checkout]: [workingFiles.push_back(p.second)] and the
    write of [getContent()] to the file called [getName()]. *)
Fixpoint checkout_restore (snapshot : list (string * positive)) (s : State)
  : option State :=
  match snapshot with
  | [] => Some s
  | (_, p) :: rest =>
      F ← heap s !! p;
      checkout_restore rest
        (ofstream_write (File_name F) (File_content F)
           (with_workingFiles (workingFiles s ++ [p]) s))
  end.

(** Outer loop of [checkout]: the first commit whose id is [commitId]. *)
Fixpoint checkout_find (cs : list Commit) (commitId : Z) (s : State)
  : option State :=
  match cs with
  | [] => Some (print ("Commit ID not found!" +:+ endl) s)
  | c :: rest =>
      if decide (Commit_id c = commitId) then
        '(snapshot, s1) ← Commit_getSnapshot c s;
        s2 ← checkout_restore snapshot (with_workingFiles [] s1);
        Some (print ("Checked out commit " +:+ pretty commitId
                     +:+ ", files restored on disk." +:+ endl) s2)
      else checkout_find rest commitId s
  end.

Definition Repository_checkout (commitId : Z) (s : State) : option State :=
  checkout_find (commits s) commitId s.

(** ** [VCS] *)

(** [editFile]; [newContent] is the line read from [cin]. *)
Definition VCS_editFile (f : positive) (newContent : string) (s : State)
  : option State :=
  F ← heap s !! f;
  let s1 := print ("Enter new content for " +:+ File_name F +:+ ": ") s in
  s2 ← File_updateContent f newContent s1;
  let s3 := print (File_name F +:+ " updated in memory (not saved to disk)."
                   +:+ endl) s2 in
  let s4 := print ("Note: Changes are staged. Use 'commit <msg>' to save these changes permanently."
                   +:+ endl) s3 in
  Repository_addFile f s4.

(** A command line as [runCommand] dispatches it, with the console input
    and the clock value it consumes.  [ch1] and [ch2] answer the two prompts
    of [add] for a file that is not on disk. *)
Inductive Command :=
  | CmdAdd (fname : string) (ch1 ch2 : ascii) (newContent : string)
  | CmdEdit (fname : string) (newContent : string)
  | CmdCommit (msg : string) (now : string)
  | CmdLog
  | CmdCheckout (commitId : Z)
  | CmdUnknown.

(** [ch == 'y' || ch == 'Y'] *)
Definition is_yes (ch : ascii) : bool :=
  bool_decide (ch = "y"%char) || bool_decide (ch = "Y"%char).

(** The part of the [add] branch that obtains the [File*]: from disk, or a
    new empty file when the user agrees; [None] is the early [return]. *)
Definition add_obtain (fname : string) (ch1 ch2 : ascii) (newContent : string)
    (s : State) : option (option positive * State) :=
  r ← File_loadFromDisk fname s;
  match r with
  | (Some f, s1) => Some (Some f, s1)
  | (None, s1) =>
      let s2 := print "File does not exist on disk. Create new? (y/n): " s1 in
      if is_yes ch1 then
        let '(f, s3) := new_File (File_ctor fname "") s2 in
        let s4 := ofstream_write fname "" s3 in
        let s5 := print ("File created." +:+ endl) s4 in
        let s6 := print "Do you want to edit now? (y/n): " s5 in
        s7 ← (if is_yes ch2 then VCS_editFile f newContent s6 else Some s6);
        Some (Some f, s7)
      else Some (None, s2)
  end.

(** The loop of the [edit] branch: the first working file called [fname]. *)
Fixpoint edit_find (wf : list positive) (fname newContent : string)
    (s : State) : option State :=
  match wf with
  | [] => Some (print ("File not found in working directory!" +:+ endl) s)
  | f :: rest =>
      F ← heap s !! f;
      if decide (File_name F = fname) then VCS_editFile f newContent s
      else edit_find rest fname newContent s
  end.

Definition VCS_runCommand (cmd : Command) (s : State) : option State :=
  match cmd with
  | CmdAdd fname ch1 ch2 newContent =>
      r ← add_obtain fname ch1 ch2 newContent s;
      match r with
      | (None, s') => Some s'
      | (Some f, s') =>
          let s'' := if decide (f ∈ workingFiles s') then s'
                     else with_workingFiles (workingFiles s' ++ [f]) s' in
          Repository_addFile f s''
      end
  | CmdEdit fname newContent =>
      edit_find (workingFiles s) fname newContent s
  | CmdCommit msg now => Repository_commit msg now s
  | CmdLog => Repository_log s
  | CmdCheckout commitId => Repository_checkout commitId s
  | CmdUnknown => Some (print ("Unknown command!" +:+ endl) s)
  end.

(** The loop of [main] over the lines read before [exit]. *)
Fixpoint run (cmds : list Command) (s : State) : option State :=
  match cmds with
  | [] => Some s
  | cmd :: rest => s' ← VCS_runCommand cmd s; run rest s'
  end.

(** [main] up to the last command it has run: the constructors on the
    file system [d], then the commands. *)
Definition session (d : FS) (cmds : list Command) : option State :=
  s0 ← Repository_init d; run cmds s0.

(** ** The reading loop of [File::loadFromDisk] *)

(** The characters [getline] extracts from the unread part of a file up to
    the first line feed, and what is left after the line feed. *)
Fixpoint getline_split (s : string) : string * string :=
  match s with
  | EmptyString => (EmptyString, EmptyString)
  | String c s' =>
      if decide (c = newline) then (EmptyString, s')
      else let '(line, rest) := getline_split s' in (String c line, rest)
  end.

(** [getline(in, line)] as a condition: it fails when nothing is left to
    read, and otherwise yields the line and the unread rest. *)
Definition getline (s : string) : option (string * string) :=
  match s with
  | EmptyString => None
  | _ => Some (getline_split s)
  end.

(** [while (getline(in, line)) content += line + "\n";] with a bound on
    the number of iterations. *)
Fixpoint loadFromDisk_loop (fuel : nat) (unread content : string) : string :=
  match fuel with
  | O => content
  | S fuel' =>
      match getline unread with
      | None => content
      | Some (line, rest) =>
          loadFromDisk_loop fuel' rest (content +:+ line +:+ endl)
      end
  end.

(** ** The dispatch of [VCS::runCommand] on the command line *)

(** What one command reads from the console and from the clock: the two
    one-letter answers, the line of new content, the answer of [ctime]. *)
Record Console := mkConsole {
  con_ch1 : ascii;
  con_ch2 : ascii;
  con_line : string;
  con_now : string
}.

(** [s.substr(pos)]: the characters from position [pos] on; [None] is the
    [out_of_range] exception for [pos > s.size()]. *)
Fixpoint substr (pos : nat) (s : string) : option string :=
  match pos, s with
  | O, _ => Some s
  | S _, EmptyString => None
  | S pos', String _ s' => substr pos' s'
  end.

(** [VCS::showWorkingFiles]. *)
Fixpoint showWorkingFiles_loop (wf : list positive) (s : State)
  : option State :=
  match wf with
  | [] => Some s
  | f :: rest => s' ← File_showContent f s; showWorkingFiles_loop rest s'
  end.

Definition VCS_showWorkingFiles (s : State) : option State :=
  showWorkingFiles_loop (workingFiles s)
    (print ("Current Working Files:" +:+ endl) s).

Section dispatch.
(** [std::stoi] of the standard library; [None] is one of its
    exceptions, which nothing in the program catches. *)
Variable stoi : string → option Z.

(** [runCommand(cmd)]: [cmd.rfind(p, 0) == 0] holds when [cmd] starts
    with [p]. *)
Definition VCS_runCommand_line (cmd : string) (con : Console) (s : State)
  : option State :=
  if String.prefix "add " cmd then
    fname ← substr 4 cmd;
    VCS_runCommand (CmdAdd fname (con_ch1 con) (con_ch2 con) (con_line con)) s
  else if String.prefix "edit " cmd then
    fname ← substr 5 cmd;
    VCS_runCommand (CmdEdit fname (con_line con)) s
  else if String.prefix "commit " cmd then
    msg ← substr 7 cmd;
    VCS_runCommand (CmdCommit msg (con_now con)) s
  else if decide (cmd = "log") then VCS_runCommand CmdLog s
  else if String.prefix "checkout " cmd then
    arg ← substr 9 cmd;
    id ← stoi arg;
    VCS_runCommand (CmdCheckout id) s
  else VCS_runCommand CmdUnknown s.
End dispatch.

(** * Properties *)

(** ** [std::map] as a key-ordered list *)

Definition key_lt : relation string := String_as_OT.lt.

Definition keys_sorted (m : list (string * positive)) : Prop :=
  StronglySorted key_lt m.*1.

Lemma key_compare_spec k k' :
  CompSpec eq key_lt k k' (String_as_OT.compare k k').
Proof. apply String_as_OT.compare_spec. Qed.

Lemma key_lt_trans k1 k2 k3 : key_lt k1 k2 → key_lt k2 k3 → key_lt k1 k3.
Proof. apply String_as_OT.lt_strorder. Qed.

Lemma key_lt_irrefl k : ¬ key_lt k k.
Proof. apply String_as_OT.lt_strorder. Qed.

(** What an assignment does to the entries, up to their order. *)
Lemma map_assign_perm k v m :
  match (map_assign k v m).2 with
  | None => (map_assign k v m).1 ≡ₚ (k, v) :: m
  | Some q => ∃ m0, m ≡ₚ (k, q) :: m0 ∧ (map_assign k v m).1 ≡ₚ (k, v) :: m0
  end.
Proof.
  induction m as [|[k' v'] m IH]; simpl; [done|].
  destruct (key_compare_spec k k') as [->|Hlt|Hgt]; simpl; [eauto|done|].
  destruct (map_assign k v m) as [r [q|]]; simpl in *.
  - destruct IH as (m0 & Hm & Hr). exists ((k', v') :: m0). split.
    + rewrite Hm. apply Permutation_swap.
    + rewrite Hr. apply Permutation_swap.
  - rewrite IH. apply Permutation_swap.
Qed.

Lemma map_assign_elem k v m e :
  e ∈ (map_assign k v m).1 → e = (k, v) ∨ e ∈ m.
Proof.
  pose proof (map_assign_perm k v m) as H.
  destruct (map_assign k v m).2 as [q|].
  - destruct H as (m0 & Hm & ->). rewrite Hm, !elem_of_cons. tauto.
  - rewrite H, elem_of_cons. tauto.
Qed.

Lemma map_assign_new k v m : (k, v) ∈ (map_assign k v m).1.
Proof.
  pose proof (map_assign_perm k v m) as H.
  destruct (map_assign k v m).2 as [q|].
  - destruct H as (m0 & _ & ->). left.
  - rewrite H. left.
Qed.

Lemma map_assign_sorted k v m :
  keys_sorted m → keys_sorted (map_assign k v m).1.
Proof.
  unfold keys_sorted. induction m as [|[k' v'] m IH]; simpl; intros Hs.
  { repeat constructor. }
  inversion_clear Hs as [|? ? Hm Hall].
  destruct (key_compare_spec k k') as [->|Hlt|Hgt]; simpl.
  - by constructor.
  - constructor; [by constructor|]. constructor; [done|].
    eapply Forall_impl; [exact Hall|]. intros k''. by apply key_lt_trans.
  - pose proof (map_assign_elem k v m) as Hel.
    destruct (map_assign k v m) as [r old]; simpl in *.
    constructor; [by apply IH|].
    apply Forall_forall. intros k'' [[k3 v3] [-> Hin]]%list_elem_of_fmap.
    destruct (Hel _ Hin) as [[= -> ->]|Hin']; [done|].
    rewrite Forall_forall in Hall. apply Hall.
    apply list_elem_of_fmap. by exists (k3, v3).
Qed.

(** Assigning a key above all the keys present appends the entry. *)
Lemma map_assign_above k v m :
  Forall (λ k', key_lt k' k) m.*1 → map_assign k v m = (m ++ [(k, v)], None).
Proof.
  induction m as [|[k' v'] m IH]; simpl; intros Hall; [done|].
  inversion_clear Hall as [|? ? Hk Hm].
  destruct (key_compare_spec k k') as [->|Hlt|Hgt].
  - by destruct (key_lt_irrefl k').
  - destruct (key_lt_irrefl k). by eapply key_lt_trans.
  - by rewrite IH.
Qed.

Lemma keys_sorted_NoDup m : keys_sorted m → NoDup m.*1.
Proof.
  unfold keys_sorted. induction 1 as [|k l Hl IH Hall]; constructor; [|done].
  intros Hin. rewrite Forall_forall in Hall.
  by destruct (key_lt_irrefl k); apply Hall.
Qed.

(** ** Vocabulary of the statements *)

(** [p] points to a live [File] object. *)
Definition valid (s : State) (p : positive) : Prop := is_Some (heap s !! p).

(** [f->isModified()], [false] for a pointer that is not live. *)
Definition isModified (s : State) (f : positive) : bool :=
  match heap s !! f with
  | Some F => File_modified F
  | None => false
  end.

(** The staged files a commit selects: the set D of the specification, in
    the order of the staging vector. *)
Definition dirty_files (s : State) : list positive :=
  filter (λ f, isModified s f) (stagedFiles s).

(** The effect of [clearModified] on an object. *)
Definition File_committed (F : File) : File :=
  mkFile (File_name F) (File_stagedContent F) (File_stagedContent F) false.

(** The two writes [commit] makes for one file: the archive copy and the
    canonical location. *)
Definition commit_ops1 (commitPath : string) (F : File) : list FsOp :=
  [Write (commitPath +:+ "/" +:+ File_name F) (File_stagedContent F);
   Write (File_name F) (File_stagedContent F)].

Definition commit_ops (commitPath : string) (h : gmap positive File)
    (D : list positive) : list FsOp :=
  f ← D; from_option (commit_ops1 commitPath) [] (h !! f).

(** The file system after the writes of a trace. *)
Definition replay (d : FS) (ops : list FsOp) : FS :=
  foldl (λ d op, match op with
                 | Write path data => fs_write path data d
                 | MkDir _ => d
                 end) d ops.

(** The names of the files behind a list of pointers. *)
Definition names_of (s : State) (l : list positive) : list string :=
  omap (λ f, File_name <$> heap s !! f) l.

(** The fields of the repository and of the controller that are not the
    object store. *)
Definition same_repo (s s' : State) : Prop :=
  commits s' = commits s ∧ stagedFiles s' = stagedFiles s ∧
  nextCommitId s' = nextCommitId s ∧ workingFiles s' = workingFiles s.

Lemma valid_with_heap_insert s p q F :
  valid s p → valid (with_heap (<[q := F]> (heap s)) s) p.
Proof.
  unfold valid; simpl. intros H.
  destruct (decide (q = p)) as [->|Hne].
  - rewrite lookup_insert_eq. eauto.
  - by rewrite lookup_insert_ne.
Qed.

Lemma option_bind_Some {A B} (f : A → option B) (x : A) : Some x ≫= f = f x.
Proof. done. Qed.

(** ** The loops of [commit] *)

Lemma commit_select_Some l s :
  Forall (valid s) l →
  commit_select l s = Some (filter (λ f, isModified s f) l).
Proof.
  induction 1 as [|f l [F HF] _ IH]; simpl; [done|].
  assert (Hm : isModified s f = File_modified F)
    by (unfold isModified; by rewrite HF).
  rewrite HF; simpl. rewrite IH; simpl. rewrite filter_cons, Hm.
  destruct (File_modified F); by case_decide.
Qed.

Lemma commit_select_inv l s D :
  commit_select l s = Some D →
  Forall (valid s) l ∧ D = filter (λ f, isModified s f) l.
Proof.
  revert D. induction l as [|f l IH]; simpl; intros D H.
  { by injection H as <-. }
  destruct (heap s !! f) as [F|] eqn:HF; simpl in H; [|done].
  destruct (commit_select l s) as [r|]; simpl in H; [|done].
  destruct (IH r eq_refl) as [Hl Hr].
  assert (Hv : Forall (valid s) (f :: l)) by (constructor; [by exists F|done]).
  split; [done|].
  pose proof (commit_select_Some _ _ Hv) as Hs. simpl in Hs.
  rewrite HF in Hs; simpl in Hs. rewrite (commit_select_Some _ _ Hl) in Hs.
  simpl in Hs. subst r. congruence.
Qed.

Lemma commit_ops_cons path h f D :
  commit_ops path h (f :: D) =
  from_option (commit_ops1 path) [] (h !! f) ++ commit_ops path h D.
Proof. done. Qed.

Lemma commit_ops_committed path h f F D :
  h !! f = Some F →
  commit_ops path (<[f := File_committed F]> h) D = commit_ops path h D.
Proof.
  intros HF. unfold commit_ops. induction D as [|g D IH]; [done|].
  rewrite !bind_cons, IH. f_equal.
  destruct (decide (f = g)) as [->|Hne].
  - by rewrite lookup_insert_eq, HF.
  - by rewrite lookup_insert_ne.
Qed.

(** The second loop: every selected file gets [clearModified], nothing else
    in the store changes, and the writes are made file after file in the
    order of the list. *)
Lemma commit_write_spec path D : ∀ s,
  Forall (valid s) D →
  ∃ s', commit_write path D s = Some s' ∧
    (∀ p, heap s' !! p =
          if decide (p ∈ D) then File_committed <$> heap s !! p
          else heap s !! p) ∧
    fsops s' = fsops s ++ commit_ops path (heap s) D ∧
    disk s' = replay (disk s) (commit_ops path (heap s) D) ∧
    cout s' = cout s ∧ same_repo s s'.
Proof.
  induction D as [|f D IH]; intros s Hv.
  - exists s. simpl. split; [done|]. split.
    + done.
    + by rewrite app_nil_r.
  - inversion_clear Hv as [|? ? [F HF] HD]. simpl. rewrite HF; simpl.
    unfold File_clearModified, File_saveToDisk; simpl. rewrite HF; simpl.
    rewrite lookup_insert_eq; simpl.
    match goal with |- ∃ s', commit_write _ _ ?s3 = _ ∧ _ =>
      destruct (IH s3) as (s' & Hs' & Hheap & Hops & Hdisk & Hcout & Hrepo) end.
    { eapply Forall_impl; [exact HD|]. intros p Hp.
      by apply (valid_with_heap_insert s). }
    simpl in Hops, Hdisk.
    change (mkFile _ _ _ _) with (File_committed F) in Hops, Hdisk.
    rewrite (commit_ops_committed _ _ _ _ _ HF) in Hops, Hdisk.
    exists s'. split; [done|]. simpl in *. split; [|split; [|done]].
    + intros p. rewrite Hheap.
      destruct (decide (p = f)) as [->|Hne].
      * rewrite lookup_insert_eq, HF.
        rewrite (decide_True (P := f ∈ f :: D)) by left.
        by case_decide.
      * rewrite lookup_insert_ne by done.
        destruct (decide (p ∈ D)) as [Hin|Hnin].
        -- rewrite (decide_True (P := p ∈ f :: D)); [done|by right].
        -- rewrite (decide_False (P := p ∈ f :: D)); [done|].
           rewrite elem_of_cons. tauto.
    + rewrite Hops. by rewrite <- !app_assoc.
Qed.

(** ** The constructor of [Commit] *)

(** The entry [e] of a commit under construction holds a clone of one of
    the files [src]: an object that did not exist in the store [h0] the
    construction started from, equal to the file it was cloned from. *)
Definition clone_of (h0 : gmap positive File) (src : list positive)
    (s : State) (e : string * positive) : Prop :=
  h0 !! e.2 = None ∧
  ∃ f F, f ∈ src ∧ h0 !! f = Some F ∧ File_name F = e.1 ∧
         heap s !! e.2 = Some F.

Lemma fresh_lookup_None (h : gmap positive File) : h !! fresh (dom h) = None.
Proof. apply not_elem_of_dom, is_fresh. Qed.

Lemma subseteq_lookup_None (h0 h : gmap positive File) p :
  h0 ⊆ h → h !! p = None → h0 !! p = None.
Proof.
  intros Hsub Hp. destruct (h0 !! p) as [F|] eqn:HF; [|done].
  eapply lookup_weaken in HF; [|exact Hsub]. congruence.
Qed.

Lemma clone_of_insert h0 src s q G e :
  heap s !! q = None →
  clone_of h0 src s e →
  clone_of h0 src (with_heap (<[q := G]> (heap s)) s) e.
Proof.
  intros Hq (H0 & f & F & Hf & HF & Hn & He). split; [done|].
  exists f, F. repeat split; try done. simpl.
  rewrite lookup_insert_ne; [done|]. congruence.
Qed.

Lemma clone_of_delete h0 src s q e :
  e.2 ≠ q →
  clone_of h0 src s e →
  clone_of h0 src (delete_File q s) e.
Proof.
  intros Hq (H0 & f & F & Hf & HF & Hn & He). split; [done|].
  exists f, F. repeat split; try done. simpl.
  by rewrite lookup_delete_ne.
Qed.

Lemma Commit_fill_spec h0 src staged : ∀ files s,
  Forall (λ f, f ∈ src ∧ is_Some (h0 !! f)) staged →
  h0 ⊆ heap s →
  NoDup files.*2 →
  Forall (clone_of h0 src s) files →
  keys_sorted files →
  ∃ files' s', Commit_fill staged files s = Some (files', s') ∧
    h0 ⊆ heap s' ∧ NoDup files'.*2 ∧ Forall (clone_of h0 src s') files' ∧
    keys_sorted files' ∧ s' = with_heap (heap s') s.
Proof.
  induction staged as [|f staged IH]; intros files s Hst Hsub Hnd Hfiles Hks.
  { exists files, s. by destruct s. }
  inversion_clear Hst as [|? ? [Hsrc [F HF]] Hst'].
  assert (HFs : heap s !! f = Some F) by (eapply lookup_weaken; eauto).
  simpl. unfold File_clone. rewrite HFs; simpl.
  set (q := fresh (dom (heap s))).
  assert (Hq : heap s !! q = None) by apply fresh_lookup_None.
  assert (Hq0 : h0 !! q = None) by (by eapply subseteq_lookup_None).
  set (s1 := with_heap (<[q := F]> (heap s)) s).
  assert (Hqfiles : q ∉ files.*2).
  { intros [[k p] [-> Hin]]%list_elem_of_fmap. rewrite Forall_forall in Hfiles.
    destruct (Hfiles _ Hin) as (_ & ? & ? & _ & _ & _ & He). simpl in *.
    congruence. }
  assert (Hnew : clone_of h0 src s1 (File_name F, q)).
  { split; [done|]. exists f, F. repeat split; try done. simpl.
    apply lookup_insert_eq. }
  assert (Hold : Forall (clone_of h0 src s1) files).
  { eapply Forall_impl; [exact Hfiles|]. intros e. by apply clone_of_insert. }
  pose proof (map_assign_perm (File_name F) q files) as Hperm.
  pose proof (map_assign_sorted (File_name F) q files Hks) as Hks'.
  destruct (map_assign (File_name F) q files) as [files' [q0|]]; simpl in *.
  - destruct Hperm as (m0 & Hm & Hr).
    rewrite Hm in Hnd, Hqfiles, Hold. simpl in *.
    apply NoDup_cons in Hnd as [Hq0m Hndm].
    apply Forall_cons in Hold as [Hq0c Holdm].
    assert (q0 ≠ q) by (rewrite elem_of_cons in Hqfiles; naive_solver).
    destruct (IH files' (delete_File q0 s1)) as (fs & s' & Hfill & ? & ? & ? & ? & Hs');
      try done.
    + destruct Hq0c as [Hq0n _]. simpl in *.
      apply map_subseteq_spec. intros p G HG. rewrite lookup_delete_ne by congruence.
      rewrite lookup_insert_ne by congruence. by eapply lookup_weaken.
    + rewrite Hr. simpl. apply NoDup_cons. split; [|done].
      rewrite elem_of_cons in Hqfiles. tauto.
    + rewrite Hr. apply Forall_cons. split.
      * apply clone_of_delete; [simpl; congruence|done].
      * apply Forall_forall. intros e He. apply clone_of_delete.
        -- intros <-. apply Hq0m. apply list_elem_of_fmap. eauto.
        -- rewrite Forall_forall in Holdm. by apply Holdm.
    + by exists fs, s'.
  - destruct (IH files' s1) as (fs & s' & Hfill & ? & ? & ? & ? & Hs'); try done.
    + apply map_subseteq_spec. intros p G HG. simpl.
      rewrite lookup_insert_ne by congruence. by eapply lookup_weaken.
    + rewrite Hperm. simpl. by apply NoDup_cons.
    + rewrite Hperm. by apply Forall_cons.
    + by exists fs, s'.
Qed.

(** ** [getSnapshot] and the loops of [checkout] *)

Lemma Forall2_impl_l {A B} (P : A → Prop) (R R' : A → B → Prop) l k :
  Forall P l → Forall2 R l k → (∀ x y, P x → R x y → R' x y) →
  Forall2 R' l k.
Proof.
  intros HP HR Himpl. induction HR as [|x y l k Hxy _ IH]; [constructor|].
  inversion_clear HP. constructor; auto.
Qed.

(** On a commit's key-ordered map, [getSnapshot] builds a map with the same
    keys in the same order; its values [qs] are new objects, pairwise
    distinct, each equal to the object it was cloned from. *)
Lemma Commit_cloneFiles_spec files : ∀ snapshot s,
  keys_sorted (snapshot ++ files) →
  Forall (λ e, valid s e.2) files →
  ∃ qs s',
    Commit_cloneFiles files snapshot s
      = Some (snapshot ++ zip files.*1 qs, s') ∧
    length qs = length files ∧
    heap s ⊆ heap s' ∧
    Forall (λ q, heap s !! q = None) qs ∧
    NoDup qs ∧
    Forall2 (λ e q, heap s' !! q = heap s !! e.2) files qs ∧
    s' = with_heap (heap s') s.
Proof.
  induction files as [|[k p] files IH]; intros snapshot s Hks Hv.
  { exists [], s. simpl. rewrite app_nil_r. repeat split; try done.
    - constructor.
    - by destruct s. }
  inversion_clear Hv as [|? ? [F HF] Hv']. simpl in HF.
  simpl. unfold File_clone. rewrite HF; simpl.
  set (q := fresh (dom (heap s))).
  assert (Hq : heap s !! q = None) by apply fresh_lookup_None.
  set (s1 := with_heap (<[q := F]> (heap s)) s).
  assert (Hsub1 : heap s ⊆ heap s1) by (by apply insert_subseteq).
  rewrite map_assign_above; simpl.
  2:{ unfold keys_sorted in Hks. rewrite fmap_app in Hks. simpl in Hks.
      apply Forall_forall. intros k' Hk'.
      eapply StronglySorted_app_1_elem_of; [exact Hks|done|left]. }
  destruct (IH (snapshot ++ [(k, q)]) s1) as
    (qs & s' & Hcl & Hlen & Hsub & Hnone & Hnd & Hall & Hs').
  { unfold keys_sorted in *. by rewrite !fmap_app, <- app_assoc in *. }
  { eapply Forall_impl; [exact Hv'|]. intros e. apply valid_with_heap_insert. }
  exists (q :: qs), s'. rewrite Hcl, <- app_assoc. simpl.
  split; [done|]. split; [by rewrite Hlen|]. split; [by etrans|].
  split; [|split; [|split]].
  - constructor; [done|]. eapply Forall_impl; [exact Hnone|].
    intros q'. by apply subseteq_lookup_None.
  - constructor; [|done]. rewrite Forall_forall in Hnone.
    intros Hin%Hnone. simpl in Hin. by rewrite lookup_insert_eq in Hin.
  - constructor.
    + simpl. rewrite HF. eapply lookup_weaken; [|exact Hsub]. simpl.
      apply lookup_insert_eq.
    + eapply Forall2_impl_l; [exact Hv'|exact Hall|].
      intros e q' [G HG] ->; simpl. apply lookup_insert_ne. congruence.
  - done.
Qed.

(** The writes [checkout] makes for the restored files. *)
Definition restore_ops (h : gmap positive File) (l : list positive)
  : list FsOp :=
  p ← l; from_option (λ F, [Write (File_name F) (File_content F)]) [] (h !! p).

Lemma checkout_restore_spec snapshot : ∀ s,
  Forall (λ e, valid s e.2) snapshot →
  ∃ s', checkout_restore snapshot s = Some s' ∧
    heap s' = heap s ∧
    workingFiles s' = workingFiles s ++ snapshot.*2 ∧
    fsops s' = fsops s ++ restore_ops (heap s) snapshot.*2 ∧
    disk s' = replay (disk s) (restore_ops (heap s) snapshot.*2) ∧
    cout s' = cout s ∧ commits s' = commits s ∧
    stagedFiles s' = stagedFiles s ∧ nextCommitId s' = nextCommitId s.
Proof.
  induction snapshot as [|[k p] snapshot IH]; intros s Hv.
  { exists s. simpl. by rewrite !app_nil_r. }
  inversion_clear Hv as [|? ? [F HF] Hv']. simpl in HF.
  simpl. rewrite HF; simpl.
  match goal with |- ∃ s', checkout_restore _ ?s1 = _ ∧ _ =>
    destruct (IH s1) as (s' & Hs' & Hh & Hw & Hops & Hdisk & ? & ? & ? & ?) end.
  { done. }
  exists s'. simpl in *. rewrite Hw, Hops, Hdisk, <- !app_assoc.
  by repeat split.
Qed.

(** ** [Repository::commit] *)

(** The third loop removes exactly the selected files. *)
Lemma commit_unstage_filter D : ∀ l,
  commit_unstage D l = filter (λ f, f ∉ D) l.
Proof.
  unfold commit_unstage.
  induction D as [|g D IH]; intros l; simpl.
  - induction l as [|x l IHl]; [done|].
    rewrite filter_cons_True by apply not_elem_of_nil. by f_equal.
  - rewrite IH. unfold vector_remove. rewrite list_filter_filter.
    apply list_filter_iff. intros x. rewrite not_elem_of_cons. tauto.
Qed.

Definition commit_done : string :=
  "Commit done! Changes saved to .vcs and original files updated." +:+ endl.

Definition nothing_to_commit : string :=
  "No edited files to commit! Edit files first." +:+ endl.

Definition commit_path (i : Z) : string := ".vcs/commit_" +:+ pretty i.

(** No-op outcome: with no modified staged file only the message is
    printed. *)
Lemma Repository_commit_noop msg now s :
  Forall (valid s) (stagedFiles s) →
  dirty_files s = [] →
  Repository_commit msg now s = Some (print nothing_to_commit s).
Proof.
  intros Hv HD. unfold Repository_commit.
  rewrite (commit_select_Some _ _ Hv). fold (dirty_files s). by rewrite HD.
Qed.

(** A commit that returns has dereferenced only live pointers. *)
Lemma Repository_commit_valid msg now s s' :
  Repository_commit msg now s = Some s' → Forall (valid s) (stagedFiles s).
Proof.
  unfold Repository_commit. intros H.
  destruct (commit_select (stagedFiles s) s) as [D|] eqn:HD; [|done].
  by apply commit_select_inv in HD as [? _].
Qed.

(** What [create_directory] leaves when it returns. *)
Lemma create_directory_spec path s s1 :
  create_directory path s = Some s1 →
  fs_create_directory path (disk s) = Some (disk s1) ∧
  heap s1 = heap s ∧ fsops s1 = fsops s ++ [MkDir path] ∧
  cout s1 = cout s ∧ same_repo s s1.
Proof.
  unfold create_directory. intros H.
  destruct (fs_create_directory path (disk s)) as [d|]; [|done].
  simpl in H. injection H as <-. by repeat split.
Qed.

(** Successful commit; [sm] is the state after the directory of the commit
    has been created. *)
Lemma Repository_commit_spec msg now s sm :
  Forall (valid s) (stagedFiles s) →
  dirty_files s ≠ [] →
  nextCommitId s < INT_MAX →
  create_directory (commit_path (nextCommitId s)) s = Some sm →
  ∃ c s', Repository_commit msg now s = Some s' ∧
    commits s' = commits s ++ [c] ∧
    Commit_id c = nextCommitId s ∧
    Commit_message c = msg ∧
    Commit_timestamp c = pop_back_newline now ∧
    nextCommitId s' = nextCommitId s + 1 ∧
    stagedFiles s' = filter (λ f, f ∉ dirty_files s) (stagedFiles s) ∧
    workingFiles s' = workingFiles s ∧
    (∀ p, valid s p →
          heap s' !! p = if decide (p ∈ dirty_files s)
                         then File_committed <$> heap s !! p
                         else heap s !! p) ∧
    keys_sorted (Commit_files c) ∧
    NoDup (Commit_files c).*2 ∧
    Forall (λ e, heap s !! e.2 = None ∧
                 ∃ f F, f ∈ dirty_files s ∧ heap s !! f = Some F ∧
                        File_name F = e.1 ∧
                        heap s' !! e.2 = Some (File_committed F))
           (Commit_files c) ∧
    fsops s' = fsops s ++ MkDir (commit_path (nextCommitId s))
                 :: commit_ops (commit_path (nextCommitId s)) (heap s)
                      (dirty_files s) ∧
    disk s' = replay (disk sm)
                (commit_ops (commit_path (nextCommitId s)) (heap s)
                   (dirty_files s)) ∧
    cout s' = cout s ++ [commit_done].
Proof.
  intros Hv HD Hnext Hmk. unfold Repository_commit.
  rewrite (commit_select_Some _ _ Hv). fold (dirty_files s).
  rewrite option_bind_Some.
  destruct (dirty_files s) as [|f0 D0] eqn:HDeq; [done|].
  cbv beta match. rewrite <- HDeq. clear HD. set (D := dirty_files s) in *.
  assert (HvD : Forall (valid s) D).
  { apply Forall_forall. intros f Hf. rewrite Forall_forall in Hv.
    apply Hv. unfold D, dirty_files in Hf.
    by apply list_elem_of_filter in Hf as [_ ?]. }
  fold (commit_path (nextCommitId s)). rewrite Hmk, option_bind_Some.
  destruct (create_directory_spec _ _ _ Hmk)
    as (_ & Hh1 & Hops1 & Hcout1 & Hc1 & Hst1 & Hn1 & Hwf1).
  destruct (commit_write_spec (commit_path (nextCommitId s)) D sm)
    as (s2 & Hw & Hheap2 & Hops2 & Hdisk2 & Hcout2 & Hc2 & Hst2 & Hn2 & Hwf2).
  { eapply Forall_impl; [exact HvD|]. intros p. unfold valid. by rewrite Hh1. }
  rewrite Hh1 in Hheap2, Hops2, Hdisk2. rewrite Hops1 in Hops2.
  rewrite Hcout1 in Hcout2. rewrite Hc1 in Hc2. rewrite Hst1 in Hst2.
  rewrite Hn1 in Hn2. rewrite Hwf1 in Hwf2.
  rewrite Hw; simpl. rewrite Hn2.
  rewrite decide_True by done.
  unfold Commit_ctor.
  destruct (Commit_fill_spec (heap s2) D D []
              (with_nextCommitId (nextCommitId s + 1) s2))
    as (files & s3 & Hfill & Hsub & Hnd & Hcl & Hks & Hs3);
    [| done | constructor | constructor | constructor |].
  { apply Forall_forall. intros f Hf. split; [done|].
    rewrite Hheap2, decide_True by done. rewrite Forall_forall in HvD.
    destruct (HvD f Hf) as [F ->]. by eexists. }
  rewrite Hfill; simpl. rewrite Hs3; simpl.
  eexists _, _. split; [reflexivity|]. simpl.
  rewrite Hc2, Hst2, Hwf2, Hops2, Hdisk2, Hcout2, commit_unstage_filter.
  repeat split; try done.
  - intros p [F HF]. specialize (Hheap2 p). rewrite HF in Hheap2 |- *.
    case_decide; simpl in *;
      (eapply lookup_weaken; [exact Hheap2|exact Hsub]).
  - apply Forall_forall. intros e He. rewrite Forall_forall in Hcl.
    destruct (Hcl e He) as (Hnone & f & F' & Hf & HF' & Hname & Hclone).
    rewrite Hheap2 in Hnone, HF'. rewrite decide_True in HF' by done.
    split.
    + destruct (heap s !! e.2); [by case_decide|done].
    + destruct (heap s !! f) as [F|] eqn:HF; [|done].
      injection HF' as <-. exists f, F. rewrite Hs3 in Hclone. by simpl in *.
  - by rewrite <- app_assoc.
Qed.

(** ** [Repository::checkout] *)

Definition not_found : string := "Commit ID not found!" +:+ endl.

Definition checked_out (commitId : Z) : string :=
  "Checked out commit " +:+ pretty commitId +:+ ", files restored on disk."
  +:+ endl.

Lemma checkout_find_not_found cs commitId s :
  commitId ∉ Commit_id <$> cs →
  checkout_find cs commitId s = Some (print not_found s).
Proof.
  induction cs as [|c cs IH]; simpl; intros Hnin; [done|].
  apply not_elem_of_cons in Hnin as [Hne Hnin].
  rewrite decide_False by done. by apply IH.
Qed.

(** Checkout of the first commit carrying the id: the working set becomes
    the list [qs] of new objects, one per entry of the commit and in the
    order of its keys, each equal to the stored clone. *)
Lemma checkout_find_spec cs1 c cs2 s :
  Commit_id c ∉ Commit_id <$> cs1 →
  keys_sorted (Commit_files c) →
  Forall (λ e, valid s e.2) (Commit_files c) →
  ∃ qs s', checkout_find (cs1 ++ c :: cs2) (Commit_id c) s = Some s' ∧
    workingFiles s' = qs ∧
    heap s ⊆ heap s' ∧
    Forall (λ q, heap s !! q = None) qs ∧
    NoDup qs ∧
    Forall2 (λ e q, heap s' !! q = heap s !! e.2) (Commit_files c) qs ∧
    commits s' = commits s ∧ stagedFiles s' = stagedFiles s ∧
    nextCommitId s' = nextCommitId s ∧
    fsops s' = fsops s ++ restore_ops (heap s') qs ∧
    disk s' = replay (disk s) (restore_ops (heap s') qs) ∧
    cout s' = cout s ++ [checked_out (Commit_id c)].
Proof.
  intros Hnin Hks Hv. induction cs1 as [|c1 cs1 IH]; simpl.
  - rewrite decide_True by done. unfold Commit_getSnapshot.
    destruct (Commit_cloneFiles_spec (Commit_files c) [] s Hks Hv)
      as (qs & s1 & Hcl & Hlen & Hsub & Hnone & Hnd & Hall & Hs1).
    rewrite Hcl; simpl.
    assert (Hsnd : (zip (Commit_files c).*1 qs).*2 = qs).
    { apply snd_zip. rewrite length_fmap. lia. }
    destruct (checkout_restore_spec (zip (Commit_files c).*1 qs)
                (with_workingFiles [] s1))
      as (s2 & Hre & Hh & Hw & Hops & Hdisk & Hcout & Hc & Hst & Hn).
    { apply Forall_forall. intros [k q] Hin. simpl.
      assert (Hq : q ∈ qs).
      { rewrite <- Hsnd. apply list_elem_of_fmap. by exists (k, q). }
      apply list_elem_of_lookup in Hq as [i Hi].
      destruct (Forall2_lookup_r _ _ _ _ _ Hall Hi) as (e & He & Heq).
      unfold valid; simpl. rewrite Heq.
      rewrite Forall_forall in Hv. apply Hv. by eapply list_elem_of_lookup_2. }
    rewrite Hre; simpl. eexists qs, _. split; [reflexivity|].
    simpl in Hh, Hw, Hops, Hdisk, Hcout, Hc, Hst, Hn.
    rewrite Hsnd in Hw, Hops, Hdisk. simpl.
    rewrite Hh, Hw, Hops, Hdisk, Hcout, Hc, Hst, Hn, Hs1. simpl.
    by repeat split.
  - apply not_elem_of_cons in Hnin as [Hne Hnin].
    rewrite decide_False by congruence. by apply IH.
Qed.

(** ** The invariant of the reachable states *)

(** A clone stored in a commit: no working or staged pointer refers to it,
    it carries the name it is filed under, and it is a committed object
    ([modified] cleared, [content] equal to [stagedContent]). *)
Definition snapshot_ok (s : State) (e : string * positive) : Prop :=
  (e.2 ∉ stagedFiles s) ∧ (e.2 ∉ workingFiles s) ∧
  ∃ F, heap s !! e.2 = Some F ∧ File_name F = e.1 ∧
       File_modified F = false ∧ File_content F = File_stagedContent F.

Definition commit_ok (s : State) (c : Commit) : Prop :=
  keys_sorted (Commit_files c) ∧ Forall (snapshot_ok s) (Commit_files c).

Record Inv (s : State) : Prop := mkInv {
  inv_staged : Forall (valid s) (stagedFiles s);
  inv_working : Forall (valid s) (workingFiles s);
  inv_staged_NoDup : NoDup (stagedFiles s);
  inv_working_NoDup : NoDup (workingFiles s);
  inv_ids : Commit_id <$> commits s = Z.of_nat <$> seq 1 (length (commits s));
  inv_next : nextCommitId s = Z.of_nat (length (commits s)) + 1;
  inv_next_max : nextCommitId s ≤ INT_MAX;
  inv_commits : Forall (commit_ok s) (commits s)
}.

(** What a step may do to the rest of the program: the history only grows
    at its end, and a live object that neither the working set nor the
    staging vector refers to is left as it is and stays unreferenced. *)
Definition extends (s s' : State) : Prop :=
  commits s `prefix_of` commits s' ∧
  ∀ p, valid s p → p ∉ stagedFiles s → p ∉ workingFiles s →
       heap s' !! p = heap s !! p ∧
       (p ∉ stagedFiles s') ∧ (p ∉ workingFiles s').

Lemma extends_refl s : extends s s.
Proof. split; [done|]. by intros p _ ? ?. Qed.

Lemma extends_trans s1 s2 s3 : extends s1 s2 → extends s2 s3 → extends s1 s3.
Proof.
  intros [Hp1 H1] [Hp2 H2]. split; [by etrans|].
  intros p Hv Hs Hw. destruct (H1 p Hv Hs Hw) as (Hh & Hs' & Hw').
  destruct (H2 p) as (Hh2 & ? & ?); try done.
  - unfold valid. by rewrite Hh.
  - by rewrite Hh2, Hh.
Qed.

(** A pointer is a root of [s'] it may be: live, and if it was live before
    the step it was a root already. *)
Definition root_ok (s s' : State) (f : positive) : Prop :=
  valid s' f ∧ (valid s f → f ∈ stagedFiles s ∨ f ∈ workingFiles s).

Lemma snapshot_ok_step s s' e :
  snapshot_ok s e →
  (∀ p, valid s p → p ∉ stagedFiles s → p ∉ workingFiles s →
        heap s' !! p = heap s !! p) →
  Forall (root_ok s s') (stagedFiles s' ++ workingFiles s') →
  snapshot_ok s' e.
Proof.
  intros (Hs & Hw & F & HF & Hrest) Hframe Hroots.
  assert (Hv : valid s (e.2)) by (by exists F).
  rewrite Forall_app, !Forall_forall in Hroots. destruct Hroots as [Hrs Hrw].
  split; [|split].
  - intros [_ Hr]%Hrs. destruct (Hr Hv); done.
  - intros [_ Hr]%Hrw. destruct (Hr Hv); done.
  - exists F. by rewrite Hframe.
Qed.

(** The general shape of a step: commits [cs] are appended, unreferenced
    objects are kept, and the roots are old roots or new objects. *)
Lemma Inv_update s s' cs :
  Inv s →
  commits s' = commits s ++ cs →
  Commit_id <$> cs = Z.of_nat <$> seq (S (length (commits s))) (length cs) →
  nextCommitId s' = nextCommitId s + Z.of_nat (length cs) →
  nextCommitId s' ≤ INT_MAX →
  Forall (commit_ok s') cs →
  (∀ p, valid s p → p ∉ stagedFiles s → p ∉ workingFiles s →
        heap s' !! p = heap s !! p) →
  Forall (root_ok s s') (stagedFiles s' ++ workingFiles s') →
  NoDup (stagedFiles s') →
  NoDup (workingFiles s') →
  Inv s' ∧ extends s s'.
Proof.
  intros [] Hc Hids Hnext Hmax Hcs Hframe Hroots Hnd Hndw.
  pose proof Hroots as Hroots'.
  rewrite Forall_app in Hroots'. destruct Hroots' as [Hrs Hrw].
  split.
  - constructor; try done.
    + eapply Forall_impl; [exact Hrs|]. by intros f [? _].
    + eapply Forall_impl; [exact Hrw|]. by intros f [? _].
    + rewrite Hc, fmap_app, length_app, seq_app, fmap_app. simpl.
      by rewrite inv_ids0, Hids.
    + rewrite Hnext, Hc, length_app, inv_next0. lia.
    + rewrite Hc. apply Forall_app. split; [|done].
      eapply Forall_impl; [exact inv_commits0|]. intros c [Hk Hsn].
      split; [done|]. eapply Forall_impl; [exact Hsn|].
      intros e He. by eapply snapshot_ok_step.
  - split; [rewrite Hc; by apply prefix_app_r|].
    intros p Hv Hs Hw. split; [by apply Hframe|].
    rewrite !Forall_forall in Hrs, Hrw. split.
    + intros [_ Hr]%Hrs. destruct (Hr Hv); done.
    + intros [_ Hr]%Hrw. destruct (Hr Hv); done.
Qed.

Lemma Inv_init d s : Repository_init d = Some s → Inv s.
Proof.
  unfold Repository_init. intros H.
  destruct (fs_create_directory ".vcs" d) as [d1|]; [|done].
  simpl in H. injection H as <-.
  constructor; simpl; try done; try constructor.
Qed.

(** ** Staging and editing *)

(** [if (find(v.begin(), v.end(), f) == v.end()) v.push_back(f);] *)
Definition push_back_new (f : positive) (v : list positive) : list positive :=
  if decide (f ∈ v) then v else v ++ [f].

Lemma push_back_new_NoDup f v : NoDup v → NoDup (push_back_new f v).
Proof.
  unfold push_back_new. intros Hnd. case_decide; [done|].
  apply NoDup_app. repeat split; try done.
  - intros x Hx ->%list_elem_of_singleton. done.
  - apply NoDup_singleton.
Qed.

Lemma elem_of_push_back_new f v x :
  x ∈ push_back_new f v ↔ x ∈ v ∨ x = f.
Proof.
  unfold push_back_new. case_decide.
  - split; [tauto|]. intros [?| ->]; done.
  - rewrite elem_of_app, list_elem_of_singleton. tauto.
Qed.

Lemma Repository_addFile_spec f s :
  valid s f →
  ∃ s', Repository_addFile f s = Some s' ∧
    stagedFiles s' = push_back_new f (stagedFiles s) ∧
    heap s' = heap s ∧ workingFiles s' = workingFiles s ∧
    commits s' = commits s ∧ nextCommitId s' = nextCommitId s ∧
    disk s' = disk s ∧ fsops s' = fsops s.
Proof.
  intros [F HF]. unfold Repository_addFile, push_back_new.
  case_decide; [by exists s|].
  rewrite HF; simpl. by eexists.
Qed.

(** The effect of [updateContent] on an object. *)
Definition File_updated (c : string) (F : File) : File :=
  mkFile (File_name F) (File_content F) c true.

Lemma VCS_editFile_spec f c s F :
  heap s !! f = Some F →
  ∃ s', VCS_editFile f c s = Some s' ∧
    heap s' = <[f := File_updated c F]> (heap s) ∧
    stagedFiles s' = push_back_new f (stagedFiles s) ∧
    workingFiles s' = workingFiles s ∧
    commits s' = commits s ∧ nextCommitId s' = nextCommitId s ∧
    disk s' = disk s ∧ fsops s' = fsops s.
Proof.
  intros HF. unfold VCS_editFile, File_updateContent. rewrite HF; simpl.
  rewrite HF; simpl.
  match goal with |- ∃ s', Repository_addFile f ?s1 = _ ∧ _ =>
    destruct (Repository_addFile_spec f s1) as (s' & -> & Hst & Hh & ? & ? & ? & ? & ?)
  end.
  { unfold valid; simpl. rewrite lookup_insert_eq. eauto. }
  exists s'. by rewrite Hh, Hst.
Qed.

(** A step that writes at most the object [f], which is a root or a new
    object, and at most adds [f] to the staging vector and to the working
    set. *)
Lemma Inv_touch s s' f :
  Inv s →
  (valid s f → f ∈ stagedFiles s ∨ f ∈ workingFiles s) →
  valid s' f →
  (∀ p, p ≠ f → heap s' !! p = heap s !! p) →
  commits s' = commits s →
  nextCommitId s' = nextCommitId s →
  (stagedFiles s' = stagedFiles s ∨
   stagedFiles s' = push_back_new f (stagedFiles s)) →
  (workingFiles s' = workingFiles s ∨
   workingFiles s' = push_back_new f (workingFiles s)) →
  Inv s' ∧ extends s s'.
Proof.
  intros HI Hroot Hvf Hheap Hc Hn Hst Hwf.
  assert (Hmono : ∀ p, valid s p → valid s' p).
  { intros p Hp. destruct (decide (p = f)) as [->|Hne]; [done|].
    unfold valid. by rewrite Hheap. }
  assert (Hroots : ∀ x, x ∈ stagedFiles s' ++ workingFiles s' →
            x ∈ stagedFiles s ∨ x ∈ workingFiles s ∨ x = f).
  { intros x [Hx|Hx]%elem_of_app.
    - destruct Hst as [Hst|Hst]; rewrite Hst in Hx; [tauto|].
      apply elem_of_push_back_new in Hx. tauto.
    - destruct Hwf as [Hwf|Hwf]; rewrite Hwf in Hx; [tauto|].
      apply elem_of_push_back_new in Hx. tauto. }
  apply (Inv_update s s' []); try done.
  - by rewrite app_nil_r.
  - rewrite Hn. simpl. lia.
  - rewrite Hn. apply HI.
  - intros p Hv Hs Hw. apply Hheap. intros ->. destruct (Hroot Hv); done.
  - apply Forall_forall. intros x Hx.
    destruct (Hroots x Hx) as [Hx'|[Hx'| ->]].
    + split; [|tauto]. apply Hmono.
      pose proof (inv_staged s HI) as H. rewrite Forall_forall in H. by apply H.
    + split; [|tauto]. apply Hmono.
      pose proof (inv_working s HI) as H. rewrite Forall_forall in H. by apply H.
    + done.
  - destruct Hst as [->| ->]; [apply HI|apply push_back_new_NoDup, HI].
  - destruct Hwf as [->| ->]; [apply HI|apply push_back_new_NoDup, HI].
Qed.

Lemma push_back_new_idemp f v :
  push_back_new f (push_back_new f v) = push_back_new f v.
Proof.
  unfold push_back_new at 1. rewrite decide_True; [done|].
  apply elem_of_push_back_new. by right.
Qed.

(** The steps that only print. *)
Definition only_cout (s s' : State) : Prop :=
  heap s' = heap s ∧ disk s' = disk s ∧ fsops s' = fsops s ∧
  commits s' = commits s ∧ stagedFiles s' = stagedFiles s ∧
  nextCommitId s' = nextCommitId s ∧ workingFiles s' = workingFiles s.

Lemma only_cout_print msg s : only_cout s (print msg s).
Proof. by repeat split. Qed.

Lemma only_cout_trans s1 s2 s3 :
  only_cout s1 s2 → only_cout s2 s3 → only_cout s1 s3.
Proof.
  unfold only_cout. intros (?&?&?&?&?&?&?) (?&?&?&?&?&?&?).
  repeat split; congruence.
Qed.

Lemma only_cout_step s s' : Inv s → only_cout s s' → Inv s' ∧ extends s s'.
Proof.
  intros HI (Hh & _ & _ & Hc & Hst & Hn & Hwf).
  destruct (stagedFiles s ++ workingFiles s) as [|f l] eqn:Hroots.
  - apply app_eq_nil in Hroots as [Hs Hw].
    apply (Inv_update s s' []); rewrite ?Hst, ?Hwf, ?Hs, ?Hw, ?Hn, ?Hc, ?Hh;
      simpl; try done; try constructor.
    + by rewrite app_nil_r.
    + lia.
    + apply HI.
  - assert (Hf : f ∈ stagedFiles s ∨ f ∈ workingFiles s).
    { apply elem_of_app. rewrite Hroots. left. }
    apply (Inv_touch s s' f); auto.
    + unfold valid. rewrite Hh.
      destruct Hf as [Hf|Hf]; [pose proof (inv_staged s HI) as H
                              |pose proof (inv_working s HI) as H];
        rewrite Forall_forall in H; by apply H.
    + intros p _. by rewrite Hh.
Qed.

(** ** The branches of [runCommand] *)

Definition file_not_found : string :=
  "File not found in working directory!" +:+ endl.

Lemma edit_find_spec wf fname c s :
  Forall (valid s) wf →
  (∃ f F, f ∈ wf ∧ heap s !! f = Some F ∧ File_name F = fname ∧
          edit_find wf fname c s = VCS_editFile f c s) ∨
  ((fname ∉ names_of s wf) ∧
   edit_find wf fname c s = Some (print file_not_found s)).
Proof.
  induction 1 as [|f wf [F HF] _ IH]; simpl.
  { right. split; [apply not_elem_of_nil|done]. }
  rewrite HF; simpl. case_decide as Hn.
  - left. exists f, F. repeat split; try done. left.
  - destruct IH as [(g & G & Hg & HG & HGn & Hed)|[Hnin Hed]].
    + left. exists g, G. repeat split; try done. by right.
    + right. split; [|done]. unfold names_of. simpl.
      apply not_elem_of_cons. split; [congruence|done].
Qed.

Lemma step_edit fname c s s' :
  Inv s →
  edit_find (workingFiles s) fname c s = Some s' →
  Inv s' ∧ extends s s'.
Proof.
  intros HI Hed.
  destruct (edit_find_spec (workingFiles s) fname c s (inv_working s HI))
    as [(f & F & Hf & HF & _ & Heq)|[_ Heq]]; rewrite Heq in Hed.
  - destruct (VCS_editFile_spec f c s F HF)
      as (s'' & Hs'' & Hh & Hst & Hwf & Hc & Hn & _).
    rewrite Hs'' in Hed. injection Hed as ->.
    apply (Inv_touch s s' f); auto.
    + unfold valid. rewrite Hh, lookup_insert_eq. eauto.
    + intros p Hp. rewrite Hh. by apply lookup_insert_ne.
  - injection Hed as <-. apply only_cout_step; [done|apply only_cout_print].
Qed.

(** How the [add] branch obtains its file: [fs::exists] throws, or the
    branch returns early having only printed, or it holds a new object [G]
    called [fname], which [editFile] may already have staged. *)
Lemma add_obtain_spec fname ch1 ch2 c s :
  (fs_exists fname (disk s) = None ∧ add_obtain fname ch1 ch2 c s = None) ∨
  (∃ s', add_obtain fname ch1 ch2 c s = Some (None, s') ∧ only_cout s s') ∨
  (∃ s' G, let f := fresh (dom (heap s)) in
     add_obtain fname ch1 ch2 c s = Some (Some f, s') ∧
     heap s' = <[f := G]> (heap s) ∧ File_name G = fname ∧
     (stagedFiles s' = stagedFiles s ∨
      stagedFiles s' = push_back_new f (stagedFiles s)) ∧
     workingFiles s' = workingFiles s ∧
     commits s' = commits s ∧ nextCommitId s' = nextCommitId s).
Proof.
  unfold add_obtain, File_loadFromDisk.
  destruct (fs_exists fname (disk s)) as [[|]|]; simpl; [| |by left]; right.
  { right. eexists _, _. split; [reflexivity|]. simpl. by repeat split; auto. }
  destruct (is_yes ch1); [|left; eexists; split; [done|apply only_cout_print]].
  right. destruct (is_yes ch2); simpl.
  - match goal with |- context [VCS_editFile ?f c ?s1] =>
      destruct (VCS_editFile_spec f c s1 (File_ctor fname ""))
        as (s' & -> & Hh & Hst & Hwf & Hc & Hn & _) end.
    { simpl. apply lookup_insert_eq. }
    simpl in *. eexists _, _. split; [reflexivity|].
    rewrite Hh, insert_insert_eq. by repeat split; auto.
  - eexists _, _. split; [reflexivity|]. simpl. by repeat split; auto.
Qed.

(** The whole [add] branch on a state without dangling roots: when a file
    is obtained it is a new object, so neither membership test finds it
    and both vectors get one more entry. *)
Lemma VCS_add_spec fname ch1 ch2 c s :
  Forall (valid s) (stagedFiles s) →
  Forall (valid s) (workingFiles s) →
  (fs_exists fname (disk s) = None ∧
   VCS_runCommand (CmdAdd fname ch1 ch2 c) s = None) ∨
  (∃ s', VCS_runCommand (CmdAdd fname ch1 ch2 c) s = Some s' ∧
         only_cout s s') ∨
  (∃ s' G, let f := fresh (dom (heap s)) in
     VCS_runCommand (CmdAdd fname ch1 ch2 c) s = Some s' ∧
     heap s' = <[f := G]> (heap s) ∧ File_name G = fname ∧
     stagedFiles s' = stagedFiles s ++ [f] ∧
     workingFiles s' = workingFiles s ++ [f] ∧
     commits s' = commits s ∧ nextCommitId s' = nextCommitId s).
Proof.
  intros Hvs Hvw. simpl.
  assert (Hfresh : ∀ l, Forall (valid s) l → fresh (dom (heap s)) ∉ l).
  { intros l Hl Hin. rewrite Forall_forall in Hl.
    destruct (Hl _ Hin) as [F HF]. by rewrite fresh_lookup_None in HF. }
  destruct (add_obtain_spec fname ch1 ch2 c s)
    as [[Hthrow ->]|[(s1 & -> & Hoc)
                    |(s1 & G & -> & Hh & HG & Hst & Hwf & Hc & Hn)]]; simpl.
  { by left. }
  { right. left. by exists s1. }
  right. right. set (f := fresh (dom (heap s))) in *.
  rewrite Hwf. rewrite decide_False by by apply Hfresh.
  match goal with |- context [Repository_addFile f ?s2] =>
    destruct (Repository_addFile_spec f s2)
      as (s' & -> & Hst' & Hh' & Hwf' & Hc' & Hn' & _) end.
  { unfold valid; simpl. rewrite Hh, lookup_insert_eq. eauto. }
  simpl in *. exists s', G. split; [done|].
  rewrite Hh', Hst', Hwf', Hc', Hn'. repeat split; try done.
  assert (Hpush : push_back_new f (stagedFiles s) = stagedFiles s ++ [f]).
  { unfold push_back_new. rewrite decide_False; [done|by apply Hfresh]. }
  destruct Hst as [->| ->]; [done|]. by rewrite push_back_new_idemp.
Qed.

Lemma step_add fname ch1 ch2 c s s' :
  Inv s →
  VCS_runCommand (CmdAdd fname ch1 ch2 c) s = Some s' →
  Inv s' ∧ extends s s'.
Proof.
  intros HI Hrun.
  assert (Hfresh : ¬ valid s (fresh (dom (heap s)))).
  { intros [F HF]. by rewrite fresh_lookup_None in HF. }
  destruct (VCS_add_spec fname ch1 ch2 c s (inv_staged s HI) (inv_working s HI))
    as [[_ Hs1]|[(s1 & Hs1 & Hoc)
                |(s1 & G & Hs1 & Hh & HG & Hst & Hwf & Hc & Hn)]];
    rewrite Hs1 in Hrun; [done|injection Hrun as <-..].
  { by apply only_cout_step. }
  set (f := fresh (dom (heap s))) in *.
  assert (Hpush : ∀ l, Forall (valid s) l → push_back_new f l = l ++ [f]).
  { intros l Hl. unfold push_back_new. rewrite decide_False; [done|].
    intros Hin. rewrite Forall_forall in Hl. by apply Hfresh, Hl. }
  apply (Inv_touch s s1 f); auto.
  - done.
  - unfold valid. rewrite Hh, lookup_insert_eq. eauto.
  - intros p Hp. rewrite Hh. by apply lookup_insert_ne.
  - right. rewrite Hst. symmetry. apply Hpush, HI.
  - right. rewrite Hwf. symmetry. apply Hpush, HI.
Qed.

Lemma only_cout_valid s s' p : only_cout s s' → valid s p → valid s' p.
Proof. intros (Hh & _) Hv. unfold valid. by rewrite Hh. Qed.

Lemma Commit_showFiles_spec files : ∀ s,
  Forall (λ e, valid s e.2) files →
  ∃ s', Commit_showFiles files s = Some s' ∧ only_cout s s'.
Proof.
  induction files as [|[k p] files IH]; intros s Hv; simpl.
  { exists s. by repeat split. }
  inversion_clear Hv as [|? ? [F HF] Hv']. simpl in HF.
  unfold File_showContent. rewrite HF; simpl.
  match goal with |- ∃ s', Commit_showFiles _ ?s1 = _ ∧ _ =>
    destruct (IH s1) as (s' & Hs' & Hoc) end.
  { done. }
  exists s'. split; [done|]. eapply only_cout_trans; [|exact Hoc].
  apply only_cout_print.
Qed.

Lemma log_loop_spec cs : ∀ s,
  Forall (λ c, Forall (λ e, valid s e.2) (Commit_files c)) cs →
  ∃ s', log_loop cs s = Some s' ∧ only_cout s s'.
Proof.
  induction cs as [|c cs IH]; intros s Hv; simpl.
  { exists s. by repeat split. }
  inversion_clear Hv as [|? ? Hc Hcs]. unfold Commit_showDetails.
  match goal with |- context [Commit_showFiles _ ?s1] =>
    destruct (Commit_showFiles_spec (Commit_files c) s1) as (s2 & -> & Hoc2)
  end.
  { done. }
  simpl.
  match goal with |- ∃ s', log_loop _ ?s3 = _ ∧ _ =>
    destruct (IH s3) as (s' & Hs' & Hoc) end.
  { eapply Forall_impl; [exact Hcs|]. intros c'. simpl. intros Hc'.
    eapply Forall_impl; [exact Hc'|]. intros e. simpl.
    apply (only_cout_valid s). destruct Hoc2 as (?&?&?&?&?&?&?).
    by repeat split. }
  exists s'. split; [done|].
  eapply only_cout_trans; [|exact Hoc].
  eapply only_cout_trans; [|apply only_cout_print].
  eapply only_cout_trans; [|exact Hoc2]. apply only_cout_print.
Qed.

Lemma Inv_snapshots_valid s :
  Inv s → Forall (λ c, Forall (λ e, valid s e.2) (Commit_files c)) (commits s).
Proof.
  intros HI. eapply Forall_impl; [exact (inv_commits s HI)|].
  intros c [_ Hc]. eapply Forall_impl; [exact Hc|].
  intros e (_ & _ & F & HF & _). by exists F.
Qed.

Lemma Repository_log_spec s :
  Inv s → ∃ s', Repository_log s = Some s' ∧ only_cout s s'.
Proof.
  intros HI. unfold Repository_log.
  pose proof (Inv_snapshots_valid s HI) as Hv.
  destruct (log_loop_spec (commits s) s Hv) as (s' & Hs' & Hoc).
  destruct (commits s) as [|c cs]; [|by exists s'].
  eexists. split; [done|apply only_cout_print].
Qed.

(** In a reachable history the commit ids are pairwise distinct, so the
    lookup of [checkout] finds the commit itself. *)
Lemma Inv_ids_NoDup s : Inv s → NoDup (Commit_id <$> commits s).
Proof.
  intros HI. rewrite (inv_ids s HI).
  apply NoDup_fmap; [intros x y; lia|]. apply NoDup_seq.
Qed.

Lemma Inv_commit_split s c :
  Inv s → c ∈ commits s →
  ∃ cs1 cs2, commits s = cs1 ++ c :: cs2 ∧ Commit_id c ∉ Commit_id <$> cs1.
Proof.
  intros HI Hc. apply list_elem_of_split in Hc as (cs1 & cs2 & Hsplit).
  exists cs1, cs2. split; [done|].
  pose proof (Inv_ids_NoDup s HI) as Hnd.
  rewrite Hsplit, fmap_app in Hnd. simpl in Hnd.
  apply NoDup_app in Hnd as (_ & Hdisj & _).
  intros Hin. apply (Hdisj _ Hin). left.
Qed.

Lemma Repository_checkout_found s c :
  Inv s → c ∈ commits s →
  ∃ qs s', Repository_checkout (Commit_id c) s = Some s' ∧
    workingFiles s' = qs ∧
    heap s ⊆ heap s' ∧
    Forall (λ q, heap s !! q = None) qs ∧
    NoDup qs ∧
    Forall2 (λ e q, heap s' !! q = heap s !! e.2) (Commit_files c) qs ∧
    commits s' = commits s ∧ stagedFiles s' = stagedFiles s ∧
    nextCommitId s' = nextCommitId s ∧
    fsops s' = fsops s ++ restore_ops (heap s') qs ∧
    disk s' = replay (disk s) (restore_ops (heap s') qs) ∧
    cout s' = cout s ++ [checked_out (Commit_id c)].
Proof.
  intros HI Hc. unfold Repository_checkout.
  destruct (Inv_commit_split s c HI Hc) as (cs1 & cs2 & Hsplit & Hnin).
  pose proof (inv_commits s HI) as Hok. rewrite Forall_forall in Hok.
  destruct (Hok c Hc) as [Hks _].
  pose proof (Inv_snapshots_valid s HI) as Hv. rewrite Forall_forall in Hv.
  pose proof (checkout_find_spec cs1 c cs2 s Hnin Hks (Hv c Hc)) as Hspec.
  by rewrite <- Hsplit in Hspec.
Qed.

Lemma Repository_checkout_not_found commitId s :
  commitId ∉ Commit_id <$> commits s →
  Repository_checkout commitId s = Some (print not_found s).
Proof. apply checkout_find_not_found. Qed.

Lemma step_checkout commitId s s' :
  Inv s →
  Repository_checkout commitId s = Some s' →
  Inv s' ∧ extends s s'.
Proof.
  intros HI Hrun.
  destruct (decide (commitId ∈ Commit_id <$> commits s)) as [Hin|Hnin].
  2:{ rewrite Repository_checkout_not_found in Hrun by done.
      injection Hrun as <-. apply only_cout_step; [done|apply only_cout_print]. }
  apply list_elem_of_fmap in Hin as (c & -> & Hc).
  destruct (Repository_checkout_found s c HI Hc)
    as (qs & s'' & Hs'' & Hwf & Hsub & Hnone & Hnd & Hall & Hcs & Hst & Hn & _).
  rewrite Hs'' in Hrun. injection Hrun as ->.
  assert (Hmono : ∀ p, valid s p → heap s' !! p = heap s !! p).
  { intros p [F HF]. rewrite HF. by eapply lookup_weaken. }
  pose proof (Inv_snapshots_valid s HI) as Hv. rewrite Forall_forall in Hv.
  specialize (Hv c Hc). rewrite Forall_forall in Hv.
  apply (Inv_update s s' []); try done.
  - by rewrite app_nil_r.
  - rewrite Hn. simpl. lia.
  - rewrite Hn. apply HI.
  - intros p Hp _ _. by apply Hmono.
  - rewrite Hst, Hwf. apply Forall_app. split.
    + apply Forall_forall. intros f Hf. split; [|auto].
      pose proof (inv_staged s HI) as H. rewrite Forall_forall in H.
      unfold valid. rewrite Hmono; by apply H.
    + apply Forall_forall. intros q Hq. split.
      * apply list_elem_of_lookup in Hq as [i Hi].
        destruct (Forall2_lookup_r _ _ _ _ _ Hall Hi) as (e & He & Heq).
        unfold valid. rewrite Heq. apply Hv. by eapply list_elem_of_lookup_2.
      * rewrite Forall_forall in Hnone. intros [F HF].
        rewrite (Hnone q Hq) in HF. done.
  - rewrite Hst. apply HI.
  - by rewrite Hwf.
Qed.

(** With a modified staged file, [commit] does not return when
    [fs::create_directory] throws. *)
Lemma Repository_commit_throws msg now s :
  Forall (valid s) (stagedFiles s) →
  dirty_files s ≠ [] →
  create_directory (commit_path (nextCommitId s)) s = None →
  Repository_commit msg now s = None.
Proof.
  intros Hv HD Hmk. unfold Repository_commit.
  rewrite (commit_select_Some _ _ Hv). fold (dirty_files s).
  rewrite option_bind_Some.
  destruct (dirty_files s) as [|f0 D0] eqn:HDeq; [done|].
  cbv beta match. fold (commit_path (nextCommitId s)). by rewrite Hmk.
Qed.

(** With a modified staged file but the counter at [INT_MAX], the
    increment in [commit] is undefined. *)
Lemma Repository_commit_overflow msg now s :
  Forall (valid s) (stagedFiles s) →
  dirty_files s ≠ [] →
  ¬ nextCommitId s < INT_MAX →
  Repository_commit msg now s = None.
Proof.
  intros Hv HD Hnext.
  destruct (create_directory (commit_path (nextCommitId s)) s) as [sm|] eqn:Hmk.
  2:{ by apply Repository_commit_throws. }
  unfold Repository_commit.
  rewrite (commit_select_Some _ _ Hv). fold (dirty_files s).
  rewrite option_bind_Some.
  destruct (dirty_files s) as [|f0 D0] eqn:HDeq; [done|].
  cbv beta match. rewrite <- HDeq.
  fold (commit_path (nextCommitId s)). rewrite Hmk, option_bind_Some.
  destruct (create_directory_spec _ _ _ Hmk)
    as (_ & Hh1 & _ & _ & _ & _ & Hn1 & _).
  destruct (commit_write_spec (commit_path (nextCommitId s)) (dirty_files s) sm)
    as (s2 & Hw & _ & _ & _ & _ & _ & _ & Hn2 & _).
  { apply Forall_forall. intros f Hf. rewrite Forall_forall in Hv.
    unfold valid. rewrite Hh1. apply Hv. unfold dirty_files in Hf.
    by apply list_elem_of_filter in Hf as [_ ?]. }
  rewrite Hw; simpl. rewrite Hn2, Hn1. by rewrite decide_False.
Qed.

(** A commit that returns with a non-empty selection has dereferenced
    only live pointers, found room in the counter and made its
    directory. *)
Lemma Repository_commit_success msg now s s' :
  Repository_commit msg now s = Some s' → dirty_files s ≠ [] →
  Forall (valid s) (stagedFiles s) ∧ nextCommitId s < INT_MAX ∧
  ∃ sm, create_directory (commit_path (nextCommitId s)) s = Some sm.
Proof.
  intros Hrun HD. pose proof (Repository_commit_valid _ _ _ _ Hrun) as Hv.
  split; [done|]. split.
  - destruct (decide (nextCommitId s < INT_MAX)); [done|].
    by rewrite Repository_commit_overflow in Hrun.
  - destruct (create_directory (commit_path (nextCommitId s)) s) as [sm|] eqn:Hmk;
      [by exists sm|].
    by rewrite Repository_commit_throws in Hrun.
Qed.

Lemma Inv_valid_root s f :
  Inv s → f ∈ stagedFiles s ∨ f ∈ workingFiles s → valid s f.
Proof.
  intros HI [Hf|Hf];
    [pose proof (inv_staged s HI) as H|pose proof (inv_working s HI) as H];
    rewrite Forall_forall in H; by apply H.
Qed.

Lemma step_commit msg now s s' :
  Inv s →
  Repository_commit msg now s = Some s' →
  Inv s' ∧ extends s s'.
Proof.
  intros HI Hrun. pose proof (inv_staged s HI) as Hv.
  destruct (decide (dirty_files s = [])) as [HD|HD].
  { rewrite Repository_commit_noop in Hrun by done. injection Hrun as <-.
    apply only_cout_step; [done|apply only_cout_print]. }
  destruct (Repository_commit_success _ _ _ _ Hrun HD) as (_ & Hlt & sm & Hmk).
  destruct (Repository_commit_spec msg now s sm Hv HD Hlt Hmk)
    as (c & s'' & Hs'' & Hc & Hid & _ & _ & Hn & Hst & Hwf & Hheap & Hks & _
        & Hsnap & _).
  rewrite Hs'' in Hrun. injection Hrun as ->.
  assert (Hsub : ∀ f, f ∈ stagedFiles s' → f ∈ stagedFiles s).
  { intros f. rewrite Hst, list_elem_of_filter. tauto. }
  assert (Hmono : ∀ p, valid s p → valid s' p).
  { intros p Hp. unfold valid. rewrite (Hheap p Hp). destruct Hp as [F ->].
    case_decide; simpl; eauto. }
  apply (Inv_update s s' [c]); try done.
  - simpl. rewrite Hid, (inv_next s HI). do 2 f_equal. lia.
  - rewrite Hn. lia.
  - constructor; [|done]. split; [done|].
    eapply Forall_impl; [exact Hsnap|].
    intros e (Hnone & f & F & Hf & HF & Hname & He).
    assert (Hnv : ¬ valid s (e.2)) by (intros [G HG]; congruence).
    repeat split.
    + intros Hin%Hsub. apply Hnv, (Inv_valid_root s); auto.
    + rewrite Hwf. intros Hin. apply Hnv, (Inv_valid_root s); auto.
    + by exists (File_committed F).
  - intros p Hp Hs _. rewrite (Hheap p Hp). rewrite decide_False; [done|].
    unfold dirty_files. rewrite list_elem_of_filter. tauto.
  - apply Forall_forall. intros f [Hf%Hsub|Hf]%elem_of_app.
    + split; [|auto]. apply Hmono, (Inv_valid_root s); auto.
    + rewrite Hwf in Hf. split; [|auto]. apply Hmono, (Inv_valid_root s); auto.
  - rewrite Hst. apply NoDup_filter, HI.
  - rewrite Hwf. apply HI.
Qed.

(** ** Every step keeps the invariant *)

Theorem VCS_runCommand_step cmd s s' :
  Inv s → VCS_runCommand cmd s = Some s' → Inv s' ∧ extends s s'.
Proof.
  intros HI Hrun. destruct cmd as [fname ch1 ch2 c|fname c|msg now| |i|].
  - by eapply step_add.
  - by eapply step_edit.
  - by eapply step_commit.
  - simpl in Hrun. destruct (Repository_log_spec s HI) as (s'' & Hs'' & Hoc).
    rewrite Hs'' in Hrun. injection Hrun as ->. by apply only_cout_step.
  - by eapply step_checkout.
  - injection Hrun as <-. apply only_cout_step; [done|apply only_cout_print].
Qed.

Theorem run_step cmds : ∀ s s',
  Inv s → run cmds s = Some s' → Inv s' ∧ extends s s'.
Proof.
  induction cmds as [|cmd cmds IH]; simpl; intros s s' HI Hrun.
  { injection Hrun as <-. split; [done|apply extends_refl]. }
  destruct (VCS_runCommand cmd s) as [s1|] eqn:H1; [|done]. simpl in Hrun.
  destruct (VCS_runCommand_step cmd s s1 HI H1) as [HI1 He1].
  destruct (IH s1 s' HI1 Hrun) as [HI' He'].
  split; [done|]. by eapply extends_trans.
Qed.

(** The states the program can be in: those a run from a fresh repository
    leads to. *)
Definition reachable (s : State) : Prop :=
  ∃ d cmds, session d cmds = Some s.

Lemma reachable_Inv s : reachable s → Inv s.
Proof.
  intros (d & cmds & Hrun). unfold session in Hrun.
  destruct (Repository_init d) as [s0|] eqn:H0; [|done].
  rewrite option_bind_Some in Hrun.
  by destruct (run_step cmds _ _ (Inv_init d s0 H0) Hrun).
Qed.

Lemma reachable_run cmds s s' : reachable s → run cmds s = Some s' → reachable s'.
Proof.
  intros (d & cmds0 & Hrun0) Hrun. exists d, (cmds0 ++ cmds).
  unfold session in *. destruct (Repository_init d) as [s0|]; [|done].
  rewrite option_bind_Some in *. clear d.
  revert s0 Hrun0. induction cmds0 as [|cmd cmds0 IH]; intros s0 Hrun0.
  - simpl in Hrun0. by injection Hrun0 as ->.
  - simpl in *. destruct (VCS_runCommand cmd s0) as [s1|]; [|done].
    simpl in *. by apply IH.
Qed.

Lemma create_directory_None path s :
  create_directory path s = None ↔ fs_create_directory path (disk s) = None.
Proof.
  unfold create_directory. by destruct (fs_create_directory path (disk s)).
Qed.

(** What keeps a command from returning: an exception of the file system
    ([fs::exists] in [add], [fs::create_directory] in a [commit] that has
    something to commit), or such a commit with the counter at
    [INT_MAX]. *)
Definition stops (cmd : Command) (s : State) : Prop :=
  match cmd with
  | CmdAdd fname _ _ _ => fs_exists fname (disk s) = None
  | CmdCommit _ _ =>
      dirty_files s ≠ [] ∧
      (fs_create_directory (commit_path (nextCommitId s)) (disk s) = None ∨
       nextCommitId s = INT_MAX)
  | _ => False
  end.

(** In a state of the invariant nothing else does: no command
    dereferences a dangling pointer. *)
Theorem VCS_runCommand_stops cmd s :
  Inv s → VCS_runCommand cmd s = None ↔ stops cmd s.
Proof.
  intros HI. destruct cmd as [fname ch1 ch2 c|fname c|msg now| |i|].
  - destruct (VCS_add_spec fname ch1 ch2 c s (inv_staged s HI)
                (inv_working s HI))
      as [[Hthrow Hs]|[(s' & Hs & _)|(s' & G & Hs & _)]]; simpl stops.
    + done.
    + split; [by rewrite Hs|]. intros Hthrow. simpl in Hs.
      unfold add_obtain, File_loadFromDisk in Hs. by rewrite Hthrow in Hs.
    + split; [by rewrite Hs|]. intros Hthrow. simpl in Hs.
      unfold add_obtain, File_loadFromDisk in Hs. by rewrite Hthrow in Hs.
  - simpl.
    destruct (edit_find_spec (workingFiles s) fname c s (inv_working s HI))
      as [(f & F & Hf & HF & _ & ->)|[_ ->]]; [|done].
    by destruct (VCS_editFile_spec f c s F HF) as (s' & -> & _).
  - simpl. pose proof (inv_staged s HI) as Hv.
    destruct (decide (dirty_files s = [])) as [HD|HD].
    { rewrite Repository_commit_noop by done. split; [done|]. by intros [? _]. }
    destruct (create_directory (commit_path (nextCommitId s)) s) as [sm|] eqn:Hmk.
    2:{ rewrite Repository_commit_throws by done. split; [|done]. intros _.
        split; [done|]. left. by apply create_directory_None. }
    assert (Hfs : fs_create_directory (commit_path (nextCommitId s)) (disk s)
                  ≠ None).
    { intros Hn. apply create_directory_None in Hn. congruence. }
    destruct (decide (nextCommitId s < INT_MAX)) as [Hlt|Hge].
    + destruct (Repository_commit_spec msg now s sm Hv HD Hlt Hmk)
        as (c & s' & -> & _). split; [done|]. intros [_ [?|?]]; [done|lia].
    + rewrite Repository_commit_overflow by done. split; [|done]. intros _.
      split; [done|]. right. pose proof (inv_next_max s HI). lia.
  - simpl. by destruct (Repository_log_spec s HI) as (s' & -> & _).
  - simpl. destruct (decide (i ∈ Commit_id <$> commits s)) as [Hin|Hnin].
    + apply list_elem_of_fmap in Hin as (c & -> & Hc).
      by destruct (Repository_checkout_found s c HI Hc) as (qs & s' & -> & _).
    + by rewrite Repository_checkout_not_found by done.
  - done.
Qed.

(** ** Frozen snapshots *)

Lemma Inv_snapshot_ok s c e :
  Inv s → c ∈ commits s → e ∈ Commit_files c → snapshot_ok s e.
Proof.
  intros HI Hc He. pose proof (inv_commits s HI) as H.
  rewrite Forall_forall in H. destruct (H c Hc) as [_ Hsn].
  rewrite Forall_forall in Hsn. by apply Hsn.
Qed.

(** Whatever runs later, a commit stays in the history and the objects it
    stores stay as they are. *)
Lemma snapshot_frozen cmds s s2 c e :
  Inv s → c ∈ commits s → e ∈ Commit_files c →
  run cmds s = Some s2 →
  c ∈ commits s2 ∧ heap s2 !! e.2 = heap s !! e.2.
Proof.
  intros HI Hc He Hrun.
  destruct (run_step cmds s s2 HI Hrun) as [_ [Hpre Hframe]].
  destruct (Inv_snapshot_ok s c e HI Hc He) as (Hs & Hw & F & HF & _).
  split.
  - destruct Hpre as [k ->]. apply elem_of_app. by left.
  - apply Hframe; [by exists F|done|done].
Qed.

Lemma commit_stays cmds s s2 c :
  Inv s → c ∈ commits s → run cmds s = Some s2 → c ∈ commits s2.
Proof.
  intros HI Hc Hrun.
  destruct (run_step cmds s s2 HI Hrun) as [_ [[k ->] _]].
  apply elem_of_app. by left.
Qed.

Lemma File_updateContent_other g data s s' p :
  File_updateContent g data s = Some s' → p ≠ g →
  heap s' !! p = heap s !! p.
Proof.
  unfold File_updateContent. intros H Hne.
  destruct (heap s !! g) as [G|]; [|done]. simpl in H. injection H as <-.
  simpl. by apply lookup_insert_ne.
Qed.

Lemma names_of_Forall2 s (files : list (string * positive)) wf :
  Forall2 (λ e w, ∃ S, heap s !! w = Some S ∧ File_name S = e.1) files wf →
  names_of s wf = files.*1.
Proof.
  unfold names_of. induction 1 as [|e w files wf (S & HS & Hn) _ IH]; [done|].
  simpl. rewrite HS. simpl. rewrite Hn. f_equal. exact IH.
Qed.

(** What a found checkout leaves in the working set. *)
Lemma Repository_checkout_restored s c :
  Inv s → c ∈ commits s →
  ∃ s', Repository_checkout (Commit_id c) s = Some s' ∧
    Forall2 (λ e w, ∃ S, heap s !! e.2 = Some S ∧ heap s' !! w = Some S ∧
                         File_name S = e.1 ∧
                         File_stagedContent S = File_content S ∧
                         File_modified S = false)
            (Commit_files c) (workingFiles s') ∧
    names_of s' (workingFiles s') = (Commit_files c).*1 ∧
    NoDup (Commit_files c).*1 ∧
    NoDup (workingFiles s') ∧
    (∀ w, w ∈ workingFiles s → w ∉ workingFiles s').
Proof.
  intros HI Hc.
  destruct (Repository_checkout_found s c HI Hc)
    as (qs & s' & Hs' & Hwf & Hsub & Hnone & Hnd & Hall & _).
  exists s'. split; [done|]. rewrite Hwf.
  assert (Hrestored : Forall2 (λ e w, ∃ S, heap s !! e.2 = Some S ∧
            heap s' !! w = Some S ∧ File_name S = e.1 ∧
            File_stagedContent S = File_content S ∧ File_modified S = false)
            (Commit_files c) qs).
  { assert (Hok : Forall (snapshot_ok s) (Commit_files c)).
    { apply Forall_forall. intros e. by apply Inv_snapshot_ok. }
    eapply Forall2_impl_l; [exact Hok|exact Hall|].
    intros e w (_ & _ & S & HS & Hn & Hm & Hcs) Hw. exists S.
    by rewrite Hw. }
  split; [done|]. split; [|split; [|split; [done|]]].
  - apply names_of_Forall2. eapply Forall2_impl; [exact Hrestored|].
    intros e w (S & _ & HS & Hn & _). by exists S.
  - apply keys_sorted_NoDup. pose proof (inv_commits s HI) as H.
    rewrite Forall_forall in H. by destruct (H c Hc).
  - intros w Hw Hin. rewrite Forall_forall in Hnone.
    destruct (Inv_valid_root s w HI) as [F HF]; [by right|].
    by rewrite (Hnone w Hin) in HF.
Qed.

(** ** Supporting facts about commits, adds and runs *)

Lemma run_cons cmd cmds s :
  run (cmd :: cmds) s = VCS_runCommand cmd s ≫= run cmds.
Proof. done. Qed.

Lemma filter_eq_NoDup (f : positive) l :
  NoDup l → f ∈ l → filter (λ g, g = f) l = [f].
Proof.
  induction 1 as [|x l Hx Hnd IH]; intros Hin; [by apply elem_of_nil in Hin|].
  destruct (decide (x = f)) as [->|Hne].
  - rewrite filter_cons_True by done. f_equal.
    clear IH Hin. induction l as [|y l IHl]; [done|].
    apply not_elem_of_cons in Hx as [Hy Hl]. apply NoDup_cons in Hnd as [_ Hnd].
    rewrite filter_cons_False by congruence. by apply IHl.
  - rewrite filter_cons_False by done. apply IH.
    apply elem_of_cons in Hin as [->|Hin]; done.
Qed.

(** [addFile] with the same pointer twice stages it once. *)
Lemma Repository_addFile_same_pointer f s :
  valid s f →
  ∃ s1, Repository_addFile f s = Some s1 ∧
        Repository_addFile f s1 = Some s1 ∧
        stagedFiles s1 = push_back_new f (stagedFiles s).
Proof.
  intros Hv.
  destruct (Repository_addFile_spec f s Hv) as (s1 & Hs1 & Hst & _).
  exists s1. split; [done|]. split; [|done].
  unfold Repository_addFile. rewrite decide_True; [done|].
  rewrite Hst. apply elem_of_push_back_new. by right.
Qed.

(** The [add] command for a name that [fs::exists] finds: [loadFromDisk]
    makes a new object each time, so the command always appends one entry
    to the staging vector and one to the working set. *)
Lemma VCS_add_on_disk fname ch1 ch2 c s :
  Forall (valid s) (stagedFiles s) →
  Forall (valid s) (workingFiles s) →
  fs_exists fname (disk s) = Some true →
  ∃ s', let f := fresh (dom (heap s)) in
    VCS_runCommand (CmdAdd fname ch1 ch2 c) s = Some s' ∧
    heap s' = <[f := File_ctor fname (getline_all (fs_read fname (disk s)))]>
                (heap s) ∧
    stagedFiles s' = stagedFiles s ++ [f] ∧
    workingFiles s' = workingFiles s ++ [f] ∧
    disk s' = disk s.
Proof.
  intros Hvs Hvw Hdisk.
  assert (Hfresh : ∀ l, Forall (valid s) l → fresh (dom (heap s)) ∉ l).
  { intros l Hl Hin. rewrite Forall_forall in Hl.
    destruct (Hl _ Hin) as [F HF]. by rewrite fresh_lookup_None in HF. }
  simpl. unfold add_obtain, File_loadFromDisk. rewrite Hdisk. simpl.
  rewrite decide_False by by apply Hfresh.
  unfold Repository_addFile. simpl.
  rewrite decide_False by by apply Hfresh.
  rewrite lookup_insert_eq. simpl. by eexists.
Qed.

(** After two [add] commands for a name that [fs::exists] finds, the
    staging vector has two more entries, two distinct objects called
    [fname]. *)
Lemma VCS_add_twice fname ch1 ch2 c ch1' ch2' c' s :
  Inv s →
  fs_exists fname (disk s) = Some true →
  ∃ s2 f1 f2,
    run [CmdAdd fname ch1 ch2 c; CmdAdd fname ch1' ch2' c'] s = Some s2 ∧
    f1 ≠ f2 ∧
    stagedFiles s2 = stagedFiles s ++ [f1; f2] ∧
    workingFiles s2 = workingFiles s ++ [f1; f2] ∧
    names_of s2 [f1; f2] = [fname; fname].
Proof.
  intros HI Hdisk.
  destruct (VCS_add_on_disk fname ch1 ch2 c s
              (inv_staged s HI) (inv_working s HI) Hdisk)
    as (s1 & Hs1 & Hh1 & Hst1 & Hwf1 & Hd1).
  destruct (VCS_runCommand_step _ _ _ HI Hs1) as [HI1 _].
  rewrite <- Hd1 in Hdisk.
  destruct (VCS_add_on_disk fname ch1' ch2' c' s1
              (inv_staged s1 HI1) (inv_working s1 HI1) Hdisk)
    as (s2 & Hs2 & Hh2 & Hst2 & Hwf2 & Hd2).
  exists s2, (fresh (dom (heap s))), (fresh (dom (heap s1))).
  assert (Hne : fresh (dom (heap s)) ≠ fresh (dom (heap s1))).
  { intros Heq. pose proof (fresh_lookup_None (heap s1)) as Hn.
    rewrite <- Heq, Hh1, lookup_insert_eq in Hn. done. }
  split; [|split; [done|split; [|split]]].
  - by rewrite run_cons, Hs1, option_bind_Some, run_cons, Hs2.
  - by rewrite Hst2, Hst1, <- app_assoc.
  - by rewrite Hwf2, Hwf1, <- app_assoc.
  - unfold names_of. simpl. rewrite Hh2, lookup_insert_ne by done.
    rewrite lookup_insert_eq, Hh1, lookup_insert_eq. done.
Qed.

Definition is_commit (cmd : Command) : bool :=
  match cmd with CmdCommit _ _ => true | _ => false end.

Lemma VCS_runCommand_counter cmd s s' :
  Inv s → VCS_runCommand cmd s = Some s' →
  nextCommitId s' = nextCommitId s ∨
  (is_commit cmd = true ∧ nextCommitId s' = nextCommitId s + 1).
Proof.
  intros HI Hrun. destruct cmd as [fname ch1 ch2 c|fname c|msg now| |i|].
  - destruct (VCS_add_spec fname ch1 ch2 c s (inv_staged s HI)
                (inv_working s HI))
      as [[_ Hs1]|[(s1 & Hs1 & Hoc)
                  |(s1 & G & Hs1 & _ & _ & _ & _ & _ & Hn)]];
      rewrite Hs1 in Hrun; [done|injection Hrun as <-; left..];
      [apply Hoc|done].
  - simpl in Hrun.
    destruct (edit_find_spec (workingFiles s) fname c s (inv_working s HI))
      as [(f & F & Hf & HF & _ & Heq)|[_ Heq]]; rewrite Heq in Hrun.
    + destruct (VCS_editFile_spec f c s F HF) as (s1 & Hs1 & _ & _ & _ & _ & Hn & _).
      rewrite Hs1 in Hrun. injection Hrun as <-. by left.
    + injection Hrun as <-. by left.
  - simpl in Hrun. pose proof (inv_staged s HI) as Hv.
    destruct (decide (dirty_files s = [])) as [HD|HD].
    + rewrite Repository_commit_noop in Hrun by done. injection Hrun as <-.
      by left.
    + destruct (Repository_commit_success _ _ _ _ Hrun HD) as (_ & Hlt & sm & Hmk).
      destruct (Repository_commit_spec msg now s sm Hv HD Hlt Hmk)
        as (c & s1 & Hs1 & _ & _ & _ & _ & Hn & _).
      rewrite Hs1 in Hrun. injection Hrun as <-. by right.
  - simpl in Hrun. destruct (Repository_log_spec s HI) as (s1 & Hs1 & Hoc).
    rewrite Hs1 in Hrun. injection Hrun as <-. left. apply Hoc.
  - simpl in Hrun.
    destruct (decide (i ∈ Commit_id <$> commits s)) as [Hin|Hnin].
    + apply list_elem_of_fmap in Hin as (c & -> & Hc).
      destruct (Repository_checkout_found s c HI Hc)
        as (qs & s1 & Hs1 & _ & _ & _ & _ & _ & _ & _ & Hn & _).
      rewrite Hs1 in Hrun. injection Hrun as <-. by left.
    + rewrite Repository_checkout_not_found in Hrun by done.
      injection Hrun as <-. by left.
  - injection Hrun as <-. by left.
Qed.


(** The second loop of a commit that returns with a non-empty selection
    runs from the state [sm] in which the directory of the commit has been
    made, and what it leaves on the file system is what the commit
    leaves. *)
Lemma Repository_commit_loop msg now s s' :
  Repository_commit msg now s = Some s' → dirty_files s ≠ [] →
  ∃ sm s2, create_directory (commit_path (nextCommitId s)) s = Some sm ∧
    commit_write (commit_path (nextCommitId s)) (dirty_files s) sm = Some s2 ∧
    disk s' = disk s2 ∧ fsops s' = fsops s2 ∧
    ∀ p, valid s p → heap s' !! p = heap s2 !! p.
Proof.
  intros Hrun HD.
  destruct (Repository_commit_success _ _ _ _ Hrun HD) as (Hv & Hlt & sm & Hmk).
  destruct (Repository_commit_spec msg now s sm Hv HD Hlt Hmk)
    as (c & s'' & Hs'' & _ & _ & _ & _ & _ & _ & _ & Hheap & _ & _ & _ & Hops
        & Hdisk & _).
  rewrite Hs'' in Hrun. injection Hrun as ->.
  destruct (create_directory_spec _ _ _ Hmk) as (_ & Hh1 & Hops1 & _).
  destruct (commit_write_spec (commit_path (nextCommitId s)) (dirty_files s) sm)
    as (s2 & Hw & Hheap2 & Hops2 & Hdisk2 & _).
  { apply Forall_forall. intros f Hf. rewrite Forall_forall in Hv.
    unfold valid. rewrite Hh1. apply Hv. unfold dirty_files in Hf.
    by apply list_elem_of_filter in Hf as [_ ?]. }
  exists sm, s2. split; [done|]. split; [done|].
  rewrite Hh1 in Hheap2, Hops2, Hdisk2. split; [by rewrite Hdisk, Hdisk2|].
  split; [by rewrite Hops, Hops2, Hops1, <- app_assoc|].
  intros p Hp. by rewrite (Hheap p Hp), Hheap2.
Qed.

(** ** The history along a run *)

Lemma dirty_files_ext s s' :
  stagedFiles s' = stagedFiles s →
  (∀ f, f ∈ stagedFiles s → heap s' !! f = heap s !! f) →
  dirty_files s' = dirty_files s.
Proof.
  unfold dirty_files. intros ->. generalize (stagedFiles s).
  induction l as [|a l IH]; intros H; [done|].
  assert (E : isModified s' a = isModified s a).
  { unfold isModified. rewrite H; [done|left]. }
  rewrite !filter_cons, E, IH; [done|]. intros f Hf. apply H. by right.
Qed.

Lemma commit_write_app path D1 : ∀ D2 s,
  commit_write path (D1 ++ D2) s
  = commit_write path D1 s ≫= commit_write path D2.
Proof.
  induction D1 as [|f D1 IH]; intros D2 s; [done|].
  simpl. destruct (heap s !! f) as [F|] eqn:HF; [|done]. simpl.
  unfold File_clearModified, File_saveToDisk. simpl. rewrite HF. simpl.
  rewrite lookup_insert_eq. simpl. apply IH.
Qed.

(** What one command does to the history and to the counter: a [commit]
    that finds a modified staged file appends one commit, which takes the
    value of the counter as its id, and advances the counter by one;
    anything else leaves both as they are. *)
Lemma VCS_runCommand_commits cmd s s' :
  Inv s → VCS_runCommand cmd s = Some s' →
  if is_commit cmd && bool_decide (dirty_files s ≠ [])
  then ∃ c, commits s' = commits s ++ [c] ∧ Commit_id c = nextCommitId s ∧
            nextCommitId s' = nextCommitId s + 1
  else commits s' = commits s ∧ nextCommitId s' = nextCommitId s.
Proof.
  intros HI Hrun.
  destruct (VCS_runCommand_step cmd s s' HI Hrun) as [HI' [[k Hk] _]].
  assert (Hsame : nextCommitId s' = nextCommitId s →
                  commits s' = commits s ∧ nextCommitId s' = nextCommitId s).
  { intros Hn. split; [|done].
    rewrite (inv_next s HI), (inv_next s' HI'), Hk, length_app in Hn.
    destruct k; [by rewrite app_nil_r in Hk|simpl in Hn; lia]. }
  destruct cmd as [fname ch1 ch2 c|fname c|msg now| |i|];
    try (destruct (VCS_runCommand_counter _ s s' HI Hrun) as [Hn|[? _]];
         [by apply Hsame|done]).
  simpl in Hrun |- *. pose proof (inv_staged s HI) as Hv.
  destruct (decide (dirty_files s = [])) as [HD|HD].
  - rewrite bool_decide_false by (by intros ?).
    rewrite Repository_commit_noop in Hrun by done. by injection Hrun as <-.
  - rewrite bool_decide_true by done.
    destruct (Repository_commit_success _ _ _ _ Hrun HD) as (_ & Hlt & sm & Hmk).
    destruct (Repository_commit_spec msg now s sm Hv HD Hlt Hmk)
      as (c & s1 & Hs1 & Hc & Hid & _ & _ & Hn & _).
    rewrite Hs1 in Hrun. injection Hrun as <-. by exists c.
Qed.

(** The number of commands of a run that make a commit. *)
Fixpoint successful_commits (cmds : list Command) (s : State) : nat :=
  match cmds with
  | [] => 0
  | cmd :: rest =>
      match VCS_runCommand cmd s with
      | Some s' =>
          (if is_commit cmd && bool_decide (dirty_files s ≠ []) then 1 else 0)
          + successful_commits rest s'
      | None => 0
      end
  end%nat.

Lemma run_history_length cmds : ∀ s s',
  Inv s → run cmds s = Some s' →
  length (commits s') = (length (commits s) + successful_commits cmds s)%nat.
Proof.
  induction cmds as [|cmd cmds IH]; intros s s' HI Hrun.
  { simpl in *. injection Hrun as <-. lia. }
  rewrite run_cons in Hrun. simpl.
  destruct (VCS_runCommand cmd s) as [s1|] eqn:H1; [|done].
  rewrite option_bind_Some in Hrun.
  destruct (VCS_runCommand_step cmd s s1 HI H1) as [HI1 _].
  rewrite (IH s1 s' HI1 Hrun).
  pose proof (VCS_runCommand_commits cmd s s1 HI H1) as Hstep.
  destruct (is_commit cmd && bool_decide (dirty_files s ≠ [])).
  - destruct Hstep as (c & -> & _). rewrite length_app. simpl. lia.
  - destruct Hstep as [-> _]. lia.
Qed.

(** Non-decreasing in the order of [std::string]. *)
Definition name_sorted (l : list string) : Prop :=
  Sorted (λ a b, ¬ key_lt b a) l.

End vcs.

(** * A file system for the sessions *)

(** A small implementation of [FileSystem], to run the program on: the
    regular files and the directories of one working directory, each
    under the path it was made with.  A path names a file only in a
    directory that exists; no two paths name the same file. *)
Inductive Node :=
  | RegularFile (data : string)
  | Directory.

Definition Tree : Type := list (string * Node).

Fixpoint Tree_lookup (p : string) (d : Tree) : option Node :=
  match d with
  | [] => None
  | (q, n) :: d' => if String.eqb q p then Some n else Tree_lookup p d'
  end.

Fixpoint Tree_insert (p : string) (n : Node) (d : Tree) : Tree :=
  match d with
  | [] => [(p, n)]
  | (q, m) :: d' =>
      if String.eqb q p then (p, n) :: d' else (q, m) :: Tree_insert p n d'
  end.

(** The path up to its last [/], if it has one. *)
Fixpoint dirname (p : string) : option string :=
  match p with
  | EmptyString => None
  | String c p' =>
      match dirname p' with
      | Some dir => Some (String c dir)
      | None => if Ascii.eqb c "/" then Some EmptyString else None
      end
  end.

(** The directory a path lies in exists: the working directory for a
    path without [/]. *)
Definition parent_exists (p : string) (d : Tree) : bool :=
  match dirname p with
  | None | Some EmptyString => true
  | Some dir =>
      match Tree_lookup dir d with Some Directory => true | _ => false end
  end.

Definition Tree_exists (p : string) (d : Tree) : option bool :=
  Some (match Tree_lookup p d with Some _ => true | None => false end).

(** An existing directory is left alone; a regular file in the way, or a
    missing parent, makes the call throw. *)
Definition Tree_create_directory (p : string) (d : Tree) : option Tree :=
  match Tree_lookup p d with
  | Some Directory => Some d
  | Some (RegularFile _) => None
  | None => if parent_exists p d then Some (Tree_insert p Directory d) else None
  end.

(** The stream opens unless the path is empty, is a directory, or lies
    in a directory that does not exist. *)
Definition Tree_write (p data : string) (d : Tree) : Tree :=
  match p, Tree_lookup p d with
  | EmptyString, _ => d
  | _, Some Directory => d
  | _, _ => if parent_exists p d then Tree_insert p (RegularFile data) d else d
  end.

Definition Tree_read (p : string) (d : Tree) : string :=
  match Tree_lookup p d with
  | Some (RegularFile data) => data
  | _ => EmptyString
  end.

Definition simple_fs : FileSystem :=
  {| FS := Tree;
     fs_exists := Tree_exists;
     fs_create_directory := Tree_create_directory;
     fs_write := Tree_write;
     fs_read := Tree_read |}.

(** * Sessions used to instantiate the statements *)

(** The file system of the sessions: one file [a.txt]. *)
Definition ex_tree : Tree := [("a.txt", RegularFile "hello")].
Definition ex_disk : @FS simple_fs := ex_tree.

(** An empty working directory. *)
Definition ex_empty : @FS simple_fs := ([] : Tree).

(** The state of a session on [d], when it returns. *)
Definition ex_session (d : @FS simple_fs) (cmds : list Command)
  : @State simple_fs :=
  default (mkState ∅ d [] [] [] [] 1 []) (session d cmds).

(** [a.txt] is added from disk and edited. *)
Definition ex_cmds : list Command :=
  [CmdAdd "a.txt" "n" "n" ""; CmdEdit "a.txt" "hi"].

Definition ex_now : string := "Thu Jan  1 00:00:00 1970" +:+ endl.

(** After the [add] alone: [a.txt] is staged and not modified. *)
Definition ex_added : @State simple_fs :=
  ex_session ex_disk [CmdAdd "a.txt" "n" "n" ""].

(** [a.txt] staged as it is on disk, and a new file [b.txt] created and
    edited: one staged file is clean and one is modified. *)
Definition ex_mixed : @State simple_fs :=
  ex_session ex_disk [CmdAdd "a.txt" "n" "n" ""; CmdAdd "b.txt" "y" "y" "bee"].

Definition ex_mixed_committed : @State simple_fs :=
  default ex_mixed (Repository_commit "second" ex_now ex_mixed).

(** Before the commit: [a.txt] is staged and modified. *)
Definition ex_staged : @State simple_fs := ex_session ex_disk ex_cmds.

(** After the commit. *)
Definition ex_committed : @State simple_fs :=
  default ex_staged (Repository_commit "first" ex_now ex_staged).

Definition ex_commit : Commit :=
  mkCommit 1 "first" "Thu Jan  1 00:00:00 1970" [("a.txt", 2%positive)].

(** Two new files, created and edited in the order [b.txt], [a.txt]. *)
Definition ex_ba_cmds : list Command :=
  [CmdAdd "b.txt" "y" "y" "2"; CmdAdd "a.txt" "y" "y" "1"].

Definition ex_ba : @State simple_fs := ex_session ex_empty ex_ba_cmds.

Definition ex_ba_committed : @State simple_fs :=
  default ex_ba (Repository_commit "m" ex_now ex_ba).

Lemma ex_added_reachable : reachable ex_added.
Proof. exists ex_disk, [CmdAdd "a.txt" "n" "n" ""]. vm_compute. reflexivity. Qed.

Lemma ex_staged_reachable : reachable ex_staged.
Proof. exists ex_disk, ex_cmds. vm_compute. reflexivity. Qed.

Lemma ex_committed_reachable : reachable ex_committed.
Proof.
  exists ex_disk, (ex_cmds ++ [CmdCommit "first" ex_now]).
  vm_compute. reflexivity.
Qed.

Lemma ex_ba_reachable : reachable ex_ba.
Proof. exists ex_empty, ex_ba_cmds. vm_compute. reflexivity. Qed.

(** A session in which a checked-out [a.txt] has a pending edit. *)
Definition ex_pending_cmds : list Command :=
  ex_cmds ++ [CmdCommit "first" ex_now; CmdCheckout 1; CmdEdit "a.txt" "bye"].

Definition ex_pending : @State simple_fs := ex_session ex_disk ex_pending_cmds.

(** The same session after one more checkout of commit 1. *)
Definition ex_pending_out : @State simple_fs :=
  default ex_pending (Repository_checkout 1 ex_pending).

(** Two pending edits of [a.txt]: the object checked out first holds
    [bye], the object checked out after it holds [ciao], and both are
    staged. *)
Definition ex_twice_cmds : list Command :=
  ex_pending_cmds ++ [CmdCheckout 1; CmdEdit "a.txt" "ciao"].

Definition ex_twice : @State simple_fs := ex_session ex_disk ex_twice_cmds.

Definition ex_twice_committed : @State simple_fs :=
  default ex_twice (Repository_commit "both" ex_now ex_twice).

(** After the commit and a checkout of it: the working file is a new
    object, live and not staged. *)
Definition ex_checked_out : @State simple_fs :=
  ex_session ex_disk (ex_cmds ++ [CmdCommit "first" ex_now; CmdCheckout 1]).

Lemma ex_pending_reachable : reachable ex_pending.
Proof. exists ex_disk, ex_pending_cmds. vm_compute. reflexivity. Qed.

Lemma ex_twice_reachable : reachable ex_twice.
Proof. exists ex_disk, ex_twice_cmds. vm_compute. reflexivity. Qed.

Lemma ex_twice_committed_session :
  session ex_disk (ex_twice_cmds ++ [CmdCommit "both" ex_now])
  = Some ex_twice_committed.
Proof. vm_compute. reflexivity. Qed.

(** The first scenario of the specification: add, edit, commit, checkout,
    edit again without committing, checkout again.  The history has the one
    commit 1, the working set is one unmodified [a.txt] with content [hi],
    and so is the file on disk. *)
Example scenario_commit_checkout :
  ∃ s, session ex_disk
         (ex_cmds ++ [CmdCommit "first" ex_now; CmdCheckout 1;
                      CmdEdit "a.txt" "bye"; CmdCheckout 1]) = Some s ∧
       Commit_id <$> commits s = [1] ∧
       (λ w, heap s !! w) <$> workingFiles s
         = [Some (mkFile "a.txt" "hi" "hi" false)] ∧
       fs_read "a.txt" (disk s) = "hi".
Proof. eexists. split; [vm_compute; reflexivity|]. by vm_compute. Qed.

(** In the same scenario the object edited to [bye] has left the working
    set but is still in the staging vector, modified. *)
Example scenario_staged_edit_stays_staged :
  ∃ s, session ex_disk
         (ex_cmds ++ [CmdCommit "first" ex_now; CmdCheckout 1;
                      CmdEdit "a.txt" "bye"; CmdCheckout 1]) = Some s ∧
       (λ f, heap s !! f) <$> stagedFiles s
         = [Some (mkFile "a.txt" "hi" "bye" true)] ∧
       Forall (λ f, f ∉ workingFiles s) (stagedFiles s).
Proof.
  eexists. split; [vm_compute; reflexivity|]. split; [by vm_compute|].
  vm_compute. repeat constructor.
  intros H. inversion H as [|? ? ? H']. inversion H'.
Qed.

(** The second scenario: a commit on a fresh repository. *)
Example scenario_empty_commit :
  ∃ s0, session ex_empty [] = Some s0 ∧
    Repository_commit "empty" ex_now s0 = Some (print nothing_to_commit s0) ∧
    length (commits (print nothing_to_commit s0)) = 0%nat.
Proof. eexists. split; [vm_compute; reflexivity|]. split; by vm_compute. Qed.

(** A session that ends in an exception: on an empty working directory a
    new file is created under the path [.vcs/commit_1] and edited; the
    commit that follows calls [fs::create_directory] on that path, where a
    regular file is in the way. *)
Example scenario_commit_directory_taken :
  ∃ s1, session ex_empty [CmdAdd ".vcs/commit_1" "y" "y" "x"] = Some s1 ∧
    fs_exists ".vcs/commit_1" (disk s1) = Some true ∧
    stops (CmdCommit "m" ex_now) s1 ∧
    session ex_empty [CmdAdd ".vcs/commit_1" "y" "y" "x"; CmdCommit "m" ex_now]
    = None.
Proof.
  eexists. split; [vm_compute; reflexivity|]. split; [by vm_compute|].
  split; [|by vm_compute].
  split; [vm_compute; discriminate|]. left. by vm_compute.
Qed.

(** A write that is lost: for a new file in a directory that does not
    exist the streams of [add] and of [saveToDisk] do not open; the object
    is made, staged and edited, and no file appears. *)
Example scenario_write_dropped :
  ∃ s, session ex_empty [CmdAdd "nodir/a.txt" "y" "y" "x"] = Some s ∧
    (λ f, heap s !! f) <$> stagedFiles s
      = [Some (mkFile "nodir/a.txt" "" "x" true)] ∧
    fsops s = [MkDir ".vcs"; Write "nodir/a.txt" ""] ∧
    fs_exists "nodir/a.txt" (disk s) = Some false.
Proof. eexists. split; [vm_compute; reflexivity|]. by vm_compute. Qed.

(** * The claims *)

(** C1, as stated, fails in its last part.  In the first scenario of the
    specification, after the edit to [bye] that is not committed, the
    checkout of commit 1 returns with a working set that holds [hi], but
    the object with the staged [bye] is still in the staging vector and
    still modified: the staging vector is the one before the checkout and
    the selection of a commit is not empty.  The next commit commits it as
    commit 2 and writes [bye] to [a.txt]. *)
Lemma C1_staged_content_counterexample :
  reachable ex_pending ∧ ex_commit ∈ commits ex_pending ∧
  ∃ s1 s2, Repository_checkout (Commit_id ex_commit) ex_pending = Some s1 ∧
    (λ w, heap s1 !! w) <$> workingFiles s1
      = [Some (mkFile "a.txt" "hi" "hi" false)] ∧
    (λ f, heap s1 !! f) <$> stagedFiles s1
      = [Some (mkFile "a.txt" "hi" "bye" true)] ∧
    stagedFiles s1 = stagedFiles ex_pending ∧
    dirty_files s1 ≠ [] ∧
    Repository_commit "next" ex_now s1 = Some s2 ∧
    Commit_id <$> commits s2 = [1; 2] ∧
    (λ c, (λ e, (e.1, File_content <$> heap s2 !! e.2)) <$> Commit_files c)
      <$> commits s2
      = [[("a.txt", Some "hi")]; [("a.txt", Some "bye")]] ∧
    fs_read "a.txt" (disk s2) = "bye".
Proof.
  split; [exact ex_pending_reachable|]. split; [vm_compute; left|].
  eexists _, _. split; [vm_compute; reflexivity|].
  split; [by vm_compute|]. split; [by vm_compute|].
  split; [by vm_compute|]. split; [vm_compute; discriminate|].
  split; [vm_compute; reflexivity|]. by vm_compute.
Qed.

(** C1, amended. Checkout of a commit [c] of the history of a reachable
    state returns, and afterwards the working set holds exactly one file
    per snapshot of [c], in the order of the snapshot names: the restored
    object equals the stored clone (same name, same content, staged content
    equal to the content, not modified), the names of the working set are
    the snapshot names without repetition, and no file of the former
    working set is in the new one.  Staged content that is not committed
    is kept: the staging vector is the same, every staged object is as it
    was, and so the same files are modified. *)
Theorem C1_checkout_restores_commit {fsys : FileSystem} s c :
  reachable s → c ∈ commits s →
  ∃ s', Repository_checkout (Commit_id c) s = Some s' ∧
    Forall2 (λ e w, ∃ S, heap s !! e.2 = Some S ∧ heap s' !! w = Some S ∧
                         File_name S = e.1 ∧
                         File_stagedContent S = File_content S ∧
                         File_modified S = false)
            (Commit_files c) (workingFiles s') ∧
    names_of s' (workingFiles s') = (Commit_files c).*1 ∧
    NoDup (Commit_files c).*1 ∧
    NoDup (workingFiles s') ∧
    (∀ w, w ∈ workingFiles s → w ∉ workingFiles s') ∧
    stagedFiles s' = stagedFiles s ∧
    (∀ f, f ∈ stagedFiles s → heap s' !! f = heap s !! f) ∧
    dirty_files s' = dirty_files s.
Proof.
  intros HI%reachable_Inv Hc.
  destruct (Repository_checkout_restored s c HI Hc)
    as (s' & Hs' & Hall & Hnames & Hnd & Hndw & Hold).
  destruct (Repository_checkout_found s c HI Hc)
    as (qs & s'' & Hs'' & _ & Hsub & _ & _ & _ & _ & Hst & _).
  rewrite Hs' in Hs''. injection Hs'' as <-.
  assert (Hkeep : ∀ f, f ∈ stagedFiles s → heap s' !! f = heap s !! f).
  { intros f Hf. destruct (Inv_valid_root s f HI) as [F HF]; [by left|].
    rewrite HF. by eapply lookup_weaken. }
  exists s'. do 6 (split; [done|]). split; [done|]. split; [done|].
  by apply dirty_files_ext.
Qed.

Lemma C1_checkout_restores_commit_witness :
  reachable ex_pending ∧ ex_commit ∈ commits ex_pending ∧
  ∃ s', Repository_checkout (Commit_id ex_commit) ex_pending = Some s' ∧
    Forall2 (λ e w, ∃ S, heap ex_pending !! e.2 = Some S ∧
                         heap s' !! w = Some S ∧
                         File_name S = e.1 ∧
                         File_stagedContent S = File_content S ∧
                         File_modified S = false)
            (Commit_files ex_commit) (workingFiles s') ∧
    names_of s' (workingFiles s') = (Commit_files ex_commit).*1 ∧
    NoDup (Commit_files ex_commit).*1 ∧
    NoDup (workingFiles s') ∧
    (∀ w, w ∈ workingFiles ex_pending → w ∉ workingFiles s') ∧
    stagedFiles s' = stagedFiles ex_pending ∧
    (∀ f, f ∈ stagedFiles ex_pending → heap s' !! f = heap ex_pending !! f) ∧
    dirty_files s' = dirty_files ex_pending.
Proof.
  assert (Hc : ex_commit ∈ commits ex_pending) by (vm_compute; left).
  split; [exact ex_pending_reachable|]. split; [exact Hc|].
  exact (C1_checkout_restores_commit ex_pending ex_commit
           ex_pending_reachable Hc).
Defined.

(** C2. A commit made in a reachable state with modified staged files
    appends a commit [c]; every snapshot of [c] is the clone of one of the
    committed files [f], holding as content what [f] had staged when the
    commit was made.  A call of [updateContent] on [f] right after the
    commit is defined and leaves the snapshot unchanged; whatever commands
    run afterwards, [c] stays in the history with that snapshot unchanged,
    and a call of [updateContent] on [f] at any later time leaves it
    unchanged too. *)
Theorem C2_snapshot_frozen_at_commit {fsys : FileSystem} msg now s s1 :
  reachable s →
  Repository_commit msg now s = Some s1 →
  dirty_files s ≠ [] →
  ∃ c, commits s1 = commits s ++ [c] ∧
    Forall (λ e, ∃ f F,
        f ∈ dirty_files s ∧ heap s !! f = Some F ∧ File_name F = e.1 ∧
        heap s1 !! e.2 =
          Some (mkFile (File_name F) (File_stagedContent F)
                       (File_stagedContent F) false) ∧
        (∀ data, ∃ s3, File_updateContent f data s1 = Some s3 ∧
                       heap s3 !! e.2 = heap s1 !! e.2) ∧
        ∀ cmds s2, run cmds s1 = Some s2 →
          c ∈ commits s2 ∧
          heap s2 !! e.2 = heap s1 !! e.2 ∧
          ∀ data s3, File_updateContent f data s2 = Some s3 →
                     heap s3 !! e.2 = heap s1 !! e.2)
      (Commit_files c).
Proof.
  intros Hreach Hrun HD. pose proof (reachable_Inv s Hreach) as HI.
  destruct (Repository_commit_success _ _ _ _ Hrun HD) as (Hv & Hlt & sm & Hmk).
  destruct (Repository_commit_spec msg now s sm Hv HD Hlt Hmk)
    as (c & s' & Hs' & Hc & _ & _ & _ & _ & _ & _ & Hheap & _ & _ & Hsnap & _).
  rewrite Hs' in Hrun. injection Hrun as ->.
  destruct (VCS_runCommand_step (CmdCommit msg now) s s1 HI Hs') as [HI1 _].
  assert (Hin : c ∈ commits s1) by (rewrite Hc, elem_of_app; right; left).
  exists c. split; [done|]. apply Forall_forall. intros e He.
  rewrite Forall_forall in Hsnap.
  destruct (Hsnap e He) as (Hnone & f & F & Hf & HF & Hname & Hclone).
  assert (Hne : e.2 ≠ f) by congruence.
  exists f, F. do 4 (split; [done|]). split.
  - intros data. unfold File_updateContent.
    rewrite (Hheap f) by (by exists F). rewrite decide_True, HF by done.
    simpl. eexists. split; [done|]. simpl. by apply lookup_insert_ne.
  - intros cmds s2 Hrun2.
    destruct (snapshot_frozen cmds s1 s2 c e HI1 Hin He Hrun2) as [Hc2 Hfrozen].
    do 2 (split; [done|]). intros data s3 Hup.
    by rewrite (File_updateContent_other _ _ _ _ _ Hup).
Qed.

Lemma C2_snapshot_frozen_at_commit_witness :
  reachable ex_staged ∧
  Repository_commit "first" ex_now ex_staged = Some ex_committed ∧
  dirty_files ex_staged ≠ [] ∧
  ∃ c, commits ex_committed = commits ex_staged ++ [c] ∧
    Forall (λ e, ∃ f F,
        f ∈ dirty_files ex_staged ∧ heap ex_staged !! f = Some F ∧
        File_name F = e.1 ∧
        heap ex_committed !! e.2 =
          Some (mkFile (File_name F) (File_stagedContent F)
                       (File_stagedContent F) false) ∧
        (∀ data, ∃ s3, File_updateContent f data ex_committed = Some s3 ∧
                       heap s3 !! e.2 = heap ex_committed !! e.2) ∧
        ∀ cmds s2, run cmds ex_committed = Some s2 →
          c ∈ commits s2 ∧
          heap s2 !! e.2 = heap ex_committed !! e.2 ∧
          ∀ data s3, File_updateContent f data s2 = Some s3 →
                     heap s3 !! e.2 = heap ex_committed !! e.2)
      (Commit_files c).
Proof.
  assert (Hrun : Repository_commit "first" ex_now ex_staged = Some ex_committed)
    by (vm_compute; reflexivity).
  assert (HD : dirty_files ex_staged ≠ []) by (vm_compute; discriminate).
  split; [exact ex_staged_reachable|]. split; [exact Hrun|]. split; [exact HD|].
  exact (C2_snapshot_frozen_at_commit "first" ex_now ex_staged ex_committed
           ex_staged_reachable Hrun HD).
Defined.

(** C3. After any session on a fresh repository the history carries the
    ids 1, 2, ..., n in this order, n being the number of commands of the
    session that made a commit: the commit at (0-based) position [k] has
    id [k + 1], the ids are pairwise distinct, and the counter is [n + 1].
    A further [commit] that finds a modified staged file and returns
    appends one commit, with the id [n + 1] and the given message, and
    advances the counter by one; a [commit] that finds none, and every
    other command, leaves the history and the counter as they are; a
    longer run only appends to the history. *)
Theorem C3_commit_ids_count_from_one {fsys : FileSystem} d cmds s :
  session d cmds = Some s →
  (∃ s0, Repository_init d = Some s0 ∧
         length (commits s) = successful_commits cmds s0) ∧
  Commit_id <$> commits s = Z.of_nat <$> seq 1 (length (commits s)) ∧
  (∀ k c, commits s !! k = Some c → Commit_id c = Z.of_nat (k + 1)) ∧
  NoDup (Commit_id <$> commits s) ∧
  nextCommitId s = Z.of_nat (length (commits s)) + 1 ∧
  (∀ msg now s', Repository_commit msg now s = Some s' →
     dirty_files s ≠ [] →
     ∃ c, commits s' = commits s ++ [c] ∧
          Commit_id c = Z.of_nat (length (commits s) + 1) ∧
          Commit_message c = msg ∧
          nextCommitId s' = nextCommitId s + 1) ∧
  (∀ cmd s', VCS_runCommand cmd s = Some s' →
     is_commit cmd = false ∨ dirty_files s = [] →
     commits s' = commits s ∧ nextCommitId s' = nextCommitId s) ∧
  (∀ cmds' s', run cmds' s = Some s' → commits s `prefix_of` commits s').
Proof.
  intros Hrun.
  assert (HI : Inv s) by (apply reachable_Inv; by exists d, cmds).
  split; [|split; [apply HI|split; [|split; [by apply Inv_ids_NoDup
                                            |split; [apply HI|split; [|split]]]]]].
  - unfold session in Hrun. destruct (Repository_init d) as [s0|] eqn:H0; [|done].
    rewrite option_bind_Some in Hrun. exists s0. split; [done|].
    rewrite (run_history_length cmds s0 s (Inv_init d s0 H0) Hrun).
    unfold Repository_init in H0.
    destruct (fs_create_directory ".vcs" d); [|done]. simpl in H0.
    by injection H0 as <-.
  - intros k c Hk.
    assert (Hid : (Commit_id <$> commits s) !! k = Some (Commit_id c))
      by (by rewrite list_lookup_fmap, Hk).
    rewrite (inv_ids s HI), list_lookup_fmap in Hid.
    destruct (seq 1 (length (commits s)) !! k) as [i|] eqn:Hi; [|done].
    apply lookup_seq in Hi as [-> _]. simpl in Hid. injection Hid as <-.
    f_equal. lia.
  - intros msg now s' Hrun' HD. pose proof (inv_staged s HI) as Hv.
    destruct (Repository_commit_success _ _ _ _ Hrun' HD) as (_ & Hlt & sm & Hmk).
    destruct (Repository_commit_spec msg now s sm Hv HD Hlt Hmk)
      as (c & s1 & Hs1 & Hc & Hid & Hmsg & _ & Hn & _).
    rewrite Hs1 in Hrun'. injection Hrun' as <-. exists c.
    split; [done|]. split; [|done]. rewrite Hid, (inv_next s HI). lia.
  - intros cmd s' Hrun' Hno.
    pose proof (VCS_runCommand_commits cmd s s' HI Hrun') as Hstep.
    destruct Hno as [Hno|Hno].
    + by rewrite Hno in Hstep.
    + rewrite bool_decide_false in Hstep by (by intros ?).
      by rewrite andb_false_r in Hstep.
  - intros cmds' s' Hrun'. by destruct (run_step cmds' s s' HI Hrun') as [_ [? _]].
Qed.

Lemma C3_commit_ids_count_from_one_witness :
  session ex_disk (ex_twice_cmds ++ [CmdCommit "both" ex_now])
    = Some ex_twice_committed ∧
  (∃ s0, Repository_init ex_disk = Some s0 ∧
         length (commits ex_twice_committed)
         = successful_commits (ex_twice_cmds ++ [CmdCommit "both" ex_now]) s0) ∧
  Commit_id <$> commits ex_twice_committed
    = Z.of_nat <$> seq 1 (length (commits ex_twice_committed)) ∧
  (∀ k c, commits ex_twice_committed !! k = Some c →
          Commit_id c = Z.of_nat (k + 1)) ∧
  NoDup (Commit_id <$> commits ex_twice_committed) ∧
  nextCommitId ex_twice_committed
    = Z.of_nat (length (commits ex_twice_committed)) + 1 ∧
  (∀ msg now s', Repository_commit msg now ex_twice_committed = Some s' →
     dirty_files ex_twice_committed ≠ [] →
     ∃ c, commits s' = commits ex_twice_committed ++ [c] ∧
          Commit_id c = Z.of_nat (length (commits ex_twice_committed) + 1) ∧
          Commit_message c = msg ∧
          nextCommitId s' = nextCommitId ex_twice_committed + 1) ∧
  (∀ cmd s', VCS_runCommand cmd ex_twice_committed = Some s' →
     is_commit cmd = false ∨ dirty_files ex_twice_committed = [] →
     commits s' = commits ex_twice_committed ∧
     nextCommitId s' = nextCommitId ex_twice_committed) ∧
  (∀ cmds' s', run cmds' ex_twice_committed = Some s' →
               commits ex_twice_committed `prefix_of` commits s').
Proof.
  split; [exact ex_twice_committed_session|].
  exact (C3_commit_ids_count_from_one ex_disk _ ex_twice_committed
           ex_twice_committed_session).
Defined.

(** C4. When every staged pointer is live and none of the staged files is
    modified, [commit] returns having only printed its message: the
    history (hence its length), the counter, the staging vector, the
    objects and the file system are as before. *)
Theorem C4_commit_without_changes_is_noop {fsys : FileSystem} msg now s :
  (∀ f, f ∈ stagedFiles s →
        ∃ F, heap s !! f = Some F ∧ File_modified F = false) →
  ∃ s', Repository_commit msg now s = Some s' ∧
    s' = print nothing_to_commit s ∧
    cout s' = cout s ++ [nothing_to_commit] ∧
    commits s' = commits s ∧
    length (commits s') = length (commits s) ∧
    nextCommitId s' = nextCommitId s ∧
    stagedFiles s' = stagedFiles s ∧
    workingFiles s' = workingFiles s ∧
    heap s' = heap s ∧ disk s' = disk s ∧ fsops s' = fsops s.
Proof.
  intros Hclean. exists (print nothing_to_commit s).
  split; [|by repeat split]. apply Repository_commit_noop.
  - apply Forall_forall. intros f Hf. destruct (Hclean f Hf) as (F & HF & _).
    by exists F.
  - unfold dirty_files.
    induction (stagedFiles s) as [|f l IH]; [done|].
    rewrite filter_cons_False.
    + apply IH. intros g Hg. apply Hclean. by right.
    + destruct (Hclean f) as (F & HF & Hm); [left|].
      unfold isModified. rewrite HF. simpl. rewrite Hm. intros [].
Qed.

Lemma C4_commit_without_changes_is_noop_witness :
  (∀ f, f ∈ stagedFiles ex_added →
        ∃ F, heap ex_added !! f = Some F ∧ File_modified F = false) ∧
  ∃ s', Repository_commit "empty" ex_now ex_added = Some s' ∧
    s' = print nothing_to_commit ex_added ∧
    cout s' = cout ex_added ++ [nothing_to_commit] ∧
    commits s' = commits ex_added ∧
    length (commits s') = length (commits ex_added) ∧
    nextCommitId s' = nextCommitId ex_added ∧
    stagedFiles s' = stagedFiles ex_added ∧
    workingFiles s' = workingFiles ex_added ∧
    heap s' = heap ex_added ∧ disk s' = disk ex_added ∧
    fsops s' = fsops ex_added.
Proof.
  assert (Hclean : ∀ f, f ∈ stagedFiles ex_added →
            ∃ F, heap ex_added !! f = Some F ∧ File_modified F = false).
  { assert (Hst : stagedFiles ex_added = [1%positive])
      by (vm_compute; reflexivity).
    intros f Hf. rewrite Hst in Hf. apply list_elem_of_singleton in Hf as ->.
    exists (File_ctor "a.txt" ("hello" +:+ endl)).
    split; vm_compute; reflexivity. }
  split; [exact Hclean|].
  exact (C4_commit_without_changes_is_noop "empty" ex_now ex_added Hclean).
Defined.

(** C5. The code at the input where it departs from the claim: with
    [a.txt] on disk, two [add a.txt] commands on a fresh repository return
    with two entries called [a.txt] in the staging vector and in the
    working set, two distinct objects.  Both membership tests of the [add]
    branch ran and found nothing: [loadFromDisk] had made a new object for
    each command. *)
Theorem C5_add_same_name_twice :
  ∃ s, session ex_disk [CmdAdd "a.txt" "n" "n" ""; CmdAdd "a.txt" "n" "n" ""]
       = Some s ∧
       stagedFiles s = [1%positive; 2%positive] ∧
       workingFiles s = [1%positive; 2%positive] ∧
       names_of s (stagedFiles s) = ["a.txt"; "a.txt"] ∧
       names_of s (workingFiles s) = ["a.txt"; "a.txt"] ∧
       cout s = ["Added file to staging: a.txt" +:+ endl;
                 "Added file to staging: a.txt" +:+ endl].
Proof. eexists. split; [vm_compute; reflexivity|]. by vm_compute. Qed.

(** C6, as stated, fails: with [b.txt] staged before [a.txt], both
    modified, the commit writes [b.txt] first; no arrangement of the
    selected files that is sorted by name yields the calls the commit
    makes. *)
Lemma C6_sorted_by_name_counterexample :
  reachable ex_ba ∧
  names_of ex_ba (dirty_files ex_ba) = ["b.txt"; "a.txt"] ∧
  ∃ s', Repository_commit "m" ex_now ex_ba = Some s' ∧
    fsops s' = fsops ex_ba ++
      [MkDir ".vcs/commit_1";
       Write ".vcs/commit_1/b.txt" "2"; Write "b.txt" "2";
       Write ".vcs/commit_1/a.txt" "1"; Write "a.txt" "1"] ∧
    ¬ ∃ D, D ≡ₚ dirty_files ex_ba ∧
           name_sorted (names_of ex_ba D) ∧
           fsops s' = fsops ex_ba ++
             MkDir (commit_path (nextCommitId ex_ba))
             :: commit_ops (commit_path (nextCommitId ex_ba)) (heap ex_ba) D.
Proof.
  split; [exact ex_ba_reachable|].
  split; [by vm_compute|].
  eexists. split; [vm_compute; reflexivity|]. split; [by vm_compute|].
  intros (D & Hperm & Hsorted & Hops).
  assert (HD : dirty_files ex_ba = [1%positive; 2%positive])
    by (vm_compute; reflexivity).
  rewrite HD in Hperm. symmetry in Hperm.
  apply Permutation_length_2_inv in Hperm as [-> | ->].
  - assert (Hn : names_of ex_ba [1%positive; 2%positive] = ["b.txt"; "a.txt"])
      by (vm_compute; reflexivity).
    rewrite Hn in Hsorted. inversion_clear Hsorted as [|? ? _ Hhd].
    inversion_clear Hhd as [|? ? Hle]. apply Hle. reflexivity.
  - vm_compute in Hops. discriminate Hops.
Qed.

(** C6, amended. A commit that returns with a non-empty selection
    processes the selected files one after the other in the order of the
    staging vector.  The selection D is what the first loop collects, the
    modified files in the order in which they stand in [stagedFiles].
    After the directory of the commit is made, the calls on the file
    system are, for each file of D in this order, the write of its archive
    copy and then the write of its canonical file, both with the staged
    content, and the file system is left as these calls leave it.  The
    loop goes file by file: for every split of D into a first part and a
    rest, the loop over the first part returns in a state in which the
    writes of the first part, and no others, have been made, its files
    have had [clearModified], and every other object is untouched; the
    loop over the rest runs from there.  In the end every file of D has
    had [clearModified]. *)
Theorem C6_commit_processes_in_staging_order {fsys : FileSystem}
    msg now s s' :
  Repository_commit msg now s = Some s' →
  dirty_files s ≠ [] →
  commit_select (stagedFiles s) s = Some (dirty_files s) ∧
  fsops s' = fsops s ++
    MkDir (commit_path (nextCommitId s))
    :: (f ← dirty_files s;
        from_option
          (λ F, [Write (commit_path (nextCommitId s) +:+ "/" +:+ File_name F)
                       (File_stagedContent F);
                 Write (File_name F) (File_stagedContent F)])
          [] (heap s !! f)) ∧
  (∀ f, f ∈ dirty_files s →
        ∃ F, heap s !! f = Some F ∧ heap s' !! f = Some (File_committed F)) ∧
  ∃ sm s2,
    create_directory (commit_path (nextCommitId s)) s = Some sm ∧
    commit_write (commit_path (nextCommitId s)) (dirty_files s) sm = Some s2 ∧
    disk s' = disk s2 ∧
    disk s2 = replay (disk sm)
                (commit_ops (commit_path (nextCommitId s)) (heap s)
                   (dirty_files s)) ∧
    ∀ D1 D2, dirty_files s = D1 ++ D2 →
      ∃ s1, commit_write (commit_path (nextCommitId s)) D1 sm = Some s1 ∧
        commit_write (commit_path (nextCommitId s)) D2 s1 = Some s2 ∧
        fsops s1 = fsops s ++ MkDir (commit_path (nextCommitId s))
                     :: commit_ops (commit_path (nextCommitId s)) (heap s) D1 ∧
        disk s1 = replay (disk sm)
                    (commit_ops (commit_path (nextCommitId s)) (heap s) D1) ∧
        ∀ p, heap s1 !! p = if decide (p ∈ D1)
                            then File_committed <$> heap s !! p
                            else heap s !! p.
Proof.
  intros Hrun HD.
  destruct (Repository_commit_success _ _ _ _ Hrun HD) as (Hv & Hlt & sm & Hmk).
  destruct (Repository_commit_spec msg now s sm Hv HD Hlt Hmk)
    as (c & s'' & Hs'' & _ & _ & _ & _ & _ & _ & _ & Hheap & _ & _ & _ & Hops
        & Hdisk & _).
  rewrite Hs'' in Hrun. injection Hrun as ->.
  destruct (Repository_commit_loop msg now s s' Hs'' HD)
    as (sm' & s2 & Hmk' & Hw & Hd2 & _).
  rewrite Hmk in Hmk'. injection Hmk' as <-.
  destruct (create_directory_spec _ _ _ Hmk) as (_ & Hh1 & Hops1 & _).
  assert (HvD : ∀ D, D ⊆ dirty_files s → Forall (valid sm) D).
  { intros D HDsub. apply Forall_forall. intros f Hf%HDsub.
    rewrite Forall_forall in Hv. unfold valid. rewrite Hh1. apply Hv.
    unfold dirty_files in Hf. by apply list_elem_of_filter in Hf as [_ ?]. }
  split; [by apply commit_select_Some|]. split; [exact Hops|]. split.
  { intros f Hf.
    pose proof (HvD _ (reflexivity _)) as HvD'. rewrite Forall_forall in HvD'.
    destruct (HvD' f Hf) as [F HF]. rewrite Hh1 in HF.
    exists F. split; [done|]. rewrite Hheap by (by exists F).
    by rewrite decide_True, HF. }
  exists sm, s2. do 3 (split; [done|]). split; [by rewrite <- Hd2|].
  intros D1 D2 HDeq.
  destruct (commit_write_spec (commit_path (nextCommitId s)) D1 sm)
    as (s1 & Hs1 & Hheap1 & Hops1' & Hdisk1 & _).
  { apply HvD. rewrite HDeq. intros f Hf. apply elem_of_app. by left. }
  exists s1. rewrite Hh1 in Hheap1, Hops1', Hdisk1.
  split; [done|]. split.
  { rewrite HDeq, commit_write_app, Hs1 in Hw. exact Hw. }
  split; [by rewrite Hops1', Hops1, <- app_assoc|]. by split.
Qed.

Lemma C6_commit_processes_in_staging_order_witness :
  Repository_commit "m" ex_now ex_ba = Some ex_ba_committed ∧
  dirty_files ex_ba ≠ [] ∧
  commit_select (stagedFiles ex_ba) ex_ba = Some (dirty_files ex_ba) ∧
  fsops ex_ba_committed = fsops ex_ba ++
    MkDir (commit_path (nextCommitId ex_ba))
    :: (f ← dirty_files ex_ba;
        from_option
          (λ F, [Write (commit_path (nextCommitId ex_ba) +:+ "/"
                        +:+ File_name F) (File_stagedContent F);
                 Write (File_name F) (File_stagedContent F)])
          [] (heap ex_ba !! f)) ∧
  (∀ f, f ∈ dirty_files ex_ba →
        ∃ F, heap ex_ba !! f = Some F ∧ heap ex_ba_committed !! f = Some (File_committed F)) ∧
  ∃ sm s2,
    create_directory (commit_path (nextCommitId ex_ba)) ex_ba = Some sm ∧
    commit_write (commit_path (nextCommitId ex_ba)) (dirty_files ex_ba) sm
      = Some s2 ∧
    disk ex_ba_committed = disk s2 ∧
    disk s2 = replay (disk sm)
                (commit_ops (commit_path (nextCommitId ex_ba)) (heap ex_ba)
                   (dirty_files ex_ba)) ∧
    ∀ D1 D2, dirty_files ex_ba = D1 ++ D2 →
      ∃ s1, commit_write (commit_path (nextCommitId ex_ba)) D1 sm = Some s1 ∧
        commit_write (commit_path (nextCommitId ex_ba)) D2 s1 = Some s2 ∧
        fsops s1 = fsops ex_ba ++ MkDir (commit_path (nextCommitId ex_ba))
                     :: commit_ops (commit_path (nextCommitId ex_ba))
                          (heap ex_ba) D1 ∧
        disk s1 = replay (disk sm)
                    (commit_ops (commit_path (nextCommitId ex_ba))
                       (heap ex_ba) D1) ∧
        ∀ p, heap s1 !! p = if decide (p ∈ D1)
                            then File_committed <$> heap ex_ba !! p
                            else heap ex_ba !! p.
Proof.
  assert (Hrun : Repository_commit "m" ex_now ex_ba = Some ex_ba_committed)
    by (vm_compute; reflexivity).
  assert (HD : dirty_files ex_ba ≠ []) by (vm_compute; discriminate).
  split; [exact Hrun|]. split; [exact HD|].
  exact (C6_commit_processes_in_staging_order "m" ex_now ex_ba ex_ba_committed Hrun HD).
Defined.

(** C7. Every file [f] selected by a commit that returns (a staged file
    with [modified] set) has afterwards [modified] cleared and as content
    what it had staged before the commit; its staged content and its name
    are unchanged. *)
Theorem C7_commit_clears_modified {fsys : FileSystem} msg now s s' f :
  Repository_commit msg now s = Some s' →
  f ∈ dirty_files s →
  ∃ F F', heap s !! f = Some F ∧ File_modified F = true ∧
    heap s' !! f = Some F' ∧
    File_modified F' = false ∧
    File_content F' = File_stagedContent F ∧
    File_stagedContent F' = File_stagedContent F ∧
    File_name F' = File_name F.
Proof.
  intros Hrun Hf.
  assert (HD : dirty_files s ≠ []) by (intros H; rewrite H in Hf; inversion Hf).
  destruct (Repository_commit_success _ _ _ _ Hrun HD) as (Hv & Hlt & sm & Hmk).
  destruct (Repository_commit_spec msg now s sm Hv HD Hlt Hmk)
    as (c & s'' & Hs'' & _ & _ & _ & _ & _ & _ & _ & Hheap & _).
  rewrite Hs'' in Hrun. injection Hrun as ->.
  pose proof Hf as Hf'. unfold dirty_files in Hf'.
  apply list_elem_of_filter in Hf' as [Hm Hst]. unfold isModified in Hm.
  destruct (heap s !! f) as [F|] eqn:HF; [|done].
  exists F, (File_committed F). split; [done|]. split; [by destruct (File_modified F)|].
  split; [|done]. rewrite Hheap by (by exists F).
  rewrite decide_True by done. by rewrite HF.
Qed.

Lemma C7_commit_clears_modified_witness :
  Repository_commit "first" ex_now ex_staged = Some ex_committed ∧
  1%positive ∈ dirty_files ex_staged ∧
  ∃ F F', heap ex_staged !! 1%positive = Some F ∧ File_modified F = true ∧
    heap ex_committed !! 1%positive = Some F' ∧
    File_modified F' = false ∧
    File_content F' = File_stagedContent F ∧
    File_stagedContent F' = File_stagedContent F ∧
    File_name F' = File_name F.
Proof.
  assert (Hrun : Repository_commit "first" ex_now ex_staged = Some ex_committed)
    by (vm_compute; reflexivity).
  assert (Hf : 1%positive ∈ dirty_files ex_staged) by (vm_compute; left).
  split; [exact Hrun|]. split; [exact Hf|].
  exact (C7_commit_clears_modified "first" ex_now ex_staged ex_committed
           1%positive Hrun Hf).
Defined.

(** C8. Checkout of an id that no commit of the history carries returns
    having only printed its message: the working set, the history, the
    staging vector, the counter, the objects and the file system are as
    before.  The state it returns is the state before with one more line
    on the console, so it stays within the invariant of the reachable
    states, and a later command is stopped in it only by what would have
    stopped it before the checkout. *)
Theorem C8_checkout_unknown_id {fsys : FileSystem} commitId s :
  commitId ∉ Commit_id <$> commits s →
  ∃ s', Repository_checkout commitId s = Some s' ∧
    s' = print not_found s ∧
    cout s' = cout s ++ [not_found] ∧
    workingFiles s' = workingFiles s ∧
    commits s' = commits s ∧
    stagedFiles s' = stagedFiles s ∧
    nextCommitId s' = nextCommitId s ∧
    heap s' = heap s ∧ disk s' = disk s ∧ fsops s' = fsops s ∧
    (reachable s → reachable s') ∧
    (Inv s → Inv s' ∧
       ∀ cmd, VCS_runCommand cmd s' = None ↔ VCS_runCommand cmd s = None).
Proof.
  intros Hnin. exists (print not_found s).
  assert (Hrun : Repository_checkout commitId s = Some (print not_found s))
    by (by apply Repository_checkout_not_found).
  split; [done|]. do 9 (split; [done|]). split.
  - intros Hreach. apply (reachable_run [CmdCheckout commitId] s); [done|].
    simpl. by rewrite Hrun.
  - intros HI.
    assert (HI' : Inv (print not_found s)).
    { by apply (only_cout_step s); [|apply only_cout_print]. }
    split; [done|]. intros cmd.
    rewrite (VCS_runCommand_stops cmd _ HI'), (VCS_runCommand_stops cmd _ HI).
    by destruct cmd.
Qed.

Lemma C8_checkout_unknown_id_witness :
  (7 ∉ Commit_id <$> commits ex_committed) ∧
  ∃ s', Repository_checkout 7 ex_committed = Some s' ∧
    s' = print not_found ex_committed ∧
    cout s' = cout ex_committed ++ [not_found] ∧
    workingFiles s' = workingFiles ex_committed ∧
    commits s' = commits ex_committed ∧
    stagedFiles s' = stagedFiles ex_committed ∧
    nextCommitId s' = nextCommitId ex_committed ∧
    heap s' = heap ex_committed ∧ disk s' = disk ex_committed ∧
    fsops s' = fsops ex_committed ∧
    (reachable ex_committed → reachable s') ∧
    (Inv ex_committed → Inv s' ∧
       ∀ cmd, VCS_runCommand cmd s' = None
              ↔ VCS_runCommand cmd ex_committed = None).
Proof.
  assert (Hnin : 7 ∉ Commit_id <$> commits ex_committed).
  { assert (Hids : Commit_id <$> commits ex_committed = [1])
      by (vm_compute; reflexivity).
    rewrite Hids. intros H%list_elem_of_singleton. discriminate H. }
  split; [exact Hnin|].
  exact (C8_checkout_unknown_id 7 ex_committed Hnin).
Defined.

(** C9. A commit that returns with a non-empty selection D (what its
    first loop collects) removes exactly D from the staging vector: what
    remains are the staged files outside D, in their order; no file of D
    is staged any more, and a staged file outside D is still staged and is
    the same object as before. *)
Theorem C9_commit_unstages_exactly_D {fsys : FileSystem} msg now s s' :
  Repository_commit msg now s = Some s' →
  dirty_files s ≠ [] →
  commit_select (stagedFiles s) s = Some (dirty_files s) ∧
  stagedFiles s' = filter (λ f, f ∉ dirty_files s) (stagedFiles s) ∧
  (∀ f, f ∈ dirty_files s → f ∉ stagedFiles s') ∧
  (∀ f, f ∈ stagedFiles s → f ∉ dirty_files s →
        f ∈ stagedFiles s' ∧ heap s' !! f = heap s !! f).
Proof.
  intros Hrun HD.
  destruct (Repository_commit_success _ _ _ _ Hrun HD) as (Hv & Hlt & sm & Hmk).
  destruct (Repository_commit_spec msg now s sm Hv HD Hlt Hmk)
    as (c & s'' & Hs'' & _ & _ & _ & _ & _ & Hst & _ & Hheap & _).
  rewrite Hs'' in Hrun. injection Hrun as ->.
  split; [by apply commit_select_Some|]. split; [done|]. split.
  - intros f Hf. rewrite Hst, list_elem_of_filter. tauto.
  - intros f Hf Hnd. split.
    + rewrite Hst, list_elem_of_filter. tauto.
    + rewrite Forall_forall in Hv. rewrite (Hheap f (Hv f Hf)).
      by rewrite decide_False.
Qed.

Lemma C9_commit_unstages_exactly_D_witness :
  Repository_commit "second" ex_now ex_mixed = Some ex_mixed_committed ∧
  dirty_files ex_mixed ≠ [] ∧
  commit_select (stagedFiles ex_mixed) ex_mixed
    = Some (dirty_files ex_mixed) ∧
  stagedFiles ex_mixed_committed
    = filter (λ f, f ∉ dirty_files ex_mixed) (stagedFiles ex_mixed) ∧
  (∀ f, f ∈ dirty_files ex_mixed → f ∉ stagedFiles ex_mixed_committed) ∧
  (∀ f, f ∈ stagedFiles ex_mixed → f ∉ dirty_files ex_mixed →
        f ∈ stagedFiles ex_mixed_committed ∧
        heap ex_mixed_committed !! f = heap ex_mixed !! f).
Proof.
  assert (Hrun : Repository_commit "second" ex_now ex_mixed
                 = Some ex_mixed_committed) by (vm_compute; reflexivity).
  assert (HD : dirty_files ex_mixed ≠ []) by (vm_compute; discriminate).
  split; [exact Hrun|]. split; [exact HD|].
  exact (C9_commit_unstages_exactly_D "second" ex_now ex_mixed
           ex_mixed_committed Hrun HD).
Defined.

(** C10. Checkout of a commit [c] of the history of a reachable state puts
    into the working set one object per snapshot of [c]; each of them is
    not modified and is none of the objects stored in [c].  A call of
    [updateContent] on it, right after the checkout or after any further
    commands, is defined and leaves every object stored in [c] as it was,
    and [c] stays in the history. *)
Theorem C10_checkout_gives_independent_clones {fsys : FileSystem} s c :
  reachable s → c ∈ commits s →
  ∃ s', Repository_checkout (Commit_id c) s = Some s' ∧
    length (workingFiles s') = length (Commit_files c) ∧
    Forall (λ w,
        (∃ F, heap s' !! w = Some F ∧ File_modified F = false) ∧
        Forall (λ e, e.2 ≠ w) (Commit_files c) ∧
        (∀ data, ∃ s3, File_updateContent w data s' = Some s3 ∧
           Forall (λ e, heap s3 !! e.2 = heap s !! e.2) (Commit_files c)) ∧
        (∀ cmds s2 data s3,
           run cmds s' = Some s2 →
           File_updateContent w data s2 = Some s3 →
           c ∈ commits s2 ∧
           Forall (λ e, heap s3 !! e.2 = heap s !! e.2) (Commit_files c)))
      (workingFiles s').
Proof.
  intros Hreach Hc. pose proof (reachable_Inv s Hreach) as HI.
  destruct (Repository_checkout_restored s c HI Hc)
    as (s' & Hs' & Hall & _).
  destruct (VCS_runCommand_step (CmdCheckout (Commit_id c)) s s' HI Hs')
    as [HI' [_ Hframe]].
  assert (Hc' : c ∈ commits s').
  { destruct (Repository_checkout_found s c HI Hc)
      as (qs & s'' & Hs'' & _ & _ & _ & _ & _ & Hcs & _).
    rewrite Hs'' in Hs'. injection Hs' as ->. by rewrite Hcs. }
  assert (Hkeep : ∀ e, e ∈ Commit_files c → heap s' !! e.2 = heap s !! e.2).
  { intros e He.
    destruct (Inv_snapshot_ok s c e HI Hc He) as (Hs & Hw & F & HF & _).
    apply Hframe; [by exists F|done|done]. }
  assert (Hne : ∀ w e, w ∈ workingFiles s' → e ∈ Commit_files c → e.2 ≠ w).
  { intros w e Hw He Heq.
    destruct (Inv_snapshot_ok s' c e HI' Hc' He) as (_ & Hnw & _).
    apply Hnw. by rewrite Heq. }
  exists s'. split; [done|]. split; [symmetry; by eapply Forall2_length|].
  apply Forall_forall. intros w Hw.
  split; [|split; [|split]].
  - apply list_elem_of_lookup in Hw as [i Hi].
    destruct (Forall2_lookup_r _ _ _ _ _ Hall Hi)
      as (e & _ & S & _ & HS & _ & _ & Hm). by exists S.
  - apply Forall_forall. intros e He. by apply Hne.
  - intros data. destruct (Inv_valid_root s' w HI') as [F HF]; [by right|].
    unfold File_updateContent. rewrite HF. simpl. eexists. split; [done|].
    apply Forall_forall. intros e He. simpl.
    rewrite lookup_insert_ne by (intros Heq; by eapply Hne). by apply Hkeep.
  - intros cmds s2 data s3 Hrun Hup. split; [by eapply commit_stays|].
    apply Forall_forall. intros e He.
    rewrite (File_updateContent_other _ _ _ _ _ Hup) by (by apply Hne).
    destruct (snapshot_frozen cmds s' s2 c e HI' Hc' He Hrun) as [_ ->].
    by apply Hkeep.
Qed.

Lemma C10_checkout_gives_independent_clones_witness :
  reachable ex_committed ∧ ex_commit ∈ commits ex_committed ∧
  ∃ s', Repository_checkout (Commit_id ex_commit) ex_committed = Some s' ∧
    length (workingFiles s') = length (Commit_files ex_commit) ∧
    Forall (λ w,
        (∃ F, heap s' !! w = Some F ∧ File_modified F = false) ∧
        Forall (λ e, e.2 ≠ w) (Commit_files ex_commit) ∧
        (∀ data, ∃ s3, File_updateContent w data s' = Some s3 ∧
           Forall (λ e, heap s3 !! e.2 = heap ex_committed !! e.2)
                  (Commit_files ex_commit)) ∧
        (∀ cmds s2 data s3,
           run cmds s' = Some s2 →
           File_updateContent w data s2 = Some s3 →
           ex_commit ∈ commits s2 ∧
           Forall (λ e, heap s3 !! e.2 = heap ex_committed !! e.2)
                  (Commit_files ex_commit)))
      (workingFiles s').
Proof.
  assert (Hc : ex_commit ∈ commits ex_committed) by (vm_compute; left).
  split; [exact ex_committed_reachable|]. split; [exact Hc|].
  exact (C10_checkout_gives_independent_clones ex_committed ex_commit
           ex_committed_reachable Hc).
Defined.

(** * Further properties of the code *)

(** ** Reading a file line by line *)

Lemma string_app_cons c a b : String c a +:+ b = String c (a +:+ b).
Proof. done. Qed.

Lemma string_app_nil_r a : a +:+ "" = a.
Proof. induction a as [|c a IH]; [done|]. by rewrite string_app_cons, IH. Qed.

Lemma string_app_assoc a b c : (a +:+ b) +:+ c = a +:+ (b +:+ c).
Proof.
  induction a as [|x a IH]; [done|]. by rewrite !string_app_cons, IH.
Qed.

Lemma string_snoc_not_nil t c : t +:+ String c "" ≠ "".
Proof. by destruct t. Qed.

Lemma string_snoc_inj t c t' c' :
  t +:+ String c "" = t' +:+ String c' "" → t = t' ∧ c = c'.
Proof.
  revert t'. induction t as [|x t IH]; intros [|y t'] Heq.
  - by injection Heq as ->.
  - injection Heq as -> Heq. symmetry in Heq.
    by apply string_snoc_not_nil in Heq.
  - injection Heq as -> Heq. by apply string_snoc_not_nil in Heq.
  - injection Heq as -> Heq. destruct (IH t' Heq) as [-> ->]. done.
Qed.

(** One [getline] takes a line off the text, and the loaded content of the
    text is that line, a line feed, and the loaded content of the rest. *)
Lemma getline_split_spec c s :
  getline_all (String c s)
    = (getline_split (String c s)).1 +:+ endl
      +:+ getline_all (getline_split (String c s)).2 ∧
  (String.length (getline_split (String c s)).2 < String.length (String c s))%nat.
Proof.
  revert c. induction s as [|c' s IH]; intros c.
  - simpl. destruct (decide (c = newline)) as [->|Hne]; simpl;
      (split; [reflexivity|lia]).
  - destruct (IH c') as [IHeq IHlen].
    change (getline_all (String c (String c' s)))
      with (String c (getline_all (String c' s))).
    change (getline_split (String c (String c' s)))
      with (if decide (c = newline) then (EmptyString, String c' s)
            else let '(line, rest) := getline_split (String c' s) in
                 (String c line, rest)).
    destruct (decide (c = newline)) as [->|Hne].
    + split; [reflexivity|simpl; lia].
    + destruct (getline_split (String c' s)) as [line rest]. simpl in *.
      split; [|lia]. rewrite IHeq. by rewrite string_app_cons.
Qed.

Lemma loadFromDisk_loop_spec fuel : ∀ unread content,
  (String.length unread ≤ fuel)%nat →
  loadFromDisk_loop fuel unread content = content +:+ getline_all unread.
Proof.
  induction fuel as [|fuel IH]; intros unread content Hlen.
  - destruct unread; [|simpl in Hlen; lia]. simpl. by rewrite string_app_nil_r.
  - destruct unread as [|c s]; [simpl; by rewrite string_app_nil_r|].
    destruct (getline_split_spec c s) as [Heq Hlt].
    change (loadFromDisk_loop (S fuel) (String c s) content)
      with (let '(line, rest) := getline_split (String c s) in
            loadFromDisk_loop fuel rest (content +:+ line +:+ endl)).
    destruct (getline_split (String c s)) as [line rest].
    cbv beta iota delta [fst snd] in Heq, Hlt.
    rewrite IH by (simpl in Hlen, Hlt; lia).
    rewrite Heq. by rewrite !string_app_assoc.
Qed.

(** X1. The reading loop of [loadFromDisk], run until [getline] fails,
    computes [getline_all]: for every text, as many iterations as the text
    has characters are enough, and more iterations change nothing. *)
Theorem X1_loadFromDisk_loop_reads_getline_all data fuel :
  (String.length data ≤ fuel)%nat →
  loadFromDisk_loop fuel data "" = getline_all data ∧
  loadFromDisk_loop fuel data "" = loadFromDisk_loop (String.length data) data "".
Proof.
  intros Hlen. by rewrite !loadFromDisk_loop_spec.
Qed.

Lemma X1_loadFromDisk_loop_reads_getline_all_witness :
  (String.length "a" ≤ 3)%nat ∧
  loadFromDisk_loop 3 "a" "" = getline_all "a" ∧
  loadFromDisk_loop 3 "a" "" = loadFromDisk_loop (String.length "a") "a" "".
Proof.
  assert (Hlen : (String.length "a" ≤ 3)%nat) by (vm_compute; lia).
  split; [exact Hlen|].
  exact (X1_loadFromDisk_loop_reads_getline_all "a" 3 Hlen).
Defined.

Lemma getline_all_snoc s c :
  getline_all (s +:+ String c "")
    = s +:+ String c (if decide (c = newline) then "" else endl).
Proof.
  induction s as [|x s IH]; [done|].
  rewrite !string_app_cons.
  change (getline_all (String x (s +:+ String c "")))
    with (String x (match s +:+ String c "" with
                    | EmptyString => if decide (x = newline) then "" else endl
                    | _ => getline_all (s +:+ String c "")
                    end)).
  rewrite IH. by destruct s.
Qed.

(** X2. What [loadFromDisk] makes of a text: the empty text stays empty, a
    text that ends with a line feed is taken as it is, any other text gets
    one line feed appended; loading what was loaded changes nothing. *)
Theorem X2_getline_all_terminates_last_line :
  getline_all "" = "" ∧
  (∀ s, getline_all (s +:+ endl) = s +:+ endl) ∧
  (∀ s c, c ≠ newline →
     getline_all (s +:+ String c "") = s +:+ String c "" +:+ endl) ∧
  (∀ s, getline_all (getline_all s) = getline_all s).
Proof.
  split; [done|]. split; [|split].
  - intros s. unfold endl. rewrite getline_all_snoc. by rewrite decide_True.
  - intros s c Hc. rewrite getline_all_snoc. by rewrite decide_False.
  - intros s.
    assert (Hcases : s = "" ∨ ∃ s' c, s = s' +:+ String c "").
    { induction s as [|x s IH]; [by left|]. right.
      destruct IH as [->|(s' & c & ->)]; [by exists "", x|].
      by exists (String x s'), c. }
    destruct Hcases as [->|(s' & c & ->)]; [done|].
    rewrite getline_all_snoc. destruct (decide (c = newline)) as [->|Hne].
    + rewrite getline_all_snoc. by rewrite decide_True.
    + change (s' +:+ String c endl) with (s' +:+ String c (String newline "")).
      replace (s' +:+ String c (String newline ""))
        with ((s' +:+ String c "") +:+ String newline "")
        by (by rewrite string_app_assoc).
      rewrite getline_all_snoc. by rewrite decide_True.
Qed.

Lemma X2_getline_all_terminates_last_line_witness :
  "b"%char ≠ newline ∧
  getline_all ("a" +:+ String "b" "") = "a" +:+ String "b" "" +:+ endl.
Proof.
  assert (H : "b"%char ≠ newline) by (vm_compute; discriminate).
  split; [exact H|].
  exact (proj1 (proj2 (proj2 X2_getline_all_terminates_last_line))
           "a" "b"%char H).
Defined.

(** X3. Saving a file and loading it again, when the write has taken
    effect (afterwards [fs::exists] finds the name, and the stream reads
    back what was written): [saveToDisk] makes one write of the committed
    content under the file's name, and [loadFromDisk] of that name then
    makes a new, unmodified object whose content and staged content are
    the saved content with its last line terminated.  The object that was
    saved is untouched; the content comes back unchanged exactly when it
    is empty or ends with a line feed. *)
Theorem X3_save_then_load_terminates_last_line {fsys : FileSystem}
    f F (s : State) :
  heap s !! f = Some F →
  fs_exists (File_name F)
    (fs_write (File_name F) (File_content F) (disk s)) = Some true →
  fs_read (File_name F)
    (fs_write (File_name F) (File_content F) (disk s)) = File_content F →
  ∃ s1 p s2,
    File_saveToDisk f s = Some s1 ∧
    disk s1 = fs_write (File_name F) (File_content F) (disk s) ∧
    fsops s1 = fsops s ++ [Write (File_name F) (File_content F)] ∧
    File_loadFromDisk (File_name F) s1 = Some (Some p, s2) ∧
    p ≠ f ∧
    heap s2 !! p = Some (mkFile (File_name F) (getline_all (File_content F))
                                (getline_all (File_content F)) false) ∧
    heap s2 !! f = Some F ∧
    (getline_all (File_content F) = File_content F ↔
     File_content F = "" ∨ ∃ t, File_content F = t +:+ endl).
Proof.
  intros HF Hex Hread.
  assert (Hp : fresh (dom (heap s)) ≠ f).
  { intros Heq. pose proof (fresh_lookup_None (heap s)) as Hn.
    rewrite Heq in Hn. congruence. }
  eexists (ofstream_write (File_name F) (File_content F) s), _, _.
  unfold File_saveToDisk, File_loadFromDisk. rewrite HF. simpl.
  rewrite Hex, Hread. simpl.
  do 4 (split; [done|]).
  split; [done|]. simpl. split; [apply lookup_insert_eq|].
  split; [by rewrite lookup_insert_ne|].
  generalize (File_content F). intros data.
  assert (Hcases : data = "" ∨ ∃ t c, data = t +:+ String c "").
  { induction data as [|x data IH]; [by left|]. right.
    destruct IH as [->|(t & c & ->)]; [by exists "", x|].
    by exists (String x t), c. }
  destruct Hcases as [->|(t & c & ->)]; [split; [by left|done]|].
  rewrite getline_all_snoc. destruct (decide (c = newline)) as [->|Hne].
  - split; [|done]. intros _. right. by exists t.
  - split.
    + intros Heq. apply (inj (String.app t)) in Heq. unfold endl in Heq.
      discriminate Heq.
    + intros [Hemp|[t' Ht']].
      * by apply string_snoc_not_nil in Hemp.
      * unfold endl in Ht'. by apply string_snoc_inj in Ht' as [_ ?].
Qed.

Lemma X3_save_then_load_terminates_last_line_witness :
  heap ex_committed !! 1%positive = Some (mkFile "a.txt" "hi" "hi" false) ∧
  fs_exists "a.txt" (fs_write "a.txt" "hi" (disk ex_committed)) = Some true ∧
  fs_read "a.txt" (fs_write "a.txt" "hi" (disk ex_committed)) = "hi" ∧
  ∃ s1 p s2,
    File_saveToDisk 1%positive ex_committed = Some s1 ∧
    disk s1 = fs_write "a.txt" "hi" (disk ex_committed) ∧
    fsops s1 = fsops ex_committed ++ [Write "a.txt" "hi"] ∧
    File_loadFromDisk "a.txt" s1 = Some (Some p, s2) ∧
    p ≠ 1%positive ∧
    heap s2 !! p
      = Some (mkFile "a.txt" (getline_all "hi") (getline_all "hi") false) ∧
    heap s2 !! 1%positive = Some (mkFile "a.txt" "hi" "hi" false) ∧
    (getline_all "hi" = "hi" ↔ "hi" = "" ∨ ∃ t, "hi" = t +:+ endl).
Proof.
  assert (HF : heap ex_committed !! 1%positive
               = Some (mkFile "a.txt" "hi" "hi" false))
    by (vm_compute; reflexivity).
  assert (Hex : fs_exists "a.txt" (fs_write "a.txt" "hi" (disk ex_committed))
                = Some true) by (vm_compute; reflexivity).
  assert (Hread : fs_read "a.txt" (fs_write "a.txt" "hi" (disk ex_committed))
                  = "hi") by (vm_compute; reflexivity).
  split; [exact HF|]. split; [exact Hex|]. split; [exact Hread|].
  exact (X3_save_then_load_terminates_last_line 1%positive
           (mkFile "a.txt" "hi" "hi" false) ex_committed HF Hex Hread).
Defined.

(** ** The time stamp of a commit *)

Lemma pop_back_newline_snoc s c :
  pop_back_newline (s +:+ String c "")
    = if decide (c = newline) then s else s +:+ String c "".
Proof.
  induction s as [|x s IH].
  - simpl. by destruct (decide (c = newline)).
  - rewrite string_app_cons.
    change (pop_back_newline (String x (s +:+ String c "")))
      with (match s +:+ String c "" with
            | EmptyString =>
                if decide (x = newline) then EmptyString
                else String x (s +:+ String c "")
            | _ => String x (pop_back_newline (s +:+ String c ""))
            end).
    rewrite IH. destruct s; simpl; by destruct (decide (c = newline)).
Qed.

(** X4. A commit that returns with a non-empty selection appends one
    commit carrying the given message and the answer of [ctime] without its
    final line feed: for [now = t ++ "\\n"] the time stamp is [t], and an
    answer that does not end with a line feed is kept whole. *)
Theorem X4_commit_records_message_and_timestamp {fsys : FileSystem} msg now s s' :
  Repository_commit msg now s = Some s' →
  dirty_files s ≠ [] →
  ∃ c, commits s' = commits s ++ [c] ∧
    Commit_message c = msg ∧
    (∀ t, now = t +:+ endl → Commit_timestamp c = t) ∧
    (∀ t x, now = t +:+ String x "" → x ≠ newline → Commit_timestamp c = now) ∧
    (now = "" → Commit_timestamp c = "").
Proof.
  intros Hrun HD.
  destruct (Repository_commit_success _ _ _ _ Hrun HD) as (Hv & Hlt & sm & Hmk).
  destruct (Repository_commit_spec msg now s sm Hv HD Hlt Hmk)
    as (c & s'' & Hs'' & Hc & _ & Hmsg & Hts & _).
  rewrite Hs'' in Hrun. injection Hrun as ->.
  exists c. split; [done|]. split; [done|]. rewrite Hts. split; [|split].
  - intros t ->. unfold endl. rewrite pop_back_newline_snoc.
    by rewrite decide_True.
  - intros t x -> Hx. rewrite pop_back_newline_snoc. by rewrite decide_False.
  - by intros ->.
Qed.

Lemma X4_commit_records_message_and_timestamp_witness :
  Repository_commit "first" ex_now ex_staged = Some ex_committed ∧
  dirty_files ex_staged ≠ [] ∧
  ∃ c, commits ex_committed = commits ex_staged ++ [c] ∧
    Commit_message c = "first" ∧
    (∀ t, ex_now = t +:+ endl → Commit_timestamp c = t) ∧
    (∀ t x, ex_now = t +:+ String x "" → x ≠ newline →
            Commit_timestamp c = ex_now) ∧
    (ex_now = "" → Commit_timestamp c = "").
Proof.
  assert (Hrun : Repository_commit "first" ex_now ex_staged = Some ex_committed)
    by (vm_compute; reflexivity).
  assert (HD : dirty_files ex_staged ≠ []) by (vm_compute; discriminate).
  split; [exact Hrun|]. split; [exact HD|].
  exact (X4_commit_records_message_and_timestamp "first" ex_now ex_staged
           ex_committed Hrun HD).
Defined.

(** ** The [edit] command *)

Lemma names_of_elem {fsys : FileSystem} s f F l :
  f ∈ l → heap s !! f = Some F → File_name F ∈ names_of s l.
Proof.
  intros Hf HF. unfold names_of. apply list_elem_of_omap.
  exists f. split; [done|]. by rewrite HF.
Qed.

Lemma edit_find_first {fsys : FileSystem} pre : ∀ f post fname c s F,
  Forall (valid s) pre →
  fname ∉ names_of s pre →
  heap s !! f = Some F → File_name F = fname →
  edit_find (pre ++ f :: post) fname c s = VCS_editFile f c s.
Proof.
  induction pre as [|g pre IH]; intros f post fname c s F Hv Hnin HF Hn; simpl.
  - rewrite HF. simpl. by rewrite decide_True.
  - inversion_clear Hv as [|? ? [G HG] Hv'].
    rewrite HG. simpl. unfold names_of in Hnin. simpl in Hnin.
    rewrite HG in Hnin. simpl in Hnin. apply not_elem_of_cons in Hnin as [Hne Hnin].
    rewrite decide_False by congruence. by eapply IH.
Qed.

(** X5. [edit] of a name that no file of the working set carries changes
    nothing and prints that the file was not found: the new content is not
    used, nothing is staged, and the disk is not read. *)
Theorem X5_edit_unknown_name_changes_nothing {fsys : FileSystem} fname c s :
  Forall (valid s) (workingFiles s) →
  fname ∉ names_of s (workingFiles s) →
  VCS_runCommand (CmdEdit fname c) s = Some (print file_not_found s).
Proof.
  intros Hv Hnin. simpl.
  destruct (edit_find_spec (workingFiles s) fname c s Hv)
    as [(f & F & Hf & HF & Hn & _)|[_ ->]]; [|done].
  destruct Hnin. rewrite <- Hn. by eapply names_of_elem.
Qed.

Lemma X5_edit_unknown_name_changes_nothing_witness :
  Forall (valid ex_added) (workingFiles ex_added) ∧
  ("b.txt" ∉ names_of ex_added (workingFiles ex_added)) ∧
  VCS_runCommand (CmdEdit "b.txt" "x") ex_added
    = Some (print file_not_found ex_added).
Proof.
  assert (Hwf : workingFiles ex_added = [1%positive])
    by (vm_compute; reflexivity).
  assert (Hv : Forall (valid ex_added) (workingFiles ex_added)).
  { rewrite Hwf. constructor; [|constructor].
    exists (File_ctor "a.txt" ("hello" +:+ endl)). vm_compute. reflexivity. }
  assert (Hnin : "b.txt" ∉ names_of ex_added (workingFiles ex_added)).
  { assert (Hn : names_of ex_added (workingFiles ex_added) = ["a.txt"])
      by (vm_compute; reflexivity).
    rewrite Hn. intros H%list_elem_of_singleton. discriminate H. }
  split; [exact Hv|]. split; [exact Hnin|].
  exact (X5_edit_unknown_name_changes_nothing "b.txt" "x" ex_added Hv Hnin).
Defined.

(** X6. [edit] acts on the first file of the working set that carries the
    name, and on no other: its staged content becomes the new content and
    it is marked modified, even if the new content equals the old one; its
    committed content is kept; it is staged unless it was staged already.
    Every other object (a later file with the same name included), the
    working set, the history and the disk are unchanged. *)
Theorem X6_edit_first_file_of_that_name {fsys : FileSystem} pre f post fname c s F :
  workingFiles s = pre ++ f :: post →
  Forall (valid s) pre →
  fname ∉ names_of s pre →
  heap s !! f = Some F → File_name F = fname →
  ∃ s', VCS_runCommand (CmdEdit fname c) s = Some s' ∧
    heap s' !! f = Some (mkFile fname (File_content F) c true) ∧
    (∀ p, p ≠ f → heap s' !! p = heap s !! p) ∧
    stagedFiles s' = (if decide (f ∈ stagedFiles s) then stagedFiles s
                      else stagedFiles s ++ [f]) ∧
    workingFiles s' = workingFiles s ∧
    commits s' = commits s ∧ nextCommitId s' = nextCommitId s ∧
    disk s' = disk s ∧ fsops s' = fsops s.
Proof.
  intros Hwf Hv Hnin HF Hn. simpl. rewrite Hwf.
  rewrite (edit_find_first pre f post fname c s F Hv Hnin HF Hn).
  destruct (VCS_editFile_spec f c s F HF)
    as (s' & Hs' & Hh & Hst & Hw & Hc & Hnx & Hd & Hops).
  exists s'. split; [done|]. rewrite Hh, <- Hwf, <- Hn.
  split; [apply lookup_insert_eq|].
  split; [by intros p Hp; apply lookup_insert_ne|].
  by repeat split.
Qed.

Lemma X6_edit_first_file_of_that_name_witness :
  workingFiles ex_mixed = [1%positive] ++ 2%positive :: [] ∧
  Forall (valid ex_mixed) [1%positive] ∧
  ("b.txt" ∉ names_of ex_mixed [1%positive]) ∧
  heap ex_mixed !! 2%positive = Some (mkFile "b.txt" "" "bee" true) ∧
  File_name (mkFile "b.txt" "" "bee" true) = "b.txt" ∧
  ∃ s', VCS_runCommand (CmdEdit "b.txt" "buzz") ex_mixed = Some s' ∧
    heap s' !! 2%positive
      = Some (mkFile "b.txt"
                (File_content (mkFile "b.txt" "" "bee" true)) "buzz" true) ∧
    (∀ p, p ≠ 2%positive → heap s' !! p = heap ex_mixed !! p) ∧
    stagedFiles s' = (if decide (2%positive ∈ stagedFiles ex_mixed)
                      then stagedFiles ex_mixed
                      else stagedFiles ex_mixed ++ [2%positive]) ∧
    workingFiles s' = workingFiles ex_mixed ∧
    commits s' = commits ex_mixed ∧
    nextCommitId s' = nextCommitId ex_mixed ∧
    disk s' = disk ex_mixed ∧ fsops s' = fsops ex_mixed.
Proof.
  assert (Hwf : workingFiles ex_mixed = [1%positive] ++ 2%positive :: [])
    by (vm_compute; reflexivity).
  assert (Hv : Forall (valid ex_mixed) [1%positive]).
  { constructor; [|constructor].
    exists (File_ctor "a.txt" ("hello" +:+ endl)). vm_compute. reflexivity. }
  assert (Hnin : "b.txt" ∉ names_of ex_mixed [1%positive]).
  { assert (Hn : names_of ex_mixed [1%positive] = ["a.txt"])
      by (vm_compute; reflexivity).
    rewrite Hn. intros H%list_elem_of_singleton. discriminate H. }
  assert (HF : heap ex_mixed !! 2%positive = Some (mkFile "b.txt" "" "bee" true))
    by (vm_compute; reflexivity).
  split; [exact Hwf|]. split; [exact Hv|]. split; [exact Hnin|].
  split; [exact HF|]. split; [reflexivity|].
  exact (X6_edit_first_file_of_that_name [1%positive] 2%positive [] "b.txt"
           "buzz" ex_mixed _ Hwf Hv Hnin HF eq_refl).
Defined.

(** ** The [add] command *)

Lemma is_yes_spec ch : is_yes ch = true ↔ ch = "y"%char ∨ ch = "Y"%char.
Proof.
  unfold is_yes. rewrite orb_true_iff, !bool_decide_eq_true. tauto.
Qed.

Definition create_prompt : string :=
  "File does not exist on disk. Create new? (y/n): ".

(** X7. [add] of a name that [fs::exists] does not find, answered by
    anything but [y] or [Y], only prints the question: no object is made,
    no call is made that changes the file system, nothing enters the
    working set or the staging vector. *)
Theorem X7_add_declined_changes_nothing {fsys : FileSystem} fname ch1 ch2 c s :
  fs_exists fname (disk s) = Some false →
  ch1 ≠ "y"%char → ch1 ≠ "Y"%char →
  VCS_runCommand (CmdAdd fname ch1 ch2 c) s = Some (print create_prompt s).
Proof.
  intros Hdisk Hy HY. simpl. unfold add_obtain, File_loadFromDisk.
  rewrite Hdisk. simpl.
  assert (Hno : is_yes ch1 = false).
  { destruct (is_yes ch1) eqn:Hyes; [|done].
    apply is_yes_spec in Hyes as [?|?]; done. }
  by rewrite Hno.
Qed.

Lemma X7_add_declined_changes_nothing_witness :
  fs_exists "b.txt" (disk ex_added) = Some false ∧
  "n"%char ≠ "y"%char ∧ "n"%char ≠ "Y"%char ∧
  VCS_runCommand (CmdAdd "b.txt" "n" "y" "x") ex_added
    = Some (print create_prompt ex_added).
Proof.
  assert (Hdisk : fs_exists "b.txt" (disk ex_added) = Some false)
    by (vm_compute; reflexivity).
  assert (Hy : "n"%char ≠ "y"%char) by discriminate.
  assert (HY : "n"%char ≠ "Y"%char) by discriminate.
  split; [exact Hdisk|]. split; [exact Hy|]. split; [exact HY|].
  exact (X7_add_declined_changes_nothing "b.txt" "n" "y" "x" ex_added
           Hdisk Hy HY).
Defined.

(** The [add] branch for a missing file whose creation is confirmed, up to
    the point where it holds the new object. *)
Lemma add_obtain_missing {fsys : FileSystem} fname ch1 ch2 c s :
  fs_exists fname (disk s) = Some false →
  is_yes ch1 = true →
  ∃ s', let f := fresh (dom (heap s)) in
    add_obtain fname ch1 ch2 c s = Some (Some f, s') ∧
    heap s' = <[f := if is_yes ch2 then mkFile fname "" c true
                     else mkFile fname "" "" false]> (heap s) ∧
    disk s' = fs_write fname "" (disk s) ∧
    fsops s' = fsops s ++ [Write fname ""] ∧
    stagedFiles s' = (if is_yes ch2 then push_back_new f (stagedFiles s)
                      else stagedFiles s) ∧
    workingFiles s' = workingFiles s ∧
    commits s' = commits s ∧ nextCommitId s' = nextCommitId s.
Proof.
  intros Hdisk Hyes. unfold add_obtain, File_loadFromDisk.
  rewrite Hdisk. simpl. rewrite Hyes. destruct (is_yes ch2); simpl.
  - match goal with |- context [VCS_editFile ?f c ?s1] =>
      destruct (VCS_editFile_spec f c s1 (File_ctor fname ""))
        as (s' & -> & Hh & Hst & Hwf & Hc & Hn & Hd & Hops) end.
    { simpl. apply lookup_insert_eq. }
    simpl in *. eexists. split; [reflexivity|].
    rewrite Hh, insert_insert_eq. by repeat split.
  - eexists. split; [reflexivity|]. simpl. by repeat split.
Qed.

(** X8. [add] of a name that [fs::exists] does not find, answered by [y]
    or [Y], makes a new object with empty committed content and one call
    on the file system, the write of the empty text under that name (which
    creates the file when the stream opens; the outcome is not checked).
    The object is put at the end of the working set and of the staging
    vector, and every other object and the history are left as they are.
    With a second [y] or [Y] the object holds the typed content as staged
    content and is modified; otherwise its staged content is empty and it
    is not modified. *)
Theorem X8_add_creates_missing_file {fsys : FileSystem} fname ch1 ch2 c s :
  Forall (valid s) (stagedFiles s) →
  Forall (valid s) (workingFiles s) →
  fs_exists fname (disk s) = Some false →
  ch1 = "y"%char ∨ ch1 = "Y"%char →
  ∃ s', let f := fresh (dom (heap s)) in
    VCS_runCommand (CmdAdd fname ch1 ch2 c) s = Some s' ∧
    heap s' = <[f := if is_yes ch2 then mkFile fname "" c true
                     else mkFile fname "" "" false]> (heap s) ∧
    disk s' = fs_write fname "" (disk s) ∧
    fsops s' = fsops s ++ [Write fname ""] ∧
    stagedFiles s' = stagedFiles s ++ [f] ∧
    workingFiles s' = workingFiles s ++ [f] ∧
    commits s' = commits s ∧ nextCommitId s' = nextCommitId s.
Proof.
  intros Hvs Hvw Hdisk Hyes%is_yes_spec.
  assert (Hfresh : ∀ l, Forall (valid s) l → fresh (dom (heap s)) ∉ l).
  { intros l Hl Hin. rewrite Forall_forall in Hl.
    destruct (Hl _ Hin) as [F HF]. by rewrite fresh_lookup_None in HF. }
  assert (Hpush : ∀ l, Forall (valid s) l →
            push_back_new (fresh (dom (heap s))) l = l ++ [fresh (dom (heap s))]).
  { intros l Hl. unfold push_back_new. rewrite decide_False; [done|].
    by apply Hfresh. }
  destruct (add_obtain_missing fname ch1 ch2 c s Hdisk Hyes)
    as (s1 & Hs1 & Hh & Hd & Hops & Hst & Hwf & Hc & Hn).
  set (f := fresh (dom (heap s))) in *.
  change (VCS_runCommand (CmdAdd fname ch1 ch2 c) s)
    with (add_obtain fname ch1 ch2 c s ≫= λ r,
            match r with
            | (None, s') => Some s'
            | (Some f, s') =>
                Repository_addFile f
                  (if decide (f ∈ workingFiles s') then s'
                   else with_workingFiles (workingFiles s' ++ [f]) s')
            end).
  rewrite Hs1, option_bind_Some. cbv beta iota.
  rewrite Hwf. rewrite decide_False by by apply Hfresh.
  match goal with |- context [Repository_addFile f ?s2] =>
    destruct (Repository_addFile_spec f s2)
      as (s' & Hs' & Hst' & Hh' & Hwf' & Hc' & Hn' & Hd' & Hops') end.
  { unfold valid; simpl. rewrite Hh, lookup_insert_eq. eauto. }
  exists s'. split; [exact Hs'|].
  simpl in Hst', Hh', Hwf', Hc', Hn', Hd', Hops'.
  rewrite Hh', Hst', Hwf', Hc', Hn', Hd', Hops'.
  split; [exact Hh|]. split; [exact Hd|]. split; [exact Hops|].
  split; [|by repeat split].
  rewrite Hst. destruct (is_yes ch2).
  - by rewrite push_back_new_idemp, Hpush.
  - by rewrite Hpush.
Qed.

Lemma X8_add_creates_missing_file_witness :
  Forall (valid ex_added) (stagedFiles ex_added) ∧
  Forall (valid ex_added) (workingFiles ex_added) ∧
  fs_exists "b.txt" (disk ex_added) = Some false ∧
  ("y"%char = "y"%char ∨ "y"%char = "Y"%char) ∧
  ∃ s', let f := fresh (dom (heap ex_added)) in
    VCS_runCommand (CmdAdd "b.txt" "y" "y" "bee") ex_added = Some s' ∧
    heap s' = <[f := if is_yes "y" then mkFile "b.txt" "" "bee" true
                     else mkFile "b.txt" "" "" false]> (heap ex_added) ∧
    disk s' = fs_write "b.txt" "" (disk ex_added) ∧
    fsops s' = fsops ex_added ++ [Write "b.txt" ""] ∧
    stagedFiles s' = stagedFiles ex_added ++ [f] ∧
    workingFiles s' = workingFiles ex_added ++ [f] ∧
    commits s' = commits ex_added ∧
    nextCommitId s' = nextCommitId ex_added.
Proof.
  assert (Hone : valid ex_added 1%positive).
  { exists (File_ctor "a.txt" ("hello" +:+ endl)). vm_compute. reflexivity. }
  assert (Hvs : Forall (valid ex_added) (stagedFiles ex_added)).
  { assert (Hst : stagedFiles ex_added = [1%positive])
      by (vm_compute; reflexivity).
    rewrite Hst. constructor; [exact Hone|constructor]. }
  assert (Hvw : Forall (valid ex_added) (workingFiles ex_added)).
  { assert (Hwf : workingFiles ex_added = [1%positive])
      by (vm_compute; reflexivity).
    rewrite Hwf. constructor; [exact Hone|constructor]. }
  assert (Hdisk : fs_exists "b.txt" (disk ex_added) = Some false)
    by (vm_compute; reflexivity).
  assert (Hyes : "y"%char = "y"%char ∨ "y"%char = "Y"%char) by (left; reflexivity).
  split; [exact Hvs|]. split; [exact Hvw|]. split; [exact Hdisk|].
  split; [exact Hyes|].
  exact (X8_add_creates_missing_file "b.txt" "y" "y" "bee" ex_added
           Hvs Hvw Hdisk Hyes).
Defined.

(** X9. [add] of a name that [fs::exists] finds asks nothing: whatever
    the console would answer, it makes a new unmodified object whose
    content and staged content are the text read from the file with its
    last line terminated, puts it at the end of the working set and of the
    staging vector, and leaves the disk, every other object and the
    history as they are. *)
Theorem X9_add_loads_file_from_disk {fsys : FileSystem} fname ch1 ch2 c data s :
  Forall (valid s) (stagedFiles s) →
  Forall (valid s) (workingFiles s) →
  fs_exists fname (disk s) = Some true →
  fs_read fname (disk s) = data →
  ∃ s', let f := fresh (dom (heap s)) in
    (∀ ch1' ch2' c', VCS_runCommand (CmdAdd fname ch1' ch2' c') s = Some s') ∧
    VCS_runCommand (CmdAdd fname ch1 ch2 c) s = Some s' ∧
    heap s' = <[f := mkFile fname (getline_all data) (getline_all data) false]>
                (heap s) ∧
    stagedFiles s' = stagedFiles s ++ [f] ∧
    workingFiles s' = workingFiles s ++ [f] ∧
    disk s' = disk s ∧ fsops s' = fsops s ∧
    commits s' = commits s ∧ nextCommitId s' = nextCommitId s.
Proof.
  intros Hvs Hvw Hdisk Hdata.
  assert (Hfresh : ∀ l, Forall (valid s) l → fresh (dom (heap s)) ∉ l).
  { intros l Hl Hin. rewrite Forall_forall in Hl.
    destruct (Hl _ Hin) as [F HF]. by rewrite fresh_lookup_None in HF. }
  simpl. unfold add_obtain, File_loadFromDisk. rewrite Hdisk, Hdata. simpl.
  rewrite decide_False by by apply Hfresh.
  unfold Repository_addFile. simpl.
  rewrite decide_False by by apply Hfresh.
  rewrite lookup_insert_eq. simpl. by eexists.
Qed.

Lemma X9_add_loads_file_from_disk_witness :
  Forall (valid ex_added) (stagedFiles ex_added) ∧
  Forall (valid ex_added) (workingFiles ex_added) ∧
  fs_exists "a.txt" (disk ex_added) = Some true ∧
  fs_read "a.txt" (disk ex_added) = "hello" ∧
  ∃ s', let f := fresh (dom (heap ex_added)) in
    (∀ ch1' ch2' c',
       VCS_runCommand (CmdAdd "a.txt" ch1' ch2' c') ex_added = Some s') ∧
    VCS_runCommand (CmdAdd "a.txt" "n" "n" "") ex_added = Some s' ∧
    heap s' = <[f := mkFile "a.txt" (getline_all "hello") (getline_all "hello")
                       false]> (heap ex_added) ∧
    stagedFiles s' = stagedFiles ex_added ++ [f] ∧
    workingFiles s' = workingFiles ex_added ++ [f] ∧
    disk s' = disk ex_added ∧ fsops s' = fsops ex_added ∧
    commits s' = commits ex_added ∧
    nextCommitId s' = nextCommitId ex_added.
Proof.
  assert (Hone : valid ex_added 1%positive).
  { exists (File_ctor "a.txt" ("hello" +:+ endl)). vm_compute. reflexivity. }
  assert (Hvs : Forall (valid ex_added) (stagedFiles ex_added)).
  { assert (Hst : stagedFiles ex_added = [1%positive])
      by (vm_compute; reflexivity).
    rewrite Hst. constructor; [exact Hone|constructor]. }
  assert (Hvw : Forall (valid ex_added) (workingFiles ex_added)).
  { assert (Hwf : workingFiles ex_added = [1%positive])
      by (vm_compute; reflexivity).
    rewrite Hwf. constructor; [exact Hone|constructor]. }
  assert (Hdisk : fs_exists "a.txt" (disk ex_added) = Some true)
    by (vm_compute; reflexivity).
  assert (Hdata : fs_read "a.txt" (disk ex_added) = "hello")
    by (vm_compute; reflexivity).
  split; [exact Hvs|]. split; [exact Hvw|]. split; [exact Hdisk|].
  split; [exact Hdata|].
  exact (X9_add_loads_file_from_disk "a.txt" "n" "n" "" "hello" ex_added
           Hvs Hvw Hdisk Hdata).
Defined.

(** ** The output of [log] *)

(** The line [showContent] prints for an object. *)
Definition show_line (F : File) : string :=
  "[TextFile] " +:+ File_name F +:+ ": " +:+ File_stagedContent F +:+ endl.

(** The first line [showDetails] prints for a commit. *)
Definition commit_header (c : Commit) : string :=
  "Commit " +:+ pretty (Commit_id c) +:+ ": " +:+ Commit_message c
  +:+ " at " +:+ Commit_timestamp c +:+ endl.

Definition log_separator : string := "--------------------" +:+ endl.

(** What [log] prints for a history: per commit, in the order of the
    history, the header, one line per stored file in the order of the
    names, and the separator. *)
Definition log_output (h : gmap positive File) (cs : list Commit)
  : list string :=
  c ← cs;
  commit_header c
  :: omap (λ e, show_line <$> h !! e.2) (Commit_files c) ++ [log_separator].

Lemma Commit_showFiles_output {fsys : FileSystem} files : ∀ s,
  Forall (λ e, valid s e.2) files →
  ∃ s', Commit_showFiles files s = Some s' ∧ only_cout s s' ∧
    cout s' = cout s ++ omap (λ e, show_line <$> heap s !! e.2) files.
Proof.
  induction files as [|[k p] files IH]; intros s Hv; simpl.
  { exists s. rewrite app_nil_r. by repeat split. }
  inversion_clear Hv as [|? ? [F HF] Hv']. simpl in HF.
  unfold File_showContent. rewrite HF; simpl.
  match goal with |- ∃ s', Commit_showFiles _ ?s1 = _ ∧ _ =>
    destruct (IH s1) as (s' & Hs' & Hoc & Hout) end.
  { done. }
  exists s'. split; [done|]. split.
  - eapply only_cout_trans; [|exact Hoc]. apply only_cout_print.
  - rewrite Hout. simpl. by rewrite <- app_assoc.
Qed.

Lemma log_loop_output {fsys : FileSystem} cs : ∀ s,
  Forall (λ c, Forall (λ e, valid s e.2) (Commit_files c)) cs →
  ∃ s', log_loop cs s = Some s' ∧ only_cout s s' ∧
    cout s' = cout s ++ log_output (heap s) cs.
Proof.
  induction cs as [|c cs IH]; intros s Hv; simpl.
  { exists s. rewrite app_nil_r. by repeat split. }
  inversion_clear Hv as [|? ? Hc Hcs]. unfold Commit_showDetails.
  fold (commit_header c).
  destruct (Commit_showFiles_output (Commit_files c)
              (print (commit_header c) s)) as (s2 & Hs2 & Hoc2 & Hout2).
  { done. }
  rewrite Hs2. simpl.
  destruct (IH (print log_separator s2)) as (s' & Hs' & Hoc & Hout).
  { eapply Forall_impl; [exact Hcs|]. intros c'. simpl. intros Hc'.
    eapply Forall_impl; [exact Hc'|]. intros e. simpl.
    unfold valid. simpl. by rewrite (proj1 Hoc2). }
  exists s'. split; [exact Hs'|]. split.
  - eapply only_cout_trans; [|exact Hoc].
    eapply only_cout_trans; [|apply only_cout_print].
    eapply only_cout_trans; [|exact Hoc2]. apply only_cout_print.
  - rewrite Hout. simpl. rewrite Hout2. simpl. rewrite (proj1 Hoc2). simpl.
    by rewrite <- !app_assoc.
Qed.

(** X10. [log] in a reachable state returns and changes nothing but the
    console.  With an empty history it prints the one line saying so;
    otherwise it prints, for each commit in the order of the history, a
    header with id, message and time stamp, then one line per stored file
    in the order of the file names, showing the name and the stored
    content, then the separator. *)
Theorem X10_log_prints_history {fsys : FileSystem} s :
  reachable s →
  ∃ s', Repository_log s = Some s' ∧
    heap s' = heap s ∧ disk s' = disk s ∧ fsops s' = fsops s ∧
    commits s' = commits s ∧ stagedFiles s' = stagedFiles s ∧
    nextCommitId s' = nextCommitId s ∧ workingFiles s' = workingFiles s ∧
    cout s' = cout s ++
      match commits s with
      | [] => ["No commits yet." +:+ endl]
      | cs => log_output (heap s) cs
      end ∧
    Forall (λ c, Forall (λ e, ∃ F, heap s !! e.2 = Some F ∧
                   show_line F = "[TextFile] " +:+ e.1 +:+ ": "
                                 +:+ File_content F +:+ endl)
                 (Commit_files c)) (commits s).
Proof.
  intros HI%reachable_Inv.
  pose proof (Inv_snapshots_valid s HI) as Hv.
  destruct (log_loop_output (commits s) s Hv) as (s' & Hs' & Hoc & Hout).
  assert (Hlines : Forall (λ c, Forall (λ e, ∃ F, heap s !! e.2 = Some F ∧
                   show_line F = "[TextFile] " +:+ e.1 +:+ ": "
                                 +:+ File_content F +:+ endl)
                 (Commit_files c)) (commits s)).
  { eapply Forall_impl; [exact (inv_commits s HI)|]. intros c [_ Hc].
    eapply Forall_impl; [exact Hc|].
    intros e (_ & _ & F & HF & Hn & _ & Hcs). exists F. split; [done|].
    unfold show_line. by rewrite Hn, Hcs. }
  unfold Repository_log. destruct (commits s) as [|c cs] eqn:Hcs.
  - eexists. split; [reflexivity|]. simpl. by repeat split.
  - exists s'. split; [exact Hs'|].
    destruct Hoc as (?&?&?&?&?&?&?). rewrite Hcs in *. by repeat split.
Qed.

Lemma X10_log_prints_history_witness :
  reachable ex_committed ∧
  ∃ s', Repository_log ex_committed = Some s' ∧
    heap s' = heap ex_committed ∧ disk s' = disk ex_committed ∧
    fsops s' = fsops ex_committed ∧
    commits s' = commits ex_committed ∧
    stagedFiles s' = stagedFiles ex_committed ∧
    nextCommitId s' = nextCommitId ex_committed ∧
    workingFiles s' = workingFiles ex_committed ∧
    cout s' = cout ex_committed ++
      match commits ex_committed with
      | [] => ["No commits yet." +:+ endl]
      | cs => log_output (heap ex_committed) cs
      end ∧
    Forall (λ c, Forall (λ e, ∃ F, heap ex_committed !! e.2 = Some F ∧
                   show_line F = "[TextFile] " +:+ e.1 +:+ ": "
                                 +:+ File_content F +:+ endl)
                 (Commit_files c)) (commits ex_committed).
Proof.
  split; [exact ex_committed_reachable|].
  exact (X10_log_prints_history ex_committed ex_committed_reachable).
Defined.

(** ** What [checkout] writes to disk *)

(** One write per stored file: under the name it is stored under, with
    the content of the stored object. *)
Definition snapshot_writes (h : gmap positive File)
    (files : list (string * positive)) : list FsOp :=
  e ← files; from_option (λ S, [Write e.1 (File_content S)]) [] (h !! e.2).

Lemma restore_ops_snapshot_writes (h h' : gmap positive File) files qs :
  Forall2 (λ e q, ∃ S, h !! e.2 = Some S ∧ h' !! q = Some S ∧
                       File_name S = e.1) files qs →
  restore_ops h' qs = snapshot_writes h files.
Proof.
  unfold restore_ops, snapshot_writes.
  induction 1 as [|e q files qs (S & HS & HS' & Hn) _ IH]; [done|].
  rewrite !bind_cons, HS, HS'. f_equal; [simpl; by rewrite Hn|exact IH].
Qed.

(** X11. Checkout of a commit of a reachable history makes one call on
    the file system per stored file, in the order of the names and no
    other: the write, under the name the file is stored under, of the
    content stored for it in the commit.  The file system is left as
    these writes leave it; no outcome is checked, and nothing is removed
    (a file of the former working set stays on disk). *)
Theorem X11_checkout_writes_snapshots_to_disk {fsys : FileSystem} s c :
  reachable s → c ∈ commits s →
  ∃ s', Repository_checkout (Commit_id c) s = Some s' ∧
    fsops s' = fsops s ++ snapshot_writes (heap s) (Commit_files c) ∧
    disk s' = replay (disk s) (snapshot_writes (heap s) (Commit_files c)) ∧
    Forall2 (λ e op, ∃ S, heap s !! e.2 = Some S ∧ File_name S = e.1 ∧
                          op = Write (File_name S) (File_content S))
            (Commit_files c) (snapshot_writes (heap s) (Commit_files c)).
Proof.
  intros HI%reachable_Inv Hc.
  destruct (Repository_checkout_restored s c HI Hc)
    as (s' & Hs' & Hall & _).
  destruct (Repository_checkout_found s c HI Hc)
    as (qs & s'' & Hs'' & Hwf & _ & _ & _ & _ & _ & _ & _ & Hops & Hdisk & _).
  rewrite Hs' in Hs''. injection Hs'' as <-. subst qs.
  assert (Heq : restore_ops (heap s') (workingFiles s')
                = snapshot_writes (heap s) (Commit_files c)).
  { apply restore_ops_snapshot_writes. eapply Forall2_impl; [exact Hall|].
    intros e w (S & HS & HS' & Hn & _). by exists S. }
  rewrite Heq in Hops, Hdisk.
  exists s'. do 3 (split; [done|]).
  assert (Hok : Forall (snapshot_ok s) (Commit_files c)).
  { apply Forall_forall. intros e. by apply Inv_snapshot_ok. }
  clear -Hok. unfold snapshot_writes.
  induction Hok as [|e files (_ & _ & S & HS & Hn & _) _ IH]; [constructor|].
  rewrite bind_cons, HS. simpl. constructor; [|exact IH].
  exists S. by rewrite Hn.
Qed.

Lemma X11_checkout_writes_snapshots_to_disk_witness :
  reachable ex_committed ∧ ex_commit ∈ commits ex_committed ∧
  ∃ s', Repository_checkout (Commit_id ex_commit) ex_committed = Some s' ∧
    fsops s' = fsops ex_committed
               ++ snapshot_writes (heap ex_committed) (Commit_files ex_commit) ∧
    disk s' = replay (disk ex_committed)
                (snapshot_writes (heap ex_committed) (Commit_files ex_commit)) ∧
    Forall2 (λ e op, ∃ S, heap ex_committed !! e.2 = Some S ∧
                          File_name S = e.1 ∧
                          op = Write (File_name S) (File_content S))
            (Commit_files ex_commit)
            (snapshot_writes (heap ex_committed) (Commit_files ex_commit)).
Proof.
  assert (Hc : ex_commit ∈ commits ex_committed) by (vm_compute; left).
  split; [exact ex_committed_reachable|]. split; [exact Hc|].
  exact (X11_checkout_writes_snapshots_to_disk ex_committed ex_commit
           ex_committed_reachable Hc).
Defined.

(** ** The names stored in a commit *)

Lemma names_of_length {fsys : FileSystem} s l : (length (names_of s l) ≤ length l)%nat.
Proof.
  unfold names_of. induction l as [|f l IH]; simpl; [done|].
  change (list_omap positive string (λ f1, File_name <$> heap s !! f1) l)
    with (omap (λ f1, File_name <$> heap s !! f1) l).
  destruct (heap s !! f); simpl; lia.
Qed.

Lemma map_assign_keys k v m k' :
  k' ∈ (map_assign k v m).1.*1 ↔ k' = k ∨ k' ∈ m.*1.
Proof.
  pose proof (map_assign_perm k v m) as H.
  destruct (map_assign k v m).2 as [q|].
  - destruct H as (m0 & Hm & ->). rewrite Hm. simpl.
    rewrite !elem_of_cons. tauto.
  - rewrite H. simpl. by rewrite elem_of_cons.
Qed.

Lemma Commit_fill_keys_kept {fsys : FileSystem} staged : ∀ files s files' s',
  Commit_fill staged files s = Some (files', s') →
  ∀ k, k ∈ files.*1 → k ∈ files'.*1.
Proof.
  induction staged as [|f staged IH]; intros files s files' s' Hfill k Hk.
  { simpl in Hfill. by injection Hfill as <- _. }
  simpl in Hfill. unfold File_clone in Hfill.
  destruct (heap s !! f) as [F|]; [|done]. simpl in Hfill.
  pose proof (map_assign_keys (File_name F) (fresh (dom (heap s))) files k)
    as Hkeys.
  destruct (map_assign (File_name F) (fresh (dom (heap s))) files)
    as [files1 old].
  eapply IH; [exact Hfill|]. apply Hkeys. by right.
Qed.

Lemma Commit_fill_app {fsys : FileSystem} l1 : ∀ l2 files s,
  Commit_fill (l1 ++ l2) files s
  = Commit_fill l1 files s ≫= λ r, Commit_fill l2 r.1 r.2.
Proof.
  induction l1 as [|f l1 IH]; intros l2 files s; [done|].
  simpl. unfold File_clone. destruct (heap s !! f) as [F|]; [|done]. simpl.
  destruct (map_assign (File_name F) (fresh (dom (heap s))) files)
    as [files1 old]. apply IH.
Qed.

(** Every file handed to the constructor has its name among the keys of
    the commit. *)
Lemma Commit_fill_names {fsys : FileSystem} D s files s' f F :
  Forall (valid s) D →
  Commit_fill D [] s = Some (files, s') →
  f ∈ D → heap s !! f = Some F →
  File_name F ∈ files.*1.
Proof.
  intros Hv Hfill Hf HF.
  apply list_elem_of_split in Hf as (l1 & l2 & ->).
  rewrite Commit_fill_app in Hfill.
  destruct (Commit_fill_spec (heap s) (l1 ++ f :: l2) l1 [] s)
    as (files1 & s1 & Hfill1 & Hsub & _); try done; try constructor.
  { apply Forall_forall. intros g Hg. split.
    - apply elem_of_app. by left.
    - rewrite Forall_forall in Hv. apply Hv. apply elem_of_app. by left. }
  rewrite Hfill1 in Hfill. simpl in Hfill. unfold File_clone in Hfill.
  rewrite (lookup_weaken _ _ _ _ HF Hsub) in Hfill. simpl in Hfill.
  pose proof (map_assign_new (File_name F) (fresh (dom (heap s1))) files1)
    as Hnew.
  destruct (map_assign (File_name F) (fresh (dom (heap s1))) files1)
    as [files2 old]. simpl in Hnew.
  eapply Commit_fill_keys_kept; [exact Hfill|].
  apply list_elem_of_fmap. by exists (File_name F, fresh (dom (heap s1))).
Qed.

(** The pieces of a commit that returns with a non-empty selection: the
    state [s2] after the second loop, in which the selected files have had
    [clearModified], and the map [files] the constructor builds from it. *)
Lemma Repository_commit_unfold {fsys : FileSystem} msg now s s' :
  Repository_commit msg now s = Some s' →
  dirty_files s ≠ [] →
  ∃ s2 files s3,
    Forall (valid s) (dirty_files s) ∧
    (∀ p, heap s2 !! p = if decide (p ∈ dirty_files s)
                         then File_committed <$> heap s !! p
                         else heap s !! p) ∧
    Commit_fill (dirty_files s) []
      (with_nextCommitId (nextCommitId s + 1) s2) = Some (files, s3) ∧
    Forall (clone_of (heap s2) (dirty_files s) s3) files ∧
    commits s' = commits s ++
      [mkCommit (nextCommitId s) msg (pop_back_newline now) files] ∧
    heap s' = heap s3.
Proof.
  intros Hrun HD.
  destruct (Repository_commit_success _ _ _ _ Hrun HD) as (Hv & Hlt & sm & Hmk).
  assert (HvD : Forall (valid s) (dirty_files s)).
  { apply Forall_forall. intros f Hf. rewrite Forall_forall in Hv.
    apply Hv. unfold dirty_files in Hf.
    by apply list_elem_of_filter in Hf as [_ ?]. }
  destruct (create_directory_spec _ _ _ Hmk)
    as (_ & Hh1 & _ & _ & Hc1 & _ & Hn1 & _).
  destruct (commit_write_spec (commit_path (nextCommitId s)) (dirty_files s) sm)
    as (s2 & Hw & Hheap2 & _ & _ & _ & Hc2 & _ & Hn2 & _).
  { eapply Forall_impl; [exact HvD|]. intros p. unfold valid. by rewrite Hh1. }
  rewrite Hh1 in Hheap2. rewrite Hc1 in Hc2. rewrite Hn1 in Hn2.
  destruct (Commit_fill_spec (heap s2) (dirty_files s) (dirty_files s) []
              (with_nextCommitId (nextCommitId s + 1) s2))
    as (files & s3 & Hfill & _ & _ & Hcl & _ & Hs3);
    [| done | constructor | constructor | constructor |].
  { apply Forall_forall. intros f Hf. split; [done|].
    rewrite Hheap2, decide_True by done. rewrite Forall_forall in HvD.
    destruct (HvD f Hf) as [F ->]. by eexists. }
  exists s2, files, s3. do 4 (split; [done|]).
  unfold Repository_commit in Hrun.
  rewrite (commit_select_Some _ _ Hv) in Hrun. fold (dirty_files s) in Hrun.
  rewrite option_bind_Some in Hrun.
  destruct (dirty_files s) as [|f0 D0] eqn:HDeq; [done|].
  cbv beta match in Hrun. rewrite <- HDeq in *.
  fold (commit_path (nextCommitId s)) in Hrun.
  rewrite Hmk, option_bind_Some, Hw, option_bind_Some in Hrun.
  cbv zeta in Hrun. rewrite Hn2 in Hrun.
  rewrite decide_True in Hrun by done. unfold Commit_ctor in Hrun.
  rewrite Hfill in Hrun. simpl in Hrun. injection Hrun as <-. simpl.
  rewrite Hs3. simpl. by rewrite Hc2.
Qed.

(** The keys of the commit appended by [commit] are the names of the
    selected files. *)
Lemma Repository_commit_keys {fsys : FileSystem} msg now s s' :
  Repository_commit msg now s = Some s' →
  dirty_files s ≠ [] →
  ∃ c, commits s' = commits s ++ [c] ∧
    (∀ n, n ∈ (Commit_files c).*1 ↔ n ∈ names_of s (dirty_files s)) ∧
    keys_sorted (Commit_files c).
Proof.
  intros Hrun HD.
  destruct (Repository_commit_success _ _ _ _ Hrun HD) as (Hv & Hlt & sm & Hmk).
  destruct (Repository_commit_spec msg now s sm Hv HD Hlt Hmk)
    as (c & s'' & Hs'' & Hc & _ & _ & _ & _ & _ & _ & _ & Hks & _ & Hsnap & _).
  destruct (Repository_commit_unfold msg now s s' Hrun HD)
    as (s2 & files & s3 & HvD & Hheap2 & Hfill & _ & Hc' & _).
  rewrite Hs'' in Hrun. injection Hrun as ->.
  assert (Hfiles : Commit_files c = files).
  { rewrite Hc in Hc'. apply app_inv_head in Hc'. by injection Hc' as ->. }
  assert (Hkeys : ∀ n, n ∈ (Commit_files c).*1 ↔ n ∈ names_of s (dirty_files s)).
  { intros n. split.
    - intros [e [-> He]]%list_elem_of_fmap. rewrite Forall_forall in Hsnap.
      destruct (Hsnap e He) as (_ & f & F & Hf & HF & Hn & _).
      rewrite <- Hn. by eapply names_of_elem.
    - unfold names_of. intros (f & Hf & Hn)%list_elem_of_omap.
      destruct (heap s !! f) as [F|] eqn:HF; [|done]. injection Hn as <-.
      rewrite Hfiles.
      change (File_name F) with (File_name (File_committed F)).
      eapply (Commit_fill_names (dirty_files s)
                (with_nextCommitId (nextCommitId s + 1) s2)); [|exact Hfill|exact Hf|].
      + eapply Forall_impl; [exact HvD|]. intros g [G HG].
        unfold valid. simpl. rewrite Hheap2, HG. by case_decide.
      + simpl. by rewrite Hheap2, decide_True, HF. }
  by exists c.
Qed.

(** X12. The commit appended by a [commit] that returns with a non-empty
    selection D stores exactly the names of D: a name is a key of the
    commit if and only if a file of D carries it.  In particular the
    commit is not empty, and it has at most as many entries as D has
    files. *)
Theorem X12_commit_stores_names_of_selection {fsys : FileSystem} msg now s s' :
  Repository_commit msg now s = Some s' →
  dirty_files s ≠ [] →
  ∃ c, commits s' = commits s ++ [c] ∧
    (∀ n, n ∈ (Commit_files c).*1 ↔ n ∈ names_of s (dirty_files s)) ∧
    Commit_files c ≠ [] ∧
    (length (Commit_files c) ≤ length (dirty_files s))%nat.
Proof.
  intros Hrun HD.
  destruct (Repository_commit_keys msg now s s' Hrun HD)
    as (c & Hc & Hkeys & Hks).
  exists c. split; [done|]. split; [done|]. split.
  - destruct (dirty_files s) as [|f D] eqn:HDeq; [done|].
    assert (Hf : f ∈ stagedFiles s).
    { assert (Hin : f ∈ dirty_files s) by (rewrite HDeq; left).
      unfold dirty_files in Hin. by apply list_elem_of_filter in Hin as [_ ?]. }
    pose proof (Repository_commit_valid _ _ _ _ Hrun) as Hv.
    rewrite Forall_forall in Hv. destruct (Hv f Hf) as [F HF].
    assert (Hin : File_name F ∈ (Commit_files c).*1).
    { apply Hkeys. eapply names_of_elem; [left|done]. }
    intros Hnil. rewrite Hnil in Hin. by apply elem_of_nil in Hin.
  - assert (Hnd : NoDup (Commit_files c).*1) by by apply keys_sorted_NoDup.
    assert (Hsub : (Commit_files c).*1 ⊆+ names_of s (dirty_files s)).
    { apply NoDup_submseteq; [done|]. intros n. apply Hkeys. }
    apply submseteq_length in Hsub. rewrite length_fmap in Hsub.
    etrans; [exact Hsub|]. apply names_of_length.
Qed.

Lemma X12_commit_stores_names_of_selection_witness :
  Repository_commit "second" ex_now ex_mixed = Some ex_mixed_committed ∧
  dirty_files ex_mixed ≠ [] ∧
  ∃ c, commits ex_mixed_committed = commits ex_mixed ++ [c] ∧
    (∀ n, n ∈ (Commit_files c).*1 ↔ n ∈ names_of ex_mixed (dirty_files ex_mixed)) ∧
    Commit_files c ≠ [] ∧
    (length (Commit_files c) ≤ length (dirty_files ex_mixed))%nat.
Proof.
  assert (Hrun : Repository_commit "second" ex_now ex_mixed
                 = Some ex_mixed_committed) by (vm_compute; reflexivity).
  assert (HD : dirty_files ex_mixed ≠ []) by (vm_compute; discriminate).
  split; [exact Hrun|]. split; [exact HD|].
  exact (X12_commit_stores_names_of_selection "second" ex_now ex_mixed
           ex_mixed_committed Hrun HD).
Defined.

(** ** Commits are never empty *)

Lemma VCS_runCommand_history {fsys : FileSystem} cmd s s' :
  Inv s → VCS_runCommand cmd s = Some s' →
  commits s' = commits s ∨
  ∃ c, commits s' = commits s ++ [c] ∧ Commit_files c ≠ [].
Proof.
  intros HI Hrun.
  pose proof (VCS_runCommand_commits cmd s s' HI Hrun) as Hstep.
  destruct (is_commit cmd && bool_decide (dirty_files s ≠ [])) eqn:Hb.
  2:{ left. by destruct Hstep. }
  right. apply andb_true_iff in Hb as [Hcmd HD%bool_decide_eq_true].
  destruct cmd as [| |msg now| | |]; try done. simpl in Hrun.
  destruct (Repository_commit_keys msg now s s' Hrun HD)
    as (c & Hc & Hkeys & _).
  exists c. split; [done|].
  destruct (dirty_files s) as [|f D] eqn:HDeq; [done|].
  assert (Hf : f ∈ stagedFiles s).
  { assert (Hin : f ∈ dirty_files s) by (rewrite HDeq; left).
    unfold dirty_files in Hin. by apply list_elem_of_filter in Hin as [_ ?]. }
  destruct (Inv_valid_root s f HI) as [F HF]; [by left|].
  assert (Hin : File_name F ∈ (Commit_files c).*1).
  { apply Hkeys. eapply names_of_elem; [left|done]. }
  intros Hnil. rewrite Hnil in Hin. by apply elem_of_nil in Hin.
Qed.

(** X13. In every state reachable from a fresh repository, each commit of
    the history stores at least one file: a commit is only made from a
    non-empty selection of modified files. *)
Theorem X13_no_empty_commit_in_history {fsys : FileSystem} d cmds s :
  session d cmds = Some s →
  Forall (λ c, Commit_files c ≠ []) (commits s).
Proof.
  assert (Hgen : ∀ cmds s0 s, Inv s0 →
            Forall (λ c, Commit_files c ≠ []) (commits s0) →
            run cmds s0 = Some s →
            Forall (λ c, Commit_files c ≠ []) (commits s)).
  { clear. induction cmds as [|cmd cmds' IH]; intros s0 s HI Hne Hrun.
    - simpl in Hrun. by injection Hrun as <-.
    - rewrite run_cons in Hrun.
      destruct (VCS_runCommand cmd s0) as [s1|] eqn:H1; [|done].
      rewrite option_bind_Some in Hrun.
      destruct (VCS_runCommand_step cmd s0 s1 HI H1) as [HI1 _].
      apply (IH s1 s HI1); [|done].
      destruct (VCS_runCommand_history cmd s0 s1 HI H1) as [->|(c & -> & Hc)];
        [done|]. apply Forall_app. split; [done|]. by constructor. }
  intros Hrun. unfold session in Hrun.
  destruct (Repository_init d) as [s0|] eqn:H0; [|done].
  rewrite option_bind_Some in Hrun.
  eapply Hgen; [exact (Inv_init d s0 H0)| |exact Hrun].
  unfold Repository_init in H0. destruct (fs_create_directory ".vcs" d); [|done].
  simpl in H0. injection H0 as <-. constructor.
Qed.

Lemma X13_no_empty_commit_in_history_witness :
  session ex_disk (ex_twice_cmds ++ [CmdCommit "both" ex_now])
    = Some ex_twice_committed ∧
  Forall (λ c, Commit_files c ≠ []) (commits ex_twice_committed).
Proof.
  split; [exact ex_twice_committed_session|].
  exact (X13_no_empty_commit_in_history ex_disk _ ex_twice_committed
           ex_twice_committed_session).
Defined.

(** ** A commit right after a commit *)

Lemma commit_leaves_clean {fsys : FileSystem} msg now s s1 :
  Repository_commit msg now s = Some s1 →
  Forall (valid s1) (stagedFiles s1) ∧ dirty_files s1 = [].
Proof.
  intros Hrun. pose proof (Repository_commit_valid _ _ _ _ Hrun) as Hv.
  destruct (decide (dirty_files s = [])) as [HD|HD].
  { rewrite Repository_commit_noop in Hrun by done. by injection Hrun as <-. }
  destruct (Repository_commit_success _ _ _ _ Hrun HD) as (_ & Hlt & sm & Hmk).
  destruct (Repository_commit_spec msg now s sm Hv HD Hlt Hmk)
    as (c & s' & Hs' & _ & _ & _ & _ & _ & Hst & _ & Hheap & _).
  rewrite Hs' in Hrun. injection Hrun as ->.
  assert (Hkeep : ∀ f, f ∈ stagedFiles s1 →
            valid s f ∧ isModified s f = false ∧ heap s1 !! f = heap s !! f).
  { intros f. rewrite Hst, list_elem_of_filter. intros [Hnd Hin].
    rewrite Forall_forall in Hv. pose proof (Hv f Hin) as Hf.
    split; [done|]. split.
    - destruct (isModified s f) eqn:Hm; [|done]. destruct Hnd.
      unfold dirty_files. apply list_elem_of_filter. by rewrite Hm.
    - by rewrite (Hheap f Hf), decide_False. }
  split.
  - apply Forall_forall. intros f Hf. destruct (Hkeep f Hf) as (Hf' & _ & Hh).
    unfold valid. by rewrite Hh.
  - destruct (dirty_files s1) as [|x l] eqn:E; [done|].
    assert (Hx : x ∈ dirty_files s1) by (rewrite E; left).
    unfold dirty_files in Hx. apply list_elem_of_filter in Hx as [Hm Hin].
    destruct (Hkeep x Hin) as (_ & Hm' & Hh).
    unfold isModified in Hm, Hm'. rewrite Hh in Hm. by rewrite Hm' in Hm.
Qed.

(** X14. A commit leaves no modified file in the staging vector, so a
    second commit right after a commit that returned is the no-op: it
    prints the message for nothing to commit and changes nothing else,
    whatever its message. *)
Theorem X14_commit_after_commit_is_noop {fsys : FileSystem} msg now msg' now' s s1 :
  Repository_commit msg now s = Some s1 →
  dirty_files s1 = [] ∧
  Repository_commit msg' now' s1 = Some (print nothing_to_commit s1).
Proof.
  intros Hrun. destruct (commit_leaves_clean _ _ _ _ Hrun) as [Hv HD].
  split; [done|]. by apply Repository_commit_noop.
Qed.

Lemma X14_commit_after_commit_is_noop_witness :
  Repository_commit "first" ex_now ex_staged = Some ex_committed ∧
  dirty_files ex_committed = [] ∧
  Repository_commit "again" ex_now ex_committed
    = Some (print nothing_to_commit ex_committed).
Proof.
  assert (Hrun : Repository_commit "first" ex_now ex_staged = Some ex_committed)
    by (vm_compute; reflexivity).
  split; [exact Hrun|].
  exact (X14_commit_after_commit_is_noop "first" ex_now "again" ex_now
           ex_staged ex_committed Hrun).
Defined.

(** ** Objects are never freed *)

Lemma VCS_runCommand_keeps_objects {fsys : FileSystem} cmd s s' p F :
  Inv s → VCS_runCommand cmd s = Some s' →
  heap s !! p = Some F →
  ∃ F', heap s' !! p = Some F' ∧ File_name F' = File_name F.
Proof.
  intros HI Hrun HF. destruct cmd as [fname ch1 ch2 c|fname c|msg now| |i|].
  - destruct (VCS_add_spec fname ch1 ch2 c s (inv_staged s HI)
                (inv_working s HI))
      as [[_ Hs1]|[(s1 & Hs1 & Hoc)|(s1 & G & Hs1 & Hh & _)]];
      rewrite Hs1 in Hrun; [done|injection Hrun as <-..].
    + exists F. by rewrite (proj1 Hoc).
    + exists F. split; [|done]. rewrite Hh, lookup_insert_ne; [done|].
      intros <-. by rewrite fresh_lookup_None in HF.
  - simpl in Hrun.
    destruct (edit_find_spec (workingFiles s) fname c s (inv_working s HI))
      as [(f & G & Hf & HG & _ & Heq)|[_ Heq]]; rewrite Heq in Hrun.
    + destruct (VCS_editFile_spec f c s G HG) as (s1 & Hs1 & Hh & _).
      rewrite Hs1 in Hrun. injection Hrun as <-. rewrite Hh.
      destruct (decide (f = p)) as [->|Hne].
      * rewrite lookup_insert_eq. exists (File_updated c G).
        split; [done|]. simpl. congruence.
      * rewrite lookup_insert_ne by done. by exists F.
    + injection Hrun as <-. by exists F.
  - simpl in Hrun. pose proof (inv_staged s HI) as Hv.
    destruct (decide (dirty_files s = [])) as [HD|HD].
    + rewrite Repository_commit_noop in Hrun by done. injection Hrun as <-.
      by exists F.
    + destruct (Repository_commit_success _ _ _ _ Hrun HD) as (_ & Hlt & sm & Hmk).
      destruct (Repository_commit_spec msg now s sm Hv HD Hlt Hmk)
        as (c & s1 & Hs1 & _ & _ & _ & _ & _ & _ & _ & Hheap & _).
      rewrite Hs1 in Hrun. injection Hrun as <-.
      rewrite (Hheap p) by (by exists F). rewrite HF.
      case_decide; simpl; eauto.
  - simpl in Hrun. destruct (Repository_log_spec s HI) as (s1 & Hs1 & Hoc).
    rewrite Hs1 in Hrun. injection Hrun as <-. exists F.
    by rewrite (proj1 Hoc).
  - simpl in Hrun.
    destruct (decide (i ∈ Commit_id <$> commits s)) as [Hin|Hnin].
    + apply list_elem_of_fmap in Hin as (c & -> & Hc).
      destruct (Repository_checkout_found s c HI Hc)
        as (qs & s1 & Hs1 & _ & Hsub & _).
      rewrite Hs1 in Hrun. injection Hrun as <-. exists F.
      split; [|done]. by eapply lookup_weaken.
    + rewrite Repository_checkout_not_found in Hrun by done.
      injection Hrun as <-. by exists F.
  - injection Hrun as <-. by exists F.
Qed.

(** X15. No command frees or renames a [File] object: an object that is
    live in a reachable state is still live, under the same name, after any
    further run.  In particular the objects of a working set replaced by
    [checkout] stay allocated. *)
Theorem X15_objects_are_never_freed {fsys : FileSystem} cmds s s' p F :
  reachable s → run cmds s = Some s' →
  heap s !! p = Some F →
  ∃ F', heap s' !! p = Some F' ∧ File_name F' = File_name F.
Proof.
  intros HI%reachable_Inv. revert s F HI.
  induction cmds as [|cmd cmds IH]; intros s F HI Hrun HF.
  { simpl in Hrun. injection Hrun as <-. by exists F. }
  rewrite run_cons in Hrun.
  destruct (VCS_runCommand cmd s) as [s1|] eqn:H1; [|done].
  rewrite option_bind_Some in Hrun.
  destruct (VCS_runCommand_step cmd s s1 HI H1) as [HI1 _].
  destruct (VCS_runCommand_keeps_objects cmd s s1 p F HI H1 HF)
    as (F1 & HF1 & Hn1).
  destruct (IH s1 F1 HI1 Hrun HF1) as (F' & HF' & Hn').
  exists F'. split; [done|]. congruence.
Qed.

Lemma X15_objects_are_never_freed_witness :
  reachable ex_committed ∧
  run [CmdCheckout 1] ex_committed
    = Some (default ex_committed (run [CmdCheckout 1] ex_committed)) ∧
  heap ex_committed !! 1%positive = Some (mkFile "a.txt" "hi" "hi" false) ∧
  ∃ F', heap (default ex_committed (run [CmdCheckout 1] ex_committed))
          !! 1%positive = Some F' ∧
        File_name F' = File_name (mkFile "a.txt" "hi" "hi" false).
Proof.
  assert (Hrun : run [CmdCheckout 1] ex_committed
            = Some (default ex_committed (run [CmdCheckout 1] ex_committed)))
    by (vm_compute; reflexivity).
  assert (HF : heap ex_committed !! 1%positive
               = Some (mkFile "a.txt" "hi" "hi" false))
    by (vm_compute; reflexivity).
  split; [exact ex_committed_reachable|]. split; [exact Hrun|].
  split; [exact HF|].
  exact (X15_objects_are_never_freed [CmdCheckout 1] ex_committed _ 1%positive
           _ ex_committed_reachable Hrun HF).
Defined.

(** ** What [checkout] leaves alone *)

(** X16. A checkout, of a known id or not, does not touch the staging
    vector, the history, the counter or any object that was live: the
    staged files and their pending edits are the same after it, also for
    files that are no longer in the working set. *)
Theorem X16_checkout_keeps_staging_and_edits {fsys : FileSystem} commitId s s' :
  reachable s → Repository_checkout commitId s = Some s' →
  stagedFiles s' = stagedFiles s ∧
  dirty_files s' = dirty_files s ∧
  commits s' = commits s ∧
  nextCommitId s' = nextCommitId s ∧
  ∀ p, valid s p → heap s' !! p = heap s !! p.
Proof.
  intros HI%reachable_Inv Hrun.
  assert (H : stagedFiles s' = stagedFiles s ∧ commits s' = commits s ∧
              nextCommitId s' = nextCommitId s ∧
              ∀ p, valid s p → heap s' !! p = heap s !! p).
  { destruct (decide (commitId ∈ Commit_id <$> commits s)) as [Hin|Hnin].
    - apply list_elem_of_fmap in Hin as (c & -> & Hc).
      destruct (Repository_checkout_found s c HI Hc)
        as (qs & s1 & Hs1 & _ & Hsub & _ & _ & _ & Hcs & Hst & Hn & _).
      rewrite Hs1 in Hrun. injection Hrun as <-. repeat split; try done.
      intros p [F HF]. rewrite HF. by eapply lookup_weaken.
    - rewrite Repository_checkout_not_found in Hrun by done.
      by injection Hrun as <-. }
  destruct H as (Hst & Hcs & Hn & Hh). repeat split; try done.
  apply dirty_files_ext; [done|]. intros f Hf. apply Hh.
  apply (Inv_valid_root s f HI). by left.
Qed.

Lemma X16_checkout_keeps_staging_and_edits_witness :
  reachable ex_pending ∧
  Repository_checkout 1 ex_pending = Some ex_pending_out ∧
  stagedFiles ex_pending_out = stagedFiles ex_pending ∧
  dirty_files ex_pending_out = dirty_files ex_pending ∧
  commits ex_pending_out = commits ex_pending ∧
  nextCommitId ex_pending_out = nextCommitId ex_pending ∧
  ∀ p, valid ex_pending p → heap ex_pending_out !! p = heap ex_pending !! p.
Proof.
  assert (Hrun : Repository_checkout 1 ex_pending = Some ex_pending_out)
    by (vm_compute; reflexivity).
  split; [exact ex_pending_reachable|]. split; [exact Hrun|].
  exact (X16_checkout_keeps_staging_and_edits 1 ex_pending ex_pending_out
           ex_pending_reachable Hrun).
Defined.

(** ** Sessions are safe *)


(** ** [showWorkingFiles] *)

Lemma showWorkingFiles_loop_output {fsys : FileSystem} wf : ∀ s,
  Forall (valid s) wf →
  ∃ s', showWorkingFiles_loop wf s = Some s' ∧ only_cout s s' ∧
    cout s' = cout s ++ omap (λ f, show_line <$> heap s !! f) wf.
Proof.
  induction wf as [|f wf IH]; intros s Hv; simpl.
  { exists s. rewrite app_nil_r. by repeat split. }
  inversion_clear Hv as [|? ? [F HF] Hv'].
  unfold File_showContent. rewrite HF; simpl.
  match goal with |- ∃ s', showWorkingFiles_loop _ ?s1 = _ ∧ _ =>
    destruct (IH s1) as (s' & Hs' & Hoc & Hout) end.
  { done. }
  exists s'. split; [done|]. split.
  - eapply only_cout_trans; [|exact Hoc]. apply only_cout_print.
  - rewrite Hout. simpl. by rewrite <- app_assoc.
Qed.

Lemma show_lines_length {fsys : FileSystem} s l :
  Forall (valid s) l →
  length (omap (λ f, show_line <$> heap s !! f) l) = length l.
Proof.
  induction 1 as [|f l [F HF] _ IH]; [done|]. simpl.
  change (list_omap positive string (λ f1, show_line <$> heap s !! f1) l)
    with (omap (λ f1, show_line <$> heap s !! f1) l).
  rewrite HF. simpl. by rewrite IH.
Qed.

(** X18. [showWorkingFiles] in a reachable state returns and changes
    nothing but the console: it prints its heading and then one line per
    working file, in the order of the working set, each showing the name
    and the staged content of the file, that is the pending edit and not
    the committed content. *)
Theorem X18_showWorkingFiles_prints_staged_content {fsys : FileSystem} s :
  reachable s →
  ∃ s', VCS_showWorkingFiles s = Some s' ∧
    heap s' = heap s ∧ disk s' = disk s ∧ fsops s' = fsops s ∧
    commits s' = commits s ∧ stagedFiles s' = stagedFiles s ∧
    nextCommitId s' = nextCommitId s ∧ workingFiles s' = workingFiles s ∧
    cout s' = cout s ++ ("Current Working Files:" +:+ endl)
                :: omap (λ f, show_line <$> heap s !! f) (workingFiles s) ∧
    length (cout s') = (length (cout s) + 1 + length (workingFiles s))%nat.
Proof.
  intros HI%reachable_Inv. unfold VCS_showWorkingFiles.
  destruct (showWorkingFiles_loop_output (workingFiles s)
              (print ("Current Working Files:" +:+ endl) s))
    as (s' & Hs' & Hoc & Hout).
  { exact (inv_working s HI). }
  exists s'. split; [exact Hs'|].
  destruct Hoc as (?&?&?&?&?&?&?). simpl in *.
  assert (Hc : cout s' = cout s ++ ("Current Working Files:" +:+ endl)
                 :: omap (λ f, show_line <$> heap s !! f) (workingFiles s)).
  { rewrite Hout. by rewrite <- app_assoc. }
  do 7 (split; [done|]). split; [exact Hc|].
  rewrite Hc, length_app. simpl.
  rewrite (show_lines_length s (workingFiles s) (inv_working s HI)). lia.
Qed.

Lemma X18_showWorkingFiles_prints_staged_content_witness :
  reachable ex_staged ∧
  ∃ s', VCS_showWorkingFiles ex_staged = Some s' ∧
    heap s' = heap ex_staged ∧ disk s' = disk ex_staged ∧
    fsops s' = fsops ex_staged ∧
    commits s' = commits ex_staged ∧ stagedFiles s' = stagedFiles ex_staged ∧
    nextCommitId s' = nextCommitId ex_staged ∧
    workingFiles s' = workingFiles ex_staged ∧
    cout s' = cout ex_staged ++ ("Current Working Files:" +:+ endl)
                :: omap (λ f, show_line <$> heap ex_staged !! f)
                     (workingFiles ex_staged) ∧
    length (cout s')
    = (length (cout ex_staged) + 1 + length (workingFiles ex_staged))%nat.
Proof.
  split; [exact ex_staged_reachable|].
  exact (X18_showWorkingFiles_prints_staged_content ex_staged
           ex_staged_reachable).
Defined.

(** ** The dispatch on the command line *)

Lemma prefix_app p : ∀ cmd,
  String.prefix p cmd = true → ∃ r, cmd = p +:+ r.
Proof.
  induction p as [|a p IH]; intros cmd H.
  { by exists cmd. }
  destruct cmd as [|b cmd]; simpl in H; [done|].
  destruct (ascii_dec a b) as [->|]; [|done].
  destruct (IH cmd H) as [r ->]. exists r. by rewrite string_app_cons.
Qed.

Lemma prefix_app_true p r : String.prefix p (p +:+ r) = true.
Proof.
  induction p as [|a p IH]; [by destruct r|].
  rewrite string_app_cons. simpl. by destruct (ascii_dec a a).
Qed.

Lemma substr_app p r : substr (String.length p) (p +:+ r) = Some r.
Proof.
  induction p as [|a p IH]; [by destruct r|].
  rewrite string_app_cons. exact IH.
Qed.

(** X19. [runCommand] dispatches on the start of the line, and the
    argument of a command is everything after the keyword and its one
    space, as it is: [add], [edit] and [commit] take the rest of the line
    (also when it is empty or starts with more spaces), [checkout] hands
    it to [stoi], whose exception nothing catches, and [log] is the line
    [log] alone.  [substr] never raises here.  A line of no such form only
    prints the message for an unknown command. *)
Theorem X19_runCommand_dispatches_on_prefix {fsys : FileSystem} stoi con s :
  (∀ fname, VCS_runCommand_line stoi ("add " +:+ fname) con s
     = VCS_runCommand (CmdAdd fname (con_ch1 con) (con_ch2 con) (con_line con)) s) ∧
  (∀ fname, VCS_runCommand_line stoi ("edit " +:+ fname) con s
     = VCS_runCommand (CmdEdit fname (con_line con)) s) ∧
  (∀ msg, VCS_runCommand_line stoi ("commit " +:+ msg) con s
     = VCS_runCommand (CmdCommit msg (con_now con)) s) ∧
  VCS_runCommand_line stoi "log" con s = VCS_runCommand CmdLog s ∧
  (∀ arg, VCS_runCommand_line stoi ("checkout " +:+ arg) con s
     = id ← stoi arg; VCS_runCommand (CmdCheckout id) s) ∧
  (∀ cmd,
     (∃ r, cmd = "add " +:+ r) ∨ (∃ r, cmd = "edit " +:+ r) ∨
     (∃ r, cmd = "commit " +:+ r) ∨ cmd = "log" ∨
     (∃ r, cmd = "checkout " +:+ r) ∨
     VCS_runCommand_line stoi cmd con s
       = Some (print ("Unknown command!" +:+ endl) s)).
Proof.
  split; [|split; [|split; [|split; [|split]]]].
  - intros fname. unfold VCS_runCommand_line.
    rewrite prefix_app_true.
    change 4%nat with (String.length "add "). by rewrite substr_app.
  - intros fname. unfold VCS_runCommand_line.
    change (String.prefix "add " ("edit " +:+ fname)) with false.
    cbv iota. rewrite prefix_app_true.
    change 5%nat with (String.length "edit "). by rewrite substr_app.
  - intros msg. unfold VCS_runCommand_line.
    change (String.prefix "add " ("commit " +:+ msg)) with false.
    change (String.prefix "edit " ("commit " +:+ msg)) with false.
    cbv iota. rewrite prefix_app_true.
    change 7%nat with (String.length "commit "). by rewrite substr_app.
  - reflexivity.
  - intros arg. unfold VCS_runCommand_line.
    change (String.prefix "add " ("checkout " +:+ arg)) with false.
    change (String.prefix "edit " ("checkout " +:+ arg)) with false.
    change (String.prefix "commit " ("checkout " +:+ arg)) with false.
    cbv iota. rewrite decide_False.
    2:{ rewrite !string_app_cons. discriminate. }
    rewrite prefix_app_true.
    change 9%nat with (String.length "checkout "). by rewrite substr_app.
  - intros cmd. unfold VCS_runCommand_line.
    destruct (String.prefix "add " cmd) eqn:H1;
      [left; by apply prefix_app|right].
    destruct (String.prefix "edit " cmd) eqn:H2;
      [left; by apply prefix_app|right].
    destruct (String.prefix "commit " cmd) eqn:H3;
      [left; by apply prefix_app|right].
    destruct (decide (cmd = "log")) as [->|Hlog]; [by left|right].
    destruct (String.prefix "checkout " cmd) eqn:H4;
      [left; by apply prefix_app|right].
    reflexivity.
Qed.

(** ** Files of the same name in one commit *)

(** An entry of the map under construction stays, with its object, while
    the constructor goes through files of other names. *)
Lemma Commit_fill_keeps_entry {fsys : FileSystem} h0 staged : ∀ files s files' s' k q G,
  Forall (λ f, ∃ F, h0 !! f = Some F ∧ File_name F ≠ k) staged →
  h0 ⊆ heap s →
  NoDup files.*2 →
  Forall (λ e, h0 !! e.2 = None ∧ is_Some (heap s !! e.2)) files →
  (k, q) ∈ files → heap s !! q = Some G →
  Commit_fill staged files s = Some (files', s') →
  (k, q) ∈ files' ∧ heap s' !! q = Some G.
Proof.
  induction staged as [|f staged IH];
    intros files s files' s' k q G Hst Hsub Hnd Hfiles Hin HG Hfill.
  { simpl in Hfill. by injection Hfill as <- <-. }
  inversion_clear Hst as [|? ? (F & HF & Hne) Hst'].
  assert (HFs : heap s !! f = Some F) by (eapply lookup_weaken; eauto).
  simpl in Hfill. unfold File_clone in Hfill.
  rewrite HFs in Hfill; simpl in Hfill.
  set (p := fresh (dom (heap s))) in *.
  assert (Hp : heap s !! p = None) by apply fresh_lookup_None.
  assert (Hp0 : h0 !! p = None) by (by eapply subseteq_lookup_None).
  assert (Hpfiles : p ∉ files.*2).
  { intros [[k' p'] [-> Hin']]%list_elem_of_fmap.
    rewrite Forall_forall in Hfiles.
    destruct (Hfiles _ Hin') as (_ & [? He]). simpl in *. congruence. }
  assert (Hqp : q ≠ p) by congruence.
  pose proof (map_assign_perm (File_name F) p files) as Hperm.
  destruct (map_assign (File_name F) p files) as [files1 [q0|]]; simpl in *.
  - destruct Hperm as (m0 & Hm & Hr).
    rewrite Hm in Hnd, Hpfiles, Hfiles, Hin. simpl in *.
    apply NoDup_cons in Hnd as [Hq0m Hndm].
    apply Forall_cons in Hfiles as [[Hq00 Hq0l] Hfilesm]. simpl in Hq00, Hq0l.
    apply not_elem_of_cons in Hpfiles as [Hpq0 Hpm].
    apply elem_of_cons in Hin as [Heq|Hin]; [congruence|].
    assert (Hqq0 : q ≠ q0).
    { intros ->. apply Hq0m. apply list_elem_of_fmap. by exists (k, q0). }
    apply (IH files1 (delete_File q0 (with_heap (<[p:=F]> (heap s)) s))
             files' s' k q G); try done.
    + apply map_subseteq_spec. intros y Y HY. simpl.
      rewrite lookup_delete_ne by congruence.
      rewrite lookup_insert_ne by congruence. by eapply lookup_weaken.
    + rewrite Hr. simpl. by apply NoDup_cons.
    + rewrite Hr. apply Forall_cons. split.
      * simpl. split; [done|]. rewrite lookup_delete_ne by done.
        rewrite lookup_insert_eq. eauto.
      * apply Forall_forall. intros e He. rewrite Forall_forall in Hfilesm.
        destruct (Hfilesm e He) as [He0 [E HE]]. split; [done|]. simpl.
        rewrite lookup_delete_ne.
        -- rewrite lookup_insert_ne by congruence. eauto.
        -- intros Heq. apply Hq0m. rewrite Heq. apply list_elem_of_fmap.
           by exists e.
    + rewrite Hr. by right.
    + simpl. rewrite lookup_delete_ne by done. by rewrite lookup_insert_ne.
  - apply (IH files1 (with_heap (<[p:=F]> (heap s)) s) files' s' k q G);
      try done.
    + apply map_subseteq_spec. intros y Y HY. simpl.
      rewrite lookup_insert_ne by congruence. by eapply lookup_weaken.
    + rewrite Hperm. simpl. by apply NoDup_cons.
    + rewrite Hperm. apply Forall_cons. split.
      * simpl. split; [done|]. rewrite lookup_insert_eq. eauto.
      * apply Forall_forall. intros e He. rewrite Forall_forall in Hfiles.
        destruct (Hfiles e He) as [He0 [E HE]]. split; [done|]. simpl.
        rewrite lookup_insert_ne by congruence. eauto.
    + rewrite Hperm. by right.
    + simpl. by rewrite lookup_insert_ne.
Qed.

(** The constructor keeps, for a name, the clone of the last file of that
    name in the list it is given. *)
Lemma Commit_fill_last_wins {fsys : FileSystem} pre f post F files s s' :
  Forall (valid s) (pre ++ f :: post) →
  heap s !! f = Some F →
  Forall (λ g, ∃ G, heap s !! g = Some G ∧ File_name G ≠ File_name F) post →
  Commit_fill (pre ++ f :: post) [] s = Some (files, s') →
  ∃ q, (File_name F, q) ∈ files ∧ heap s' !! q = Some F.
Proof.
  intros Hv HF Hpost Hfill.
  assert (Hsrc : ∀ l, l ⊆ pre ++ f :: post →
            Forall (λ g, g ∈ pre ++ f :: post ∧ is_Some (heap s !! g)) l).
  { intros l Hl. apply Forall_forall. intros g Hg. split; [by apply Hl|].
    rewrite Forall_forall in Hv. by apply Hv, Hl. }
  destruct (Commit_fill_spec (heap s) (pre ++ f :: post) pre [] s)
    as (files1 & sa & Hfill1 & Hsub1 & Hnd1 & Hcl1 & Hks1 & _);
    [| done | constructor | constructor | constructor |].
  { apply Hsrc. intros g Hg. apply elem_of_app. by left. }
  destruct (Commit_fill_spec (heap s) (pre ++ f :: post) (pre ++ [f]) [] s)
    as (files2 & sb & Hfill2 & Hsub2 & Hnd2 & Hcl2 & Hks2 & _);
    [| done | constructor | constructor | constructor |].
  { apply Hsrc. intros g. rewrite !elem_of_app, !elem_of_cons, elem_of_nil.
    tauto. }
  pose proof Hfill2 as Hstep. rewrite Commit_fill_app, Hfill1 in Hstep.
  simpl in Hstep. unfold File_clone in Hstep.
  rewrite (lookup_weaken _ _ _ _ HF Hsub1) in Hstep. simpl in Hstep.
  set (p := fresh (dom (heap sa))) in *.
  pose proof (map_assign_new (File_name F) p files1) as Hnew.
  pose proof (map_assign_perm (File_name F) p files1) as Hperm.
  destruct (map_assign (File_name F) p files1) as [files2' old]. simpl in *.
  injection Hstep as -> Hsb.
  assert (Hp : heap sb !! p = Some F).
  { rewrite <- Hsb. destruct old as [q0|]; simpl; [|apply lookup_insert_eq].
    destruct Hperm as (m0 & Hm & Hr).
    rewrite lookup_delete_ne; [apply lookup_insert_eq|].
    intros ->. rewrite Hm in Hcl1. apply Forall_cons in Hcl1 as [Hc _].
    destruct Hc as (_ & g & G & _ & _ & _ & Hg). simpl in Hg.
    unfold p in Hg. by rewrite fresh_lookup_None in Hg. }
  assert (Hfill3 : Commit_fill post files2 sb = Some (files, s')).
  { replace (pre ++ f :: post) with ((pre ++ [f]) ++ post) in Hfill
      by (by rewrite <- app_assoc).
    rewrite Commit_fill_app, Hfill2 in Hfill. done. }
  exists p.
  apply (Commit_fill_keeps_entry (heap s) post files2 sb files s'
           (File_name F) p F); try done.
  eapply Forall_impl; [exact Hcl2|].
  intros e (He0 & g & G & _ & _ & _ & He). split; [done|]. by exists G.
Qed.

(** The same for the commit made by [commit]: under a name it stores the
    content staged in the last selected file of that name. *)
Lemma Repository_commit_entry {fsys : FileSystem} msg now s s' pre f post F :
  Repository_commit msg now s = Some s' →
  dirty_files s = pre ++ f :: post →
  heap s !! f = Some F →
  File_name F ∉ names_of s post →
  ∃ c q, commits s' = commits s ++ [c] ∧ Commit_id c = nextCommitId s ∧
    (File_name F, q) ∈ Commit_files c ∧
    heap s !! q = None ∧
    heap s' !! q = Some (File_committed F).
Proof.
  intros Hrun HDeq HF Hlast.
  assert (HD : dirty_files s ≠ []) by (rewrite HDeq; by destruct pre).
  destruct (Repository_commit_unfold msg now s s' Hrun HD)
    as (s2 & files & s3 & HvD & Hheap2 & Hfill & Hcl & Hc & Hh).
  assert (Hin2 : ∀ g G, g ∈ dirty_files s → heap s !! g = Some G →
            heap s2 !! g = Some (File_committed G)).
  { intros g G Hg HG. by rewrite Hheap2, decide_True, HG. }
  rewrite HDeq in Hfill.
  destruct (Commit_fill_last_wins pre f post (File_committed F) files
              (with_nextCommitId (nextCommitId s + 1) s2) s3)
    as (q & Hq & Hheapq); try done.
  - rewrite <- HDeq. eapply Forall_impl; [exact HvD|]. intros g [G HG].
    unfold valid. simpl. rewrite Hheap2, HG. by case_decide.
  - simpl. apply Hin2; [|done]. rewrite HDeq, elem_of_app, elem_of_cons. tauto.
  - apply Forall_forall. intros g Hg.
    assert (HgD : g ∈ dirty_files s).
    { rewrite HDeq, elem_of_app, elem_of_cons. tauto. }
    rewrite Forall_forall in HvD. destruct (HvD g HgD) as [G HG].
    exists (File_committed G). split; [by apply Hin2|]. simpl.
    intros Heq. apply Hlast. rewrite <- Heq. by eapply names_of_elem.
  - eexists _, q. split; [exact Hc|]. simpl.
    split; [done|]. split; [done|]. rewrite Hh. split; [|done].
    rewrite Forall_forall in Hcl. destruct (Hcl _ Hq) as [Hnone _].
    simpl in Hnone. rewrite Hheap2 in Hnone.
    destruct (heap s !! q); [by case_decide|done].
Qed.

(** X20. When several selected files carry the same name, the commit
    stores under that name the content staged in the last of them in the
    order of the staging vector: for a selected file [f] after which no
    selected file has its name, the new commit has one entry under the
    name of [f], and no other; its object is a new one and holds the staged
    content of [f], committed. *)
Theorem X20_commit_same_name_last_wins {fsys : FileSystem} msg now s s' pre f post F :
  Repository_commit msg now s = Some s' →
  dirty_files s = pre ++ f :: post →
  heap s !! f = Some F →
  File_name F ∉ names_of s post →
  ∃ c q, commits s' = commits s ++ [c] ∧ Commit_id c = nextCommitId s ∧
    (File_name F, q) ∈ Commit_files c ∧
    (∀ q', (File_name F, q') ∈ Commit_files c → q' = q) ∧
    heap s !! q = None ∧
    heap s' !! q = Some (File_committed F).
Proof.
  intros Hrun HDeq HF Hlast.
  destruct (Repository_commit_entry msg now s s' pre f post F Hrun HDeq HF
              Hlast) as (c & q & Hc & Hid & Hq & Hnone & Hheap).
  assert (HD : dirty_files s ≠ []) by (rewrite HDeq; by destruct pre).
  destruct (Repository_commit_keys msg now s s' Hrun HD)
    as (c' & Hc' & _ & Hks).
  rewrite Hc in Hc'. apply app_inv_head in Hc'. injection Hc' as <-.
  exists c, q. do 3 (split; [done|]). split; [|done].
  intros q' Hq'. pose proof (keys_sorted_NoDup _ Hks) as Hnd.
  apply list_elem_of_lookup in Hq as [i Hi].
  apply list_elem_of_lookup in Hq' as [j Hj].
  assert (Hij : i = j).
  { eapply NoDup_lookup; [exact Hnd| |];
      rewrite list_lookup_fmap; [rewrite Hi|rewrite Hj]; done. }
  subst j. congruence.
Qed.

Lemma X20_commit_same_name_last_wins_witness :
  Repository_commit "both" ex_now ex_twice = Some ex_twice_committed ∧
  dirty_files ex_twice = [3%positive] ++ 4%positive :: [] ∧
  heap ex_twice !! 4%positive = Some (mkFile "a.txt" "hi" "ciao" true) ∧
  (File_name (mkFile "a.txt" "hi" "ciao" true) ∉ names_of ex_twice []) ∧
  ∃ c q, commits ex_twice_committed = commits ex_twice ++ [c] ∧
    Commit_id c = nextCommitId ex_twice ∧
    (File_name (mkFile "a.txt" "hi" "ciao" true), q) ∈ Commit_files c ∧
    (∀ q', (File_name (mkFile "a.txt" "hi" "ciao" true), q') ∈ Commit_files c
           → q' = q) ∧
    heap ex_twice !! q = None ∧
    heap ex_twice_committed !! q
    = Some (File_committed (mkFile "a.txt" "hi" "ciao" true)).
Proof.
  assert (Hrun : Repository_commit "both" ex_now ex_twice
                 = Some ex_twice_committed) by (vm_compute; reflexivity).
  assert (HD : dirty_files ex_twice = [3%positive] ++ 4%positive :: [])
    by (vm_compute; reflexivity).
  assert (HF : heap ex_twice !! 4%positive
               = Some (mkFile "a.txt" "hi" "ciao" true))
    by (vm_compute; reflexivity).
  assert (Hlast : File_name (mkFile "a.txt" "hi" "ciao" true)
                  ∉ names_of ex_twice []) by apply not_elem_of_nil.
  split; [exact Hrun|]. split; [exact HD|]. split; [exact HF|].
  split; [exact Hlast|].
  exact (X20_commit_same_name_last_wins "both" ex_now ex_twice
           ex_twice_committed [3%positive] 4%positive [] _ Hrun HD HF Hlast).
Defined.

(** ** A commit and its checkout *)

(** X21. Checking out the commit that [commit] has just made replaces the
    working set by new objects, one per name of the selected files D and no
    two of the same name; each of them is unmodified and holds the content
    that was staged in a file of D when the commit was made, and for each
    name it is the content staged in the last file of D with that name. *)
Theorem X21_commit_then_checkout_restores_staged_content {fsys : FileSystem} msg now s s1 :
  reachable s →
  Repository_commit msg now s = Some s1 →
  dirty_files s ≠ [] →
  ∃ s2, Repository_checkout (nextCommitId s) s1 = Some s2 ∧
    NoDup (names_of s2 (workingFiles s2)) ∧
    (∀ n, n ∈ names_of s2 (workingFiles s2) ↔ n ∈ names_of s (dirty_files s)) ∧
    Forall (λ w, heap s1 !! w = None ∧
                 ∃ f F, f ∈ dirty_files s ∧ heap s !! f = Some F ∧
                        heap s2 !! w = Some (File_committed F))
           (workingFiles s2) ∧
    (∀ pre f post F,
       dirty_files s = pre ++ f :: post → heap s !! f = Some F →
       File_name F ∉ names_of s post →
       ∃ w, w ∈ workingFiles s2 ∧ heap s2 !! w = Some (File_committed F)).
Proof.
  intros HI%reachable_Inv Hrun HD.
  destruct (step_commit msg now s s1 HI Hrun) as [HI1 _].
  destruct (Repository_commit_success _ _ _ _ Hrun HD) as (Hv & Hlt & sm & Hmk).
  destruct (Repository_commit_spec msg now s sm Hv HD Hlt Hmk)
    as (c & s1' & Hs1 & Hc & Hid & _ & _ & _ & _ & _ & _ & _ & _ & Hsnap & _).
  rewrite Hs1 in Hrun. injection Hrun as ->.
  destruct (Repository_commit_keys msg now s s1 Hs1 HD)
    as (c' & Hc' & Hkeys & _).
  rewrite Hc in Hc'. apply app_inv_head in Hc'. injection Hc' as <-.
  assert (Hin : c ∈ commits s1) by (rewrite Hc, elem_of_app; right; left).
  destruct (Repository_checkout_restored s1 c HI1 Hin)
    as (s2 & Hs2 & Hall & Hnames & Hnd & _).
  destruct (Repository_checkout_found s1 c HI1 Hin)
    as (qs & s2' & Hs2' & Hwf & _ & Hnone & _).
  rewrite Hs2 in Hs2'. injection Hs2' as <-. subst qs.
  rewrite Hid in Hs2. exists s2. split; [done|].
  rewrite Hnames. split; [done|]. split; [done|]. split.
  - apply Forall_forall. intros w Hw. rewrite Forall_forall in Hnone.
    split; [by apply Hnone|].
    apply list_elem_of_lookup in Hw as [i Hi].
    destruct (Forall2_lookup_r _ _ _ _ _ Hall Hi)
      as (e & He & S & HS & HS' & _).
    rewrite Forall_forall in Hsnap.
    destruct (Hsnap e) as (_ & f & F & Hf & HF & _ & HeF).
    { by eapply list_elem_of_lookup_2. }
    exists f, F. split; [done|]. split; [done|]. congruence.
  - intros pre f post F HDeq HF Hlast.
    destruct (Repository_commit_entry msg now s s1 pre f post F Hs1 HDeq HF
                Hlast) as (c' & q & Hc' & _ & Hq & _ & Hheapq).
    rewrite Hc in Hc'. apply app_inv_head in Hc'. injection Hc' as <-.
    apply list_elem_of_lookup in Hq as [i Hi].
    destruct (Forall2_lookup_l _ _ _ _ _ Hall Hi)
      as (w & Hw & S & HS & HS' & _).
    exists w. split; [by eapply list_elem_of_lookup_2|].
    simpl in HS. congruence.
Qed.

Lemma X21_commit_then_checkout_restores_staged_content_witness :
  reachable ex_twice ∧
  Repository_commit "both" ex_now ex_twice = Some ex_twice_committed ∧
  dirty_files ex_twice ≠ [] ∧
  ∃ s2, Repository_checkout (nextCommitId ex_twice) ex_twice_committed
        = Some s2 ∧
    NoDup (names_of s2 (workingFiles s2)) ∧
    (∀ n, n ∈ names_of s2 (workingFiles s2)
          ↔ n ∈ names_of ex_twice (dirty_files ex_twice)) ∧
    Forall (λ w, heap ex_twice_committed !! w = None ∧
                 ∃ f F, f ∈ dirty_files ex_twice ∧
                        heap ex_twice !! f = Some F ∧
                        heap s2 !! w = Some (File_committed F))
           (workingFiles s2) ∧
    (∀ pre f post F,
       dirty_files ex_twice = pre ++ f :: post →
       heap ex_twice !! f = Some F →
       File_name F ∉ names_of ex_twice post →
       ∃ w, w ∈ workingFiles s2 ∧ heap s2 !! w = Some (File_committed F)).
Proof.
  assert (Hrun : Repository_commit "both" ex_now ex_twice
                 = Some ex_twice_committed) by (vm_compute; reflexivity).
  assert (HD : dirty_files ex_twice ≠ []) by (vm_compute; discriminate).
  split; [exact ex_twice_reachable|]. split; [exact Hrun|].
  split; [exact HD|].
  exact (X21_commit_then_checkout_restores_staged_content "both" ex_now
           ex_twice ex_twice_committed ex_twice_reachable Hrun HD).
Defined.

(** X22. [addFile] stages an object once: given a live object and a staging
    vector without repetition, the call returns; the object is appended
    when it is not yet staged and the vector is left as it is otherwise; a
    second call with the same pointer changes nothing, and the object
    stands in the vector exactly once. *)
Theorem X22_addFile_stages_an_object_once {fsys : FileSystem} f s :
  valid s f →
  NoDup (stagedFiles s) →
  ∃ s1, Repository_addFile f s = Some s1 ∧
    (stagedFiles s1
     = if decide (f ∈ stagedFiles s) then stagedFiles s
       else stagedFiles s ++ [f]) ∧
    Repository_addFile f s1 = Some s1 ∧
    NoDup (stagedFiles s1) ∧
    filter (λ g, g = f) (stagedFiles s1) = [f].
Proof.
  intros Hv Hnd.
  destruct (Repository_addFile_same_pointer f s Hv) as (s1 & Hs1 & Hs2 & Hst).
  exists s1. split; [done|]. split; [by rewrite Hst|]. split; [done|].
  assert (Hnd1 : NoDup (stagedFiles s1)).
  { rewrite Hst. by apply push_back_new_NoDup. }
  split; [done|]. apply filter_eq_NoDup; [done|].
  rewrite Hst. apply elem_of_push_back_new. by right.
Qed.

Lemma X22_addFile_stages_an_object_once_witness :
  valid ex_checked_out 3%positive ∧
  NoDup (stagedFiles ex_checked_out) ∧
  (3%positive ∉ stagedFiles ex_checked_out) ∧
  ∃ s1, Repository_addFile 3%positive ex_checked_out = Some s1 ∧
    (stagedFiles s1
     = if decide (3%positive ∈ stagedFiles ex_checked_out)
       then stagedFiles ex_checked_out
       else stagedFiles ex_checked_out ++ [3%positive]) ∧
    Repository_addFile 3%positive s1 = Some s1 ∧
    NoDup (stagedFiles s1) ∧
    filter (λ g, g = 3%positive) (stagedFiles s1) = [3%positive].
Proof.
  assert (Hv : valid ex_checked_out 3%positive)
    by (vm_compute; eexists; reflexivity).
  assert (Hnd : NoDup (stagedFiles ex_checked_out))
    by (vm_compute; apply NoDup_nil_2).
  split; [exact Hv|]. split; [exact Hnd|].
  split; [vm_compute; intros H; inversion H|].
  exact (X22_addFile_stages_an_object_once 3%positive ex_checked_out Hv Hnd).
Defined.
